(** * Venue-search resolution and nearest-venue ranking

    A shallow embedding of the foot-traffic pipeline of the repository:

    - [New_thesis/utils/foottraffic_helper.py]: [haversine_meters],
      [average_day_mean], [top_closest_with_foot_traffic];
    - [New_thesis/can/besttime.py] (duplicated verbatim in
      [New_thesis/my_app.py]): [besttime_post_qs], [besttime_get_json],
      [wait_for_progress_and_get_venues] and the venue-resolution part of
      [foot_traffic_closest].

    Modelling conventions.
    - Python floats are idealised: geometry and forecast means live in the
      real numbers [R]; wall-clock times and poll intervals are exact
      rationals [Q] (the poll loop only adds, scales, takes minima and
      compares).
    - Decoded JSON is the inductive type [json]; a Python [dict] is an
      association list in insertion order, looked up by its first match.
    - Exceptions are results [Raise e]; the HTTP transport and the clock are
      an explicit [world] threaded through every call.
    - Venue dictionaries handed to the ranking live in a store of objects
      ([heap]), so that copies and in-place updates are distinguished from the
      caller's dictionaries. *)

From Stdlib Require Import Reals QArith Qminmax Qround Qpower ZArith Lia Psatz List.
From Stdlib Require Import Ascii String.
From Stdlib Require Import Sorting.Sorted Sorting.Permutation.
From stdpp Require Import base list strings pretty.
Import ListNotations.
Open Scope string_scope.
Open Scope list_scope.

(** ** Python values *)

Module Py.

#[warnings="-register-all"]
Inductive json : Type :=
| JNull
| JBool (b : bool)
| JNum (x : R)
| JStr (s : string)
| JList (l : list json)
| JDict (d : list (string * json)).

(** A [dict] with string keys, in insertion order. *)
Definition pydict : Type := list (string * json).

Inductive exn : Type :=
| ValueError (msg : string)
| TypeError
| AttributeError
| KeyError (k : string)
| RequestException
| JSONDecodeError
| DanglingRef.

Inductive result (A : Type) : Type :=
| Ok (a : A)
| Raise (e : exn).
Arguments Ok {A} a.
Arguments Raise {A} e.

Definition bind {A B} (m : result A) (k : A -> result B) : result B :=
  match m with
  | Ok a => k a
  | Raise e => Raise e
  end.

Declare Scope py_scope.
Delimit Scope py_scope with py.
Notation "'let!' x ':=' m 'in' k" := (bind m (fun x => k))
  (at level 10, x name, m at level 100, k at level 200) : py_scope.

(** [k in d] and [d[k]] / [d.get(k)]: the first binding of [k]. *)
Fixpoint dict_get (k : string) (d : pydict) : option json :=
  match d with
  | [] => None
  | (k', v) :: d' => if String.eqb k k' then Some v else dict_get k d'
  end.

Definition dict_has (k : string) (d : pydict) : bool :=
  match dict_get k d with Some _ => true | None => false end.

(** [d.get(k)], which is [None] for a missing key. *)
Definition get (d : pydict) (k : string) : json :=
  match dict_get k d with Some v => v | None => JNull end.

(** [d[k] = v]: overwrite in place, or append a new key. *)
Fixpoint dict_set (k : string) (v : json) (d : pydict) : pydict :=
  match d with
  | [] => [(k, v)]
  | (k', v') :: d' =>
      if String.eqb k k' then (k, v) :: d' else (k', v') :: dict_set k v d'
  end.

(** [d.values()] *)
Definition values (d : pydict) : list json := map snd d.

(** Truth value of an object, as tested by [if x], [not x] and [x or y]. *)
Definition truthy (v : json) : bool :=
  match v with
  | JNull => false
  | JBool b => b
  | JNum x => if Req_dec_T x 0 then false else true
  | JStr s => negb (String.eqb s "")
  | JList l => match l with [] => false | _ :: _ => true end
  | JDict d => match d with [] => false | _ :: _ => true end
  end.

(** [a or b] *)
Definition py_or (a b : json) : json := if truthy a then a else b.

(** [x is None] *)
Definition is_none (v : json) : bool :=
  match v with JNull => true | _ => false end.

(** [isinstance(m, (int, float))]; [bool] is a subclass of [int]. *)
Definition as_number (m : json) : option R :=
  match m with
  | JNum x => Some x
  | JBool true => Some 1%R
  | JBool false => Some 0%R
  | _ => None
  end.

(** [l[:n]] for an integer [n]: a negative bound counts from the end. *)
Definition slice_to {A} (n : Z) (l : list A) : list A :=
  if (0 <=? n)%Z then take (Z.to_nat n) l
  else take (List.length l - Z.to_nat (- n)) l.

(** [needle in hay] on strings. *)
Fixpoint contains (needle hay : string) : bool :=
  String.prefix needle hay
  || match hay with
     | EmptyString => false
     | String _ hay' => contains needle hay'
     end.

(** [s.lstrip('/')] and [s.rstrip('/')] *)
Fixpoint lstrip_slash (s : string) : string :=
  match s with
  | String c s' => if Ascii.eqb c "/"%char then lstrip_slash s' else s
  | EmptyString => EmptyString
  end.

Fixpoint rstrip_slash (s : string) : string :=
  match s with
  | EmptyString => EmptyString
  | String c s' =>
      match rstrip_slash s' with
      | EmptyString => if Ascii.eqb c "/"%char then EmptyString else String c EmptyString
      | r => String c r
      end
  end.

End Py.
Import Py.
Open Scope py_scope.

(** ** GeoMath: [haversine_meters] *)

Module GeoMath.
Local Open Scope R_scope.

(** [math.radians] *)
Definition radians (x : R) : R := x * (PI / 180).

(** [math.atan2], the angle of the point [(x, y)] in [(-PI, PI]]. *)
Definition atan2 (y x : R) : R :=
  if Rlt_dec 0 x then atan (y / x)
  else if Rlt_dec x 0 then
    (if Rle_dec 0 y then atan (y / x) + PI else atan (y / x) - PI)
  else if Rlt_dec 0 y then PI / 2
  else if Rlt_dec y 0 then - (PI / 2)
  else 0.

Definition haversine_meters (lat1 lon1 lat2 lon2 : R) : R :=
  let R := 6371008.8 in
  let phi1 := radians lat1 in
  let phi2 := radians lat2 in
  let dphi := radians (lat2 - lat1) in
  let dlambda := radians (lon2 - lon1) in
  let a := sin (dphi / 2) ^ 2 + cos phi1 * cos phi2 * sin (dlambda / 2) ^ 2 in
  let c := 2 * atan2 (sqrt a) (sqrt (1 - a)) in
  R * c.

End GeoMath.

(** ** Foot-traffic helper: [average_day_mean] and the ranking *)

Module FootTraffic.
Import GeoMath.
Local Open Scope R_scope.

(** *** The store of dictionary objects *)

(** A venue handed to the ranking is a reference to a [dict] object. *)
Abbreviation loc := nat (only parsing).
Abbreviation heap := (list pydict) (only parsing).

(** [dict(v)]: a new object holding the same top-level bindings. *)
Definition alloc (d : pydict) (h : heap) : loc * heap := (List.length h, h ++ [d]).

(** [x[k] = v] on the object at [x]. *)
Definition setitem (x : loc) (k : string) (v : json) (h : heap) : heap :=
  match h !! x with
  | Some d => <[x := dict_set k v d]> h
  | None => h
  end.

(** *** [average_day_mean] *)

(** [for d in forecasts]: the elements of a list, the keys of a dict, the
    characters of a string; other objects are not iterable. *)
Definition iterate (v : json) : result (list json) :=
  match v with
  | JList l => Ok l
  | JDict d => Ok (map (fun kv => JStr (fst kv)) d)
  | JStr s => Ok (map (fun c => JStr (String c EmptyString)) (list_ascii_of_string s))
  | _ => Raise TypeError
  end.

(** One round of the loop body: the [day_mean] to append, if it is numeric.
    Only a dict has [.get]. *)
Definition day_mean_of (d : json) : result (option R) :=
  match d with
  | JDict dd =>
      match py_or (get dd "day_info") (JDict []) with
      | JDict info => Ok (as_number (get info "day_mean"))
      | _ => Raise AttributeError
      end
  | _ => Raise AttributeError
  end.

Fixpoint collect_means (forecasts : list json) (means : list R) : result (list R) :=
  match forecasts with
  | [] => Ok means
  | d :: rest =>
      let! m := day_mean_of d in
      collect_means rest (match m with Some x => means ++ [x] | None => means end)
  end.

(** [sum(means)] *)
Definition sum (means : list R) : R := fold_left Rplus means 0.

Definition average_day_mean (venue : pydict) : result R :=
  let! forecasts := iterate (py_or (get venue "venue_foot_traffic_forecast") (JList [])) in
  let! means := collect_means forecasts [] in
  Ok (match means with
      | [] => 0
      | _ :: _ => sum means / INR (List.length means)
      end).

(** *** The spec's reading of a venue *)

(** [DayForecast = {dayMean: optional float64}] *)
Definition DayForecast : Type := option R.

(** The spec's [meanForecastIntensity], in the spec's words: the arithmetic
    mean of all present [dayMean] values, [0.0] when there is none. *)
Definition meanForecastIntensity (forecastSeries : list DayForecast) : R :=
  let present := omap (fun day : DayForecast => (day : option R)) forecastSeries in
  match present with
  | [] => 0
  | _ :: _ => fold_right Rplus 0 present / INR (List.length present)
  end.

(** How a day of the provider's JSON reads as a [DayForecast]: an object
    whose [day_info] is absent, null or an object; its [day_mean] is present
    when it is a number. Other shapes are not days. *)
Definition day_forecast_of (d : json) : option DayForecast :=
  match d with
  | JDict dd =>
      match dict_get "day_info" dd with
      | None | Some JNull => Some None
      | Some (JDict info) => Some (as_number (get info "day_mean"))
      | Some _ => None
      end
  | _ => None
  end.

(** How a venue dictionary reads as the spec's [forecastSeries]: the list
    under [venue_foot_traffic_forecast], empty when the key is absent or
    null. *)
Definition forecast_series_of (venue : pydict) : option (list DayForecast) :=
  match dict_get "venue_foot_traffic_forecast" venue with
  | None | Some JNull => Some []
  | Some (JList l) => mapM day_forecast_of l
  | Some _ => None
  end.

(** *** [top_closest_with_foot_traffic] *)

Section Ranking.

(** [float(s)] on a string is Python's parser, kept abstract. *)
Variable float_of_str : string -> option R.

(** [float(x)] *)
Definition py_float (v : json) : result R :=
  match v with
  | JNum x => Ok x
  | JBool b => Ok (if b then 1 else 0)
  | JStr s =>
      match float_of_str s with
      | Some x => Ok x
      | None => Raise (ValueError "could not convert string to float")
      end
  | _ => Raise TypeError
  end.

(** Step 1, the filtering loop. [candidates] are the copies made so far. *)
Fixpoint collect_candidates (venues : list loc) (target_lat target_lon : R)
    (candidates : list loc) (h : heap) : result (list loc) * heap :=
  match venues with
  | [] => (Ok candidates, h)
  | v :: rest =>
      match h !! v with
      | None => (Raise DanglingRef, h)
      | Some d =>
          if negb (truthy (get d "forecast")) then
            collect_candidates rest target_lat target_lon candidates h
          else
            let lat := get d "venue_lat" in
            let lon := get d "venue_lon" in
            if is_none lat || is_none lon then
              collect_candidates rest target_lat target_lon candidates h
            else
              match py_float lat with
              | Raise e => (Raise e, h)
              | Ok flat =>
              match py_float lon with
              | Raise e => (Raise e, h)
              | Ok flon =>
                  let dist := haversine_meters target_lat target_lon flat flon in
                  match average_day_mean d with
                  | Raise e => (Raise e, h)
                  | Ok avg_mean =>
                      let (v_copy, h1) := alloc d h in
                      let h2 := setitem v_copy "_distance_m" (JNum dist) h1 in
                      let h3 := setitem v_copy "_avg_day_mean" (JNum avg_mean) h2 in
                      collect_candidates rest target_lat target_lon
                        (candidates ++ [v_copy]) h3
                  end
              end
              end
      end
  end.

(** [x[k]] read as a number. *)
Definition item_number (d : pydict) (k : string) : result R :=
  match dict_get k d with
  | None => Raise (KeyError k)
  | Some v =>
      match as_number v with
      | Some x => Ok x
      | None => Raise TypeError
      end
  end.

(** [lambda x: (x["_distance_m"], -x["_avg_day_mean"])] *)
Definition sort_key (h : heap) (x : loc) : result (R * R) :=
  match h !! x with
  | None => Raise DanglingRef
  | Some d =>
      let! dist := item_number d "_distance_m" in
      let! avg := item_number d "_avg_day_mean" in
      Ok (dist, - avg)
  end.

(** [a < b] on pairs: decided by the first components unless they are
    equal. *)
Definition key_lt (a b : R * R) : bool :=
  if Req_dec_T (fst a) (fst b)
  then (if Rlt_dec (snd a) (snd b) then true else false)
  else (if Rlt_dec (fst a) (fst b) then true else false).

(** [list.sort] is stable and compares keys with [<] only; a stable
    insertion sort returns the same list. *)
Fixpoint insert_by_key (x : (R * R) * loc) (l : list ((R * R) * loc))
    : list ((R * R) * loc) :=
  match l with
  | [] => [x]
  | y :: l' =>
      if key_lt (fst y) (fst x) then y :: insert_by_key x l' else x :: y :: l'
  end.

Fixpoint sort_by_key (l : list ((R * R) * loc)) : list ((R * R) * loc) :=
  match l with
  | [] => []
  | x :: l' => insert_by_key x (sort_by_key l')
  end.

Fixpoint keys_of (h : heap) (candidates : list loc) : result (list ((R * R) * loc)) :=
  match candidates with
  | [] => Ok []
  | x :: rest =>
      let! k := sort_key h x in
      let! ks := keys_of h rest in
      Ok ((k, x) :: ks)
  end.

Definition top_closest_with_foot_traffic (venues : list loc)
    (target_lat target_lon : R) (top_n : Z) (h : heap)
    : result (list loc) * heap :=
  match collect_candidates venues target_lat target_lon [] h with
  | (Raise e, h') => (Raise e, h')
  | (Ok candidates, h') =>
      match keys_of h' candidates with
      | Raise e => (Raise e, h')
      | Ok decorated =>
          let candidates := map snd (sort_by_key decorated) in
          (Ok (slice_to top_n candidates), h')
      end
  end.

End Ranking.

End FootTraffic.

(** ** The provider client, the poll loop and the search handler *)

Module BestTime.
Local Open Scope Q_scope.

(** *** The transport and the clock *)

Inductive http_body : Type :=
| BodyJson (j : json)
| BodyText (t : string).

Record response : Type := {
  status_code : Z;
  reason : string;
  body : http_body
}.

(** [r.ok]: the status is not a 4xx or 5xx. *)
Definition ok (r : response) : bool :=
  negb ((400 <=? status_code r)%Z && (status_code r <? 600)%Z).

(** What [requests.get] / [requests.post] does: answer, or raise. *)
Inductive net_result : Type :=
| NetResponse (r : response)
| NetRaise.

(** One round trip: how long it takes and how it ends. *)
Record exchange : Type := {
  elapsed : Q;
  answer : net_result
}.

Record request : Type := {
  meth : string;
  url : string;
  query : pydict;
  sent_at : Q
}.

(** The wall clock ([time.time()], in seconds) and the requests sent so
    far, oldest first. *)
Record world : Type := {
  now : Q;
  sent : list request
}.

(** [time.sleep(secs)] *)
Definition sleep (secs : Q) (w : world) : result unit * world :=
  if Qlt_le_dec secs 0
  then (Raise (ValueError "sleep length must be non-negative"), w)
  else (Ok tt, {| now := now w + secs; sent := sent w |}).

(** What the two client functions return: the decoded body, or the pair
    [(body, status)] for a response that is not [ok]. *)
Inductive client_ret : Type :=
| GotJson (j : json)
| GotError (body : json) (status : Z).

Section Service.

(** Module-level configuration, read from the environment. *)
Variable BESTTIME_PRIVATE_KEY : option string.
Variable BESTTIME_BASE : string.

(** The provider: the exchange that answers the [n]-th request. *)
Variable provider : nat -> exchange.

(** [parse_qs(urlparse(u).query).get(k, [None])[0]], from the standard
    library: the first value of parameter [k] in the query of [u]. *)
Variable query_param : string -> string -> option string.

Definition endpoint_url (endpoint : string) : string :=
  rstrip_slash BESTTIME_BASE +:+ "/" +:+ lstrip_slash endpoint.

Definition http_send (meth url : string) (params : pydict) (w : world)
    : net_result * world :=
  let x := provider (List.length (sent w)) in
  (answer x,
   {| now := now w + elapsed x;
      sent := sent w ++ [{| meth := meth; url := url; query := params; sent_at := now w |}] |}).

(** The shared tail of both client functions. *)
Definition normalize (a : net_result) : result client_ret :=
  match a with
  | NetRaise => Raise RequestException
  | NetResponse r =>
      if negb (ok r) then
        Ok (GotError
              (JDict [("error", JStr (pretty (status_code r) +:+ " " +:+ reason r));
                      ("details", match body r with
                                  | BodyJson j => j
                                  | BodyText t => JStr t
                                  end)])
              (status_code r))
      else
        match body r with
        | BodyJson j => Ok (GotJson j)
        | BodyText _ => Raise JSONDecodeError
        end
  end.

Definition besttime_post_qs (endpoint : string) (params : pydict) (w : world)
    : result client_ret * world :=
  match BESTTIME_PRIVATE_KEY with
  | Some key =>
      if String.eqb key "" then
        (Raise (ValueError "BestTime private API key not configured in environment"), w)
      else
        let qparams := dict_set "api_key_private" (JStr key) params in
        let (a, w') := http_send "POST" (endpoint_url endpoint) qparams w in
        (normalize a, w')
  | None =>
      (Raise (ValueError "BestTime private API key not configured in environment"), w)
  end.

Definition besttime_get_json (endpoint : string) (params : pydict) (w : world)
    : result client_ret * world :=
  let (a, w') := http_send "GET" (endpoint_url endpoint) params w in
  (normalize a, w').

(** *** [wait_for_progress_and_get_venues] *)

(** [key in d and isinstance(d[key], list) and d[key]] *)
Definition nonempty_list_at (key : string) (d : pydict) : option (list json) :=
  match dict_get key d with
  | Some (JList (v :: l)) => Some (v :: l)
  | _ => None
  end.

(** [for key in keys: if ...: return last_resp[key]] *)
Fixpoint first_list_among (keys : list string) (d : pydict) : option (list json) :=
  match keys with
  | [] => None
  | key :: keys' =>
      match nonempty_list_at key d with
      | Some l => Some l
      | None => first_list_among keys' d
      end
  end.

(** The venue list the loop body finds in [last_resp], if any. *)
Definition venues_in (last_resp : json) : option (list json) :=
  match last_resp with
  | JDict d =>
      match nonempty_list_at "venues" d with
      | Some l => Some l
      | None => first_list_among ["results"; "items"; "found_venues"] d
      end
  | _ => None
  end.

(** The [while] loop. [fuel] bounds the number of rounds; [None] means the
    bound was too small. *)
Fixpoint poll_loop (fuel : nat) (job_id collection_id : json) (deadline : Q)
    (interval_seconds : Q) (last_resp : json) (w : world)
    : option (result (option (list json) * json) * world) :=
  match fuel with
  | O => None
  | S fuel' =>
      if Qlt_le_dec (now w) deadline then
        let params := [("job_id", job_id); ("collection_id", collection_id);
                       ("format", JStr "raw")] in
        match besttime_get_json "venues/progress" params w with
        | (Raise e, w1) => Some (Raise e, w1)
        | (Ok resp, w1) =>
            let last_resp := match resp with
                             | GotError body status => body
                             | GotJson j => j
                             end in
            match venues_in last_resp with
            | Some venues => Some (Ok (Some venues, last_resp), w1)
            | None =>
                let sleep_time := interval_seconds in
                let interval_seconds := Qmin (interval_seconds * 1.5) 8 in
                match sleep sleep_time w1 with
                | (Raise e, w2) => Some (Raise e, w2)
                | (Ok _, w2) =>
                    poll_loop fuel' job_id collection_id deadline
                      interval_seconds last_resp w2
                end
            end
        end
      else Some (Ok (None, last_resp), w)
  end.

Definition from_query (u k : string) : json :=
  match query_param u k with
  | Some v => JStr v
  | None => JNull
  end.

Definition wait_for_progress_and_get_venues (fuel : nat)
    (job_id collection_id progress_url : json)
    (timeout_seconds interval_seconds : Q) (w : world)
    : option (result (option (list json) * json) * world) :=
  let ids :=
    if truthy progress_url then
      match progress_url with
      | JStr u =>
          Ok (py_or job_id (from_query u "job_id"),
              py_or collection_id (from_query u "collection_id"))
      | _ => Raise TypeError
      end
    else Ok (job_id, collection_id) in
  match ids with
  | Raise e => Some (Raise e, w)
  | Ok (job_id, collection_id) =>
      if negb (truthy job_id) || negb (truthy collection_id) then
        Some (Raise (ValueError
                "Either job_id+collection_id or progress_url must be provided"), w)
      else
        let deadline := now w + timeout_seconds in
        poll_loop fuel job_id collection_id deadline interval_seconds JNull w
  end.

(** *** [foot_traffic_closest], from the search call to the venue list *)

(** The fast path: [venues], else [results], whichever is bound to a
    list. *)
Definition immediate_venues (result : json) : list json :=
  match result with
  | JDict d =>
      match dict_get "venues" d with
      | Some (JList l) => l
      | _ =>
          match dict_get "results" d with
          | Some (JList l) => l
          | _ => []
          end
      end
  | _ => []
  end.

(** [for v in result.values(): if isinstance(v, str) and
    "venues/progress" in v: ...; break] *)
Fixpoint first_progress_link (progress_link : json) (vs : list json) : json :=
  match vs with
  | [] => progress_link
  | JStr s :: vs' =>
      if contains "venues/progress" s then JStr s
      else first_progress_link progress_link vs'
  | _ :: vs' => first_progress_link progress_link vs'
  end.

(** The background-job handles found in the search response. *)
Definition job_handles (result : json) : json * json * json :=
  match result with
  | JDict d =>
      let job_id := py_or (get d "job_id") (get d "job") in
      let collection_id := get d "collection_id" in
      let progress_link :=
        match dict_get "_links" d with
        | Some (JDict links) => get links "venue_search_progress"
        | _ => JNull
        end in
      let progress_link :=
        if negb (truthy progress_link)
        then first_progress_link progress_link (values d)
        else progress_link in
      (job_id, collection_id, progress_link)
  | _ => (JNull, JNull, JNull)
  end.

(** How the handler goes on once the venue list is settled: the provider's
    failure passed through, the 202 reply (its [progress_link] field is left
    out), the 404 reply, the 500 reply, or the call of the ranking. *)
Inductive closest_reply : Type :=
| ProviderFailure (body : json) (status : Z)
| StillRunning (search_response progress_response : json)
| NoVenues (search_response : json)
| ServerError (e : exn)
| ToRanking (venues : list json) (search_response : json).

(** The handler from the search call up to the call of the ranking, with
    the request payload already read into its parameters. *)
Definition foot_traffic_closest (fuel : nat) (business_type lat lng radius num : json)
    (timeout_seconds interval_seconds : Q) (w : world)
    : option (closest_reply * world) :=
  let params := [("q", business_type); ("format", JStr "raw"); ("num", num);
                 ("radius", radius); ("lat", lat); ("lng", lng)] in
  match besttime_post_qs "venues/search" params w with
  | (Raise e, w1) => Some (ServerError e, w1)
  | (Ok (GotError body status), w1) => Some (ProviderFailure body status, w1)
  | (Ok (GotJson result), w1) =>
      let venues := immediate_venues result in
      match venues with
      | _ :: _ => Some (ToRanking venues result, w1)
      | [] =>
          let '(job_id, collection_id, progress_link) := job_handles result in
          if truthy job_id || truthy collection_id || truthy progress_link then
            match wait_for_progress_and_get_venues fuel job_id collection_id
                    progress_link timeout_seconds interval_seconds w1 with
            | None => None
            | Some (Raise e, w2) => Some (ServerError e, w2)
            | Some (Ok (Some (v :: vs), _), w2) => Some (ToRanking (v :: vs) result, w2)
            | Some (Ok (_, progress_resp), w2) =>
                Some (StillRunning result progress_resp, w2)
            end
          else Some (NoVenues result, w1)
      end
  end.

End Service.

End BestTime.

(** * The vocabulary of the statements *)

Module RankingVocabulary.
Import GeoMath FootTraffic.
Local Open Scope R_scope.

(** The copy of [d] with the two derived fields attached. *)
Definition enrich (dist avg_mean : R) (d : pydict) : pydict :=
  dict_set "_avg_day_mean" (JNum avg_mean) (dict_set "_distance_m" (JNum dist) d).

(** [d'] is the enriched copy of a venue of [venues] that passes the
    filter of step 1. *)
Definition candidate_copy (float_of_str : string -> option R) (h : heap)
    (target_lat target_lon : R) (venues : list loc) (d' : pydict) : Prop :=
  exists (v : loc) (d : pydict) (flat flon avg_mean : R),
    v ∈ venues /\ h !! v = Some d
    /\ truthy (get d "forecast") = true
    /\ is_none (get d "venue_lat") = false
    /\ is_none (get d "venue_lon") = false
    /\ py_float float_of_str (get d "venue_lat") = Ok flat
    /\ py_float float_of_str (get d "venue_lon") = Ok flon
    /\ average_day_mean d = Ok avg_mean
    /\ d' = enrich (haversine_meters target_lat target_lon flat flon) avg_mean d.

(** [x] is a new object of the store [h'], the enriched copy of a venue of
    [venues] that passes the filter; [dist] is that venue's distance to the
    target and [avg_mean] its [average_day_mean]. *)
Definition ranked_entry (float_of_str : string -> option R) (h : heap)
    (target_lat target_lon : R) (venues : list loc) (h' : heap) (x : loc)
    (dist avg_mean : R) : Prop :=
  (List.length h <= x)%nat
  /\ exists (v : loc) (d : pydict) (flat flon : R),
      v ∈ venues /\ h !! v = Some d
      /\ truthy (get d "forecast") = true
      /\ is_none (get d "venue_lat") = false
      /\ is_none (get d "venue_lon") = false
      /\ py_float float_of_str (get d "venue_lat") = Ok flat
      /\ py_float float_of_str (get d "venue_lon") = Ok flon
      /\ average_day_mean d = Ok avg_mean
      /\ dist = haversine_meters target_lat target_lon flat flon
      /\ h' !! x = Some (enrich dist avg_mean d).

(** The number under key [k] of the object at [x]. *)
Definition field (h : heap) (x : loc) (k : string) : option R :=
  match h !! x with
  | Some d => match dict_get k d with Some v => as_number v | None => None end
  | None => None
  end.

(** The order of the sort keys: [a] may stand before [b]. *)
Definition key_le (a b : R * R) : Prop :=
  fst a < fst b \/ (fst a = fst b /\ snd a <= snd b).

(** The spec's forecast series of a venue is present and not empty. *)
Definition has_forecast_series (d : pydict) : bool :=
  match dict_get "venue_foot_traffic_forecast" d with
  | Some (JList (_ :: _)) => true
  | _ => false
  end.

(** The order in which the decorated candidates may stand. *)
Definition may_precede (x y : (R * R) * nat) : Prop := key_le (fst x) (fst y).

End RankingVocabulary.

Module PollVocabulary.
Import BestTime.
Local Open Scope Q_scope.

(** The body the client builds for a response that is not [ok]. *)
Definition error_body (r : response) : json :=
  JDict [("error", JStr (pretty (status_code r) +:+ " " +:+ reason r));
         ("details", match body r with
                     | BodyJson j => j
                     | BodyText t => JStr t
                     end)].

(** What the loop keeps as [last_resp] of what the client returned. *)
Definition last_of (resp : client_ret) : json :=
  match resp with
  | GotError body _ => body
  | GotJson j => j
  end.

(** The request of one progress poll sent at time [t]. *)
Definition progress_request (BESTTIME_BASE : string) (job_id collection_id : json)
    (t : Q) : request :=
  {| meth := "GET";
     url := endpoint_url BESTTIME_BASE "venues/progress";
     query := [("job_id", job_id); ("collection_id", collection_id);
               ("format", JStr "raw")];
     sent_at := t |}.

(** The spec's rule for finding the venue list: candidate field names
    tried in priority order, the first one bound to a non-empty list wins. *)
Definition extract_by_priority (keys : list string) (d : pydict)
    : option (list json) :=
  head (omap (fun key => nonempty_list_at key d) keys).

(** How a run of the loop may end: venues found in the last response,
    no venues and the deadline reached, or an exception of the HTTP call. *)
Definition loop_outcome (deadline : Q)
    (r : result (option (list json) * json)) (w' : world) : Prop :=
  match r with
  | Ok (Some venues, last_resp) => venues_in last_resp = Some venues
  | Ok (None, _) => deadline <= now w'
  | Raise e => e = RequestException \/ e = JSONDecodeError
  end.

(** The state of the world after one round that found no venues. *)
Definition after_round (provider : nat -> exchange) (BESTTIME_BASE : string)
    (job_id collection_id : json) (interval_seconds : Q) (w : world) : world :=
  {| now := now w + elapsed (provider (List.length (sent w))) + interval_seconds;
     sent := sent w ++ [progress_request BESTTIME_BASE job_id collection_id (now w)] |}.

(** A provider that answers every request and never returns venues. *)
Definition never_returns_venues (provider : nat -> exchange) : Prop :=
  forall n : nat, exists resp : client_ret,
    normalize (answer (provider n)) = Ok resp
    /\ venues_in (last_of resp) = None.

(** A number of rounds that is enough for the loop to end: every round
    takes at least the smallest interval. *)
Definition enough_fuel (timeout_seconds interval_seconds : Q) : nat :=
  S (Z.to_nat (Qceiling (timeout_seconds / Qmin interval_seconds 8))).

End PollVocabulary.

(** ** Concrete venues and providers *)

Module RankingInputs.
Import GeoMath FootTraffic RankingVocabulary.
Local Open Scope R_scope.

(** The spec's example: day means 10, absent, 20 average to 15. *)
Definition venue_10_absent_20 : pydict :=
  [("venue_name", JStr "Cafe");
   ("venue_foot_traffic_forecast",
    JList [JDict [("day_info", JDict [("day_mean", JNum 10)])];
           JDict [("day_info", JDict [("day_mean", JNull)])];
           JDict [("day_info", JDict [("day_mean", JNum 20)])]])].

Definition day (m : R) : json :=
  JDict [("day_info", JDict [("day_mean", JNum m)])].

Definition venue (name : string) (lat lon : R) (days : list json) : pydict :=
  [("venue_name", JStr name); ("forecast", JBool true);
   ("venue_lat", JNum lat); ("venue_lon", JNum lon);
   ("venue_foot_traffic_forecast", JList days)].

(** Two venues at one place, the first quieter than the second. *)
Definition quiet : pydict := venue "Quiet" 1 2 [day 5].
Definition busy : pydict := venue "Busy" 1 2 [day 10].

(** A venue flagged as forecast whose forecast series is empty. *)
Definition kiosk : pydict := venue "Kiosk" 1 2 [].

(** No string reads as a float; the scenarios hold numbers only. *)
Definition no_parse (s : string) : option R := None.

(** The stores after the two runs. *)
Definition tied_store : list pydict :=
  [quiet; busy;
   enrich (haversine_meters 14 120 1 2) 5 quiet;
   enrich (haversine_meters 14 120 1 2) 10 busy].

Definition kiosk_store : list pydict :=
  [kiosk; enrich (haversine_meters 14 120 1 2) 0 kiosk].

End RankingInputs.

Module PollInputs.
Import BestTime PollVocabulary.
Local Open Scope Q_scope.

Definition base : string := "https://besttime.app/api/v1".
Definition secret : option string := Some "pri_0123".
Definition no_query (u k : string) : option string := None.

(** The start: time 0, nothing sent. *)
Definition w0 : world := {| now := 0; sent := [] |}.

Definition cafe : json := JDict [("venue_name", JStr "Cafe")].

Definition answers (j : json) : exchange :=
  {| elapsed := 0;
     answer := NetResponse {| status_code := 200; reason := "OK"; body := BodyJson j |} |}.

Definition failure : response :=
  {| status_code := 500; reason := "Internal Server Error";
     body := BodyText "upstream down" |}.

(** A job that never finishes; answers take no time. *)
Definition always_pending (n : nat) : exchange :=
  answers (JDict [("job_finished", JBool false)]).

(** A provider that fails every call. *)
Definition always_failing (n : nat) : exchange :=
  {| elapsed := 0; answer := NetResponse failure |}.

(** A provider that fails the first call and has the venues at the second. *)
Definition fails_then_venues (n : nat) : exchange :=
  match n with
  | O => {| elapsed := 0; answer := NetResponse failure |}
  | S _ => answers (JDict [("venues", JList [cafe])])
  end.

(** Search responses whose only venue list is under an alias. *)
Definition search_has_items (n : nat) : exchange :=
  answers (JDict [("status", JStr "OK"); ("items", JList [cafe])]).
Definition search_has_found_venues (n : nat) : exchange :=
  answers (JDict [("status", JStr "OK"); ("found_venues", JList [cafe])]).

(** The world at the end of the run with timeout 5 and interval 2 on the
    job that never finishes. *)
Definition pending_end : world :=
  Eval vm_compute in
    match wait_for_progress_and_get_venues base always_pending no_query 10
            (JStr "job") (JStr "col") JNull 5 2 w0 with
    | Some (_, w') => w'
    | None => w0
    end.

End PollInputs.

(** ** More vocabulary for the ranking *)

Module RankingMoreVocabulary.
Import GeoMath FootTraffic RankingVocabulary.
Local Open Scope R_scope.

(** The test of step 1: the [forecast] flag is true and both coordinates
    are present. *)
Definition passes_filter (d : pydict) : bool :=
  truthy (get d "forecast")
  && negb (is_none (get d "venue_lat") || is_none (get d "venue_lon")).

(** The venue at [v] passes the filter. *)
Definition eligible (h : heap) (v : loc) : bool :=
  match h !! v with
  | Some d => passes_filter d
  | None => false
  end.

(** What step 1 computes of a venue that passes the filter, in the order
    of the source: both coordinates as floats, then the mean. *)
Definition conversions (float_of_str : string -> option R) (d : pydict)
    : result (R * R * R) :=
  let! flat := py_float float_of_str (get d "venue_lat") in
  let! flon := py_float float_of_str (get d "venue_lon") in
  let! avg_mean := average_day_mean d in
  Ok (flat, flon, avg_mean).

(** A venue whose [forecast] flag is false. *)
Definition closed : pydict :=
  [("venue_name", JStr "Closed"); ("forecast", JBool false);
   ("venue_lat", JNum 1); ("venue_lon", JNum 2)].

End RankingMoreVocabulary.

(** ** More vocabulary for the service *)

Module PollMoreVocabulary.
Import BestTime PollVocabulary PollInputs.
Local Open Scope Q_scope.

(** [n] slashes. *)
Fixpoint slashes (n : nat) : string :=
  match n with
  | O => EmptyString
  | S n' => String "/"%char (slashes n')
  end.

(** The interval and the world after [n] rounds that found no venues. *)
Fixpoint after_rounds (provider : nat -> exchange) (BESTTIME_BASE : string)
    (job_id collection_id : json) (n : nat) (interval_seconds : Q) (w : world)
    : Q * world :=
  match n with
  | O => (interval_seconds, w)
  | S n' =>
      after_rounds provider BESTTIME_BASE job_id collection_id n'
        (Qmin (interval_seconds * 1.5) 8)
        (after_round provider BESTTIME_BASE job_id collection_id interval_seconds w)
  end.

(** Two answers without venues, then the venues under [results]. *)
Definition ready_at_third (n : nat) : exchange :=
  if (n <? 2)%nat then answers (JDict [("job_finished", JBool false)])
  else answers (JDict [("job_finished", JBool true); ("results", JList [cafe])]).

(** The world at the end of the run on that provider. *)
Definition ready_end : world :=
  Eval vm_compute in
    match wait_for_progress_and_get_venues base ready_at_third no_query 10
            (JStr "job") (JStr "col") JNull 30 2 w0 with
    | Some (_, w') => w'
    | None => w0
    end.

End PollMoreVocabulary.

(** ** The route handlers *)

Module Handlers.
Import BestTime PollVocabulary.
Local Open Scope Q_scope.

(** What a route handler returns: the reply to a preflight request, a JSON
    body with a status, or the reply of an [except] branch (status 500, the
    text of the exception as [error]). *)
Inductive reply : Type :=
| Preflight
| Json (body : json) (status : Z)
| Failed (e : exn).

(** [request.args.get(k)] *)
Fixpoint arg (args : list (string * string)) (k : string) : json :=
  match args with
  | [] => JNull
  | (k', v) :: args' => if String.eqb k k' then JStr v else arg args' k
  end.

(** [d.get(k, default)] *)
Definition get_default (d : pydict) (k : string) (default : json) : json :=
  match dict_get k d with
  | Some v => v
  | None => default
  end.

Section Routes.

Variable BESTTIME_PRIVATE_KEY : option string.
Variable BESTTIME_BASE : string.
Variable provider : nat -> exchange.

(** [int(x)] and [str(x)], Python's conversions, kept abstract. *)
Variable py_int : json -> result json.
Variable py_str : json -> string.

(** [GET /foot_traffic/progress] *)
Definition foot_traffic_progress (method : string) (args : list (string * string))
    (w : world) : reply * world :=
  if String.eqb method "OPTIONS" then (Preflight, w)
  else
    let job_id := arg args "job_id" in
    let collection_id := arg args "collection_id" in
    if negb (truthy job_id) || negb (truthy collection_id) then
      (Json (JDict [("error", JStr "Missing job_id or collection_id")]) 400, w)
    else
      let params := [("job_id", job_id); ("collection_id", collection_id);
                     ("format", JStr "raw")] in
      match besttime_get_json BESTTIME_BASE provider "venues/progress" params w with
      | (Raise e, w1) => (Failed e, w1)
      | (Ok (GotError body status), w1) => (Json body status, w1)
      | (Ok (GotJson data), w1) => (Json data 200, w1)
      end.

(** [POST /foot_traffic/search], for a request body that decodes to
    [body]. *)
Definition foot_traffic_search (method : string) (body : json) (w : world)
    : reply * world :=
  if String.eqb method "OPTIONS" then (Preflight, w)
  else
    match py_or body (JDict []) with
    | JDict payload =>
        let q := get payload "q" in
        let lat := get payload "lat" in
        let lng := get payload "lng" in
        match py_int (get_default payload "radius" (JNum 5000)) with
        | Raise e => (Failed e, w)
        | Ok radius =>
            let num := JStr (py_str (get_default payload "num" (JStr "100"))) in
            let fmt := get_default payload "format" (JStr "raw") in
            if negb (truthy q) then (Json (JDict [("error", JStr "Missing q")]) 400, w)
            else
              let params := [("q", q); ("format", fmt); ("num", num);
                             ("radius", radius)] in
              let params := if negb (is_none lat) then dict_set "lat" lat params
                            else params in
              let params := if negb (is_none lng) then dict_set "lng" lng params
                            else params in
              match besttime_post_qs BESTTIME_PRIVATE_KEY BESTTIME_BASE provider
                      "venues/search" params w with
              | (Raise e, w1) => (Failed e, w1)
              | (Ok (GotError body status), w1) => (Json body status, w1)
              | (Ok (GotJson result), w1) => (Json result 200, w1)
              end
        end
    | _ => (Failed AttributeError, w)
    end.

End Routes.


(** What a handler replies to the answer of the provider. *)
Definition reply_to (a : net_result) : reply :=
  match a with
  | NetRaise => Failed RequestException
  | NetResponse resp =>
      if ok resp then
        match body resp with
        | BodyJson data => Json data 200
        | BodyText _ => Failed JSONDecodeError
        end
      else Json (error_body resp) (status_code resp)
  end.

End Handlers.

Module HandlerInputs.
Import BestTime PollVocabulary PollInputs Handlers.
Local Open Scope Q_scope.

(** [int] and [str] on values that need no conversion. *)
Definition int_as_is (v : json) : result json := Ok v.
Definition str_of_text (v : json) : string :=
  match v with JStr s => s | _ => "" end.

(** A search that is answered with venues at once. *)
Definition search_has_venues (n : nat) : exchange :=
  answers (JDict [("status", JStr "OK"); ("venues", JList [cafe])]).

(** A search that starts a job which never finishes. *)
Definition deferred (n : nat) : exchange :=
  match n with
  | O => answers (JDict [("job_id", JStr "job"); ("collection_id", JStr "col")])
  | S _ => answers (JDict [("job_finished", JBool false)])
  end.

(** The runs of the handlers used below. *)
Definition progress_run : reply * world :=
  foot_traffic_progress base always_pending "GET"
    [("job_id", "job"); ("collection_id", "col")] w0.

Definition search_run : reply * world :=
  foot_traffic_search secret base search_has_venues int_as_is str_of_text "POST"
    (JDict [("q", JStr "cafe"); ("lat", JStr "14.4516")]) w0.

Definition closest_on (provider : nat -> exchange) (timeout : Q)
    : option (closest_reply * world) :=
  foot_traffic_closest secret base provider no_query 10
    (JStr "cafe") (JStr "14.4516") (JStr "120.9773") (JStr "1500") (JStr "100")
    timeout 2 w0.

Definition items_end : world :=
  Eval vm_compute in
    match closest_on search_has_items 30 with
    | Some (_, w') => w'
    | None => w0
    end.

Definition deferred_end : world :=
  Eval vm_compute in
    match closest_on deferred 5 with
    | Some (_, w') => w'
    | None => w0
    end.

End HandlerInputs.

(** * One-time codes: [store_otp] and [verify_otp] over the table
      [otp_verifications]

    The connection is in autocommit mode ([connect_with_retries]), so each
    statement is a transaction of its own. Times are numbers of
    microseconds. *)

Module Otp.
Local Open Scope Z_scope.

(** A row of the table [otp_verifications]. *)
Record otp_row : Type := {
  id : Z;
  email : string;
  otp_code : string;
  created_at : Z;
  expires_at : Z;
  is_verified : bool;
  attempts : Z
}.

(** The table, with the counter of its [SERIAL] column. *)
Record otp_table : Type := {
  rows : list otp_row;
  next_id : Z
}.

(** A statement ends, or raises the violation of the constraint. *)
Inductive db (A : Type) : Type :=
| Done (a : A)
| UniqueViolation.
Arguments Done {A} a.
Arguments UniqueViolation {A}.

Definition same_key (r s : otp_row) : bool :=
  String.eqb (email r) (email s) && Bool.eqb (is_verified r) (is_verified s).

(** [CONSTRAINT unique_active_otp UNIQUE (email, is_verified)] *)
Fixpoint unique_active_otp (rs : list otp_row) : bool :=
  match rs with
  | [] => true
  | r :: rs' => negb (existsb (same_key r) rs') && unique_active_otp rs'
  end.

(** [UPDATE otp_verifications SET ... WHERE ...]: a statement that breaks
    the constraint raises and changes nothing. *)
Definition update_where (p : otp_row -> bool) (f : otp_row -> otp_row)
    (t : otp_table) : db unit * otp_table :=
  let rows' := map (fun r => if p r then f r else r) (rows t) in
  if unique_active_otp rows'
  then (Done tt, {| rows := rows'; next_id := next_id t |})
  else (UniqueViolation, t).

(** The row of an [INSERT] that names [email], [otp_code] and
    [expires_at]: the other columns take their defaults. *)
Definition new_row (i : Z) (e otp : string) (expires current_timestamp : Z)
    : otp_row :=
  {| id := i; email := e; otp_code := otp; created_at := current_timestamp;
     expires_at := expires; is_verified := false; attempts := 0 |}.

(** [INSERT INTO otp_verifications (email, otp_code, expires_at) VALUES
    (...) RETURNING id], for values that fit their columns
    ([VARCHAR(255)] and [VARCHAR(6)]). A refused row has used its id. *)
Definition insert_otp (e otp : string) (expires current_timestamp : Z)
    (t : otp_table) : db Z * otp_table :=
  let r := new_row (next_id t) e otp expires current_timestamp in
  if unique_active_otp (rows t ++ [r])
  then (Done (next_id t), {| rows := rows t ++ [r]; next_id := next_id t + 1 |})
  else (UniqueViolation, {| rows := rows t; next_id := next_id t + 1 |}).

(** [SET is_verified = TRUE] *)
Definition set_verified (r : otp_row) : otp_row :=
  {| id := id r; email := email r; otp_code := otp_code r;
     created_at := created_at r; expires_at := expires_at r;
     is_verified := true; attempts := attempts r |}.

(** [SET attempts = attempts + 1] *)
Definition add_attempt (r : otp_row) : otp_row :=
  {| id := id r; email := email r; otp_code := otp_code r;
     created_at := created_at r; expires_at := expires_at r;
     is_verified := is_verified r; attempts := attempts r + 1 |}.

(** [WHERE email = %s AND is_verified = FALSE] *)
Definition unverified_of (e : string) (r : otp_row) : bool :=
  String.eqb (email r) e && negb (is_verified r).

(** [SELECT ... WHERE email = %s AND is_verified = FALSE ORDER BY
    created_at DESC LIMIT 1]; of rows created at the same time the first
    is taken. *)
Definition select_latest (e : string) (t : otp_table) : option otp_row :=
  fold_left (fun best r =>
               if unverified_of e r then
                 match best with
                 | None => Some r
                 | Some b => if created_at b <? created_at r then Some r else Some b
                 end
               else best)
            (rows t) None.

Definition MAX_OTP_ATTEMPTS : Z := 3.

Section Otp.

Variable OTP_TTL_SECONDS : Z.

(** [store_otp], [utcnow] being the clock of the service and
    [current_timestamp] the clock of the database. *)
Definition store_otp (utcnow current_timestamp : Z) (e otp : string)
    (t : otp_table) : db Z * otp_table :=
  let expires_at := utcnow + OTP_TTL_SECONDS * 1000000 in
  match update_where (unverified_of e) set_verified t with
  | (UniqueViolation, t1) => (UniqueViolation, t1)
  | (Done _, t1) => insert_otp e otp expires_at current_timestamp t1
  end.

(** [verify_otp] at the time [utcnow] of the service. *)
Definition verify_otp (utcnow : Z) (e otp : string) (t : otp_table)
    : db (bool * string) * otp_table :=
  match select_latest e t with
  | None =>
      (Done (false, "No verification code found. Please request a new one."), t)
  | Some row =>
      if expires_at row <? utcnow then
        (Done (false, "Verification code has expired. Please request a new one."), t)
      else if MAX_OTP_ATTEMPTS <=? attempts row then
        (Done (false, "Too many failed attempts. Please request a new code."), t)
      else if String.eqb (otp_code row) otp then
        match update_where (fun r => id r =? id row) set_verified t with
        | (UniqueViolation, t1) => (UniqueViolation, t1)
        | (Done _, t1) => (Done (true, "Email verified successfully!"), t1)
        end
      else
        match update_where (fun r => id r =? id row) add_attempt t with
        | (UniqueViolation, t1) => (UniqueViolation, t1)
        | (Done _, t1) =>
            let remaining := MAX_OTP_ATTEMPTS - (attempts row + 1) in
            if 0 <? remaining then
              (Done (false, "Invalid code. " +:+ pretty remaining
                            +:+ " attempt(s) remaining."), t1)
            else
              (Done (false, "Invalid code. Maximum attempts reached. Please request a new code."),
               t1)
        end
  end.

End Otp.

End Otp.

Module OtpVocabulary.
Import Otp.
Local Open Scope Z_scope.

(** The table has a row of [e] whose [is_verified] is [v]. *)
Definition has_row (e : string) (v : bool) (t : otp_table) : bool :=
  existsb (fun r => String.eqb (email r) e && Bool.eqb (is_verified r) v) (rows t).

(** The table has a row of [e]. *)
Definition known (e : string) (t : otp_table) : bool :=
  has_row e false t || has_row e true t.

(** [e] has a row that is verified and one that is not. *)
Definition in_both_states (e : string) (t : otp_table) : bool :=
  has_row e false t && has_row e true t.

(** A table as the database keeps it: the constraint holds, the ids are
    distinct (the primary key) and below the counter. *)
Definition well_formed (t : otp_table) : Prop :=
  unique_active_otp (rows t) = true
  /\ NoDup (map id (rows t))
  /\ Forall (fun r => id r < next_id t) (rows t).

(** The values fit the columns [email] and [otp_code]. *)
Definition fits_columns (e otp : string) : Prop :=
  (String.length e <= 255)%nat /\ (String.length otp <= 6)%nat.

(** The rows of the other addresses, in the order of the table. *)
Definition rows_of_others (e : string) (t : otp_table) : list otp_row :=
  List.filter (fun r => negb (String.eqb (email r) e)) (rows t).

(** The replies of [verify_otp]. *)
Definition verified : bool * string := (true, "Email verified successfully!").
Definition no_code : bool * string :=
  (false, "No verification code found. Please request a new one.").
Definition expired : bool * string :=
  (false, "Verification code has expired. Please request a new one.").
Definition locked : bool * string :=
  (false, "Too many failed attempts. Please request a new code.").

End OtpVocabulary.

Module OtpInputs.
Import Otp OtpVocabulary.
Local Open Scope Z_scope.

Definition nobody : otp_table := {| rows := []; next_id := 1 |}.

(** Five minutes. *)
Definition ttl : Z := 300.

Definition ana : string := "ana@example.org".
Definition ben : string := "ben@example.org".

(** [ben] has asked for a code at time 0. *)
Definition ben_waits : otp_table :=
  Eval vm_compute in snd (store_otp ttl 0 0 ben "111111" nobody).

(** Then [ana] has asked for a code at time [1 s]. *)
Definition ana_waits : otp_table :=
  Eval vm_compute in snd (store_otp ttl 1000000 1000000 ana "123456" ben_waits).

(** Then [ana] has asked again at time [2 s]. *)
Definition ana_asked_twice : otp_table :=
  Eval vm_compute in snd (store_otp ttl 2000000 2000000 ana "654321" ana_waits).

(** [ana] presents her first code after a minute. *)
Definition ana_verified : otp_table :=
  Eval vm_compute in snd (verify_otp 60000000 ana "123456" ana_waits).

End OtpInputs.

(** * The other distance of the repository: [BusinessAI._calculate_distance] *)

Module BusinessAI.
Import GeoMath.
Local Open Scope R_scope.



End BusinessAI.

(** * The type of an establishment: [Establishments._get_best_type] *)

Module Establishments.

Definition TYPE_PRIORITY : list string :=
  ["restaurant"; "cafe"; "bar";
   "supermarket"; "convenience_store"; "bakery";
   "pharmacy"; "hospital"; "doctor";
   "bank"; "atm"; "finance";
   "school"; "university";
   "store"; "point_of_interest"; "establishment"].

(** [t in types] *)
Definition is_in (t : string) (types : list string) : bool :=
  existsb (String.eqb t) types.

(** The loop over [priority_list], then the line after it. *)
Fixpoint _get_best_type (types priority_list : list string) : string :=
  match priority_list with
  | t :: rest => if is_in t types then t else _get_best_type types rest
  | [] => match types with
          | first :: _ => first
          | [] => "unknown"
          end
  end.

End Establishments.

(** * The connection to the database: [get_conn_params] and
      [connect_with_retries] *)

Module Database.
Import Py.

Inductive error : Type :=
| ValueError
| RuntimeError (msg : string)
| TypeError
| ConnectError (e : string).

Inductive outcome (A : Type) : Type :=
| Return (a : A)
| Raises (e : error).
Arguments Return {A} a.
Arguments Raises {A} e.

(** The dictionary that [get_conn_params] returns. *)
Inductive conn_params : Type :=
| Dsn (dsn : string)
| Keywords (host : string) (port : Z) (dbname user password sslmode : string).

(** What the service does to the outside, in order. *)
Inductive event : Type :=
| Connect (i : nat) (params : conn_params)
| Sleep (seconds : Q).

Section Env.

(** [os.getenv] and [int] on a string, [None] being its [ValueError]. *)
Variable getenv : string -> option string.
Variable py_int : string -> option Z.

(** [not v] *)
Definition unset (v : option string) : bool :=
  match v with
  | None => true
  | Some s => String.eqb s ""
  end.

(** [os.getenv(k, d)] *)
Definition getenv_default (k d : string) : string :=
  match getenv k with
  | Some v => v
  | None => d
  end.

(** [v], known to be set. *)
Definition value (v : option string) : string :=
  match v with
  | Some s => s
  | None => ""
  end.

Definition get_conn_params : outcome conn_params :=
  let url := getenv "DATABASE_URL" in
  if negb (unset url) then
    if contains "sslmode=" (value url) then Return (Dsn (value url))
    else Return (Dsn (value url +:+ "?sslmode=require"))
  else
    let host := getenv "PGHOST" in
    match py_int (getenv_default "PGPORT" "5432") with
    | None => Raises ValueError
    | Some port =>
        let db := getenv "PGDATABASE" in
        let user := getenv "PGUSER" in
        let pwd := getenv "PGPASSWORD" in
        let missing :=
          map fst (List.filter (fun kv => unset (snd kv))
                     [("PGHOST", host); ("PGDATABASE", db); ("PGUSER", user);
                      ("PGPASSWORD", pwd)]) in
        match missing with
        | _ :: _ =>
            Raises (RuntimeError ("Missing env vars: " +:+ String.concat ", " missing
                                  +:+ " (or set DATABASE_URL)."))
        | [] => Return (Keywords (value host) port (value db) (value user) (value pwd)
                          "require")
        end
    end.

(** The [i]-th call of [psycopg2.connect] (and the setting of
    [autocommit]): [None] when it returns, or what it raises. *)
Variable connect : nat -> option string.

(** The loop [for i in range(1, retries + 1)], [n] rounds being left, and
    the [raise last_err] after it. The value returned stands for the
    connection of attempt [i]. *)
Fixpoint attempts (n : nat) (i : nat) (params : conn_params) (delay : Q)
    (last_err : option string) (log : list event)
    : outcome nat * list event :=
  match n with
  | O =>
      (match last_err with
       | Some e => Raises (ConnectError e)
       | None => Raises TypeError
       end, log)
  | S n' =>
      match connect i with
      | None => (Return i, log ++ [Connect i params])
      | Some e =>
          if Qlt_le_dec delay 0
          then (Raises ValueError, log ++ [Connect i params])
          else attempts n' (S i) params delay (Some e)
                 (log ++ [Connect i params; Sleep delay])
      end
  end.

Definition connect_with_retries (retries : Z) (delay : Q) (log : list event)
    : outcome nat * list event :=
  match get_conn_params with
  | Raises e => (Raises e, log)
  | Return params => attempts (Z.to_nat retries) 1 params delay None log
  end.

End Env.

(** [n] failed attempts from attempt [i] on, each followed by its
    sleep. *)
Fixpoint failed_rounds (n i : nat) (params : conn_params) (delay : Q) : list event :=
  match n with
  | O => []
  | S n' => Connect i params :: Sleep delay :: failed_rounds n' (S i) params delay
  end.

End Database.

Module DatabaseInputs.
Import Database.

(** Only [DATABASE_URL] is set. *)
Definition url_only (k : string) : option string :=
  if String.eqb k "DATABASE_URL" then Some "postgres://db.example.org/app" else None.

Definition no_int (s : string) : option Z := None.

(** The database answers at the third attempt. *)
Definition third_time (i : nat) : option string :=
  if (i <? 3)%nat then Some "connection refused" else None.

(** The database never answers. *)
Definition never (i : nat) : option string := Some "connection refused".

End DatabaseInputs.

(** * Properties *)

(** ** GeoMath *)

Module GeoMathFacts.
Import GeoMath.
Local Open Scope R_scope.

Lemma atan2_0_1 : atan2 0 1 = 0.
Proof.
  unfold atan2.
  destruct (Rlt_dec 0 1) as [_ | H]; [| exfalso; apply H; lra].
  replace (0 / 1) with 0 by field.
  apply atan_0.
Qed.

Lemma radians_0 : radians 0 = 0.
Proof. unfold radians. ring. Qed.

Lemma radians_opp x : radians (- x) = - radians x.
Proof. unfold radians. ring. Qed.

(** The squared half-angle sine does not see the sign of the angle. *)
Lemma sin_half_sq_opp x : sin (- x / 2) ^ 2 = sin (x / 2) ^ 2.
Proof.
  replace (- x / 2) with (- (x / 2)) by field.
  rewrite sin_neg. ring.
Qed.

Lemma haversine_meters_same lat lon : haversine_meters lat lon lat lon = 0.
Proof.
  unfold haversine_meters.
  replace (lat - lat) with 0 by ring.
  replace (lon - lon) with 0 by ring.
  rewrite radians_0.
  replace (0 / 2) with 0 by field.
  rewrite sin_0.
  replace (0 ^ 2 + cos (radians lat) * cos (radians lat) * 0 ^ 2) with 0 by ring.
  rewrite sqrt_0, Rminus_0_r, sqrt_1, atan2_0_1.
  ring.
Qed.

Lemma haversine_meters_sym lat1 lon1 lat2 lon2 :
  haversine_meters lat1 lon1 lat2 lon2 = haversine_meters lat2 lon2 lat1 lon1.
Proof.
  unfold haversine_meters.
  replace (lat1 - lat2) with (- (lat2 - lat1)) by ring.
  replace (lon1 - lon2) with (- (lon2 - lon1)) by ring.
  rewrite !radians_opp, !sin_half_sq_opp.
  rewrite (Rmult_comm (cos (radians lat2)) (cos (radians lat1))).
  reflexivity.
Qed.

Lemma radians_minus x y : radians (x - y) = radians x - radians y.
Proof. unfold radians. ring. Qed.

Lemma sin_half_sq (x : R) : sin (x / 2) ^ 2 = (1 - cos x) / 2.
Proof.
  replace x with (2 * (x / 2)) at 2 by field.
  rewrite cos_2a_sin. field.
Qed.

(** Over the reals both square roots of the formula are taken of numbers
    between 0 and 1, where [math.sqrt] is defined: the function is total. *)
Lemma haversine_sqrt_arguments (lat1 lon1 lat2 lon2 : R) :
  let a := sin (radians (lat2 - lat1) / 2) ^ 2
           + cos (radians lat1) * cos (radians lat2)
             * sin (radians (lon2 - lon1) / 2) ^ 2 in
  0 <= a <= 1 /\ 0 <= 1 - a <= 1.
Proof.
  intros a. unfold a. clear a.
  rewrite radians_minus.
  set (p1 := radians lat1). set (p2 := radians lat2).
  set (s := sin (radians (lon2 - lon1) / 2) ^ 2).
  assert (Hs : 0 <= s <= 1).
  { unfold s. pose proof (SIN_bound (radians (lon2 - lon1) / 2)) as [Hl Hu].
    split; nra. }
  rewrite sin_half_sq.
  pose proof (COS_bound (p2 - p1)) as [Hm1 Hm2].
  pose proof (COS_bound (p2 + p1)) as [Hp1 Hp2].
  assert (Hprod : cos p1 * cos p2 = (cos (p2 - p1) + cos (p2 + p1)) / 2).
  { rewrite cos_minus, cos_plus. field. }
  rewrite Hprod.
  repeat split; nra.
Qed.

(** C8. The great-circle distance of a coordinate to itself is [0], and the
    distance is symmetric in its two coordinates. *)
Theorem haversine_meters_zero_and_symmetric :
  (forall lat lon : R, haversine_meters lat lon lat lon = 0) /\
  (forall lat1 lon1 lat2 lon2 : R,
      haversine_meters lat1 lon1 lat2 lon2 = haversine_meters lat2 lon2 lat1 lon1).
Proof.
  split.
  - exact haversine_meters_same.
  - exact haversine_meters_sym.
Qed.

End GeoMathFacts.

(** ** [average_day_mean] *)

Module AverageFacts.
Import FootTraffic RankingInputs.
Local Open Scope R_scope.

Lemma fold_left_Rplus (l : list R) (a : R) :
  fold_left Rplus l a = a + fold_right Rplus 0 l.
Proof.
  revert a. induction l as [| x l IH]; intros a; simpl.
  - ring.
  - rewrite IH. ring.
Qed.

Lemma sum_fold_right (l : list R) : sum l = fold_right Rplus 0 l.
Proof. unfold sum. rewrite fold_left_Rplus. ring. Qed.

(** A day in the spec's shape is read by the loop body without an error. *)
Lemma day_mean_of_day (d : json) (day : DayForecast) :
  day_forecast_of d = Some day -> day_mean_of d = Ok day.
Proof.
  destruct d as [| | | | | dd]; simpl; try discriminate.
  unfold get.
  destruct (dict_get "day_info" dd) as [[| | | | | info] |]; simpl;
    try discriminate; try (intros [= <-]; reflexivity).
  destruct info; simpl; intros [= <-]; reflexivity.
Qed.

Lemma collect_means_series (l : list json) :
  forall (series : list DayForecast) (acc : list R),
    mapM day_forecast_of l = Some series ->
    collect_means l acc
    = Ok (acc ++ omap (fun day : DayForecast => (day : option R)) series).
Proof.
  induction l as [| d l IH]; intros series acc Hs; simpl in *.
  - injection Hs as <-. simpl. rewrite app_nil_r. reflexivity.
  - destruct (day_forecast_of d) as [day |] eqn:Hd; simpl in Hs; [| discriminate].
    destruct (mapM day_forecast_of l) as [rest |] eqn:Hl; simpl in Hs; [| discriminate].
    injection Hs as <-.
    rewrite (day_mean_of_day _ _ Hd). simpl.
    rewrite (IH rest _ eq_refl).
    destruct day as [x |]; simpl.
    + rewrite <- app_assoc. reflexivity.
    + reflexivity.
Qed.

(** The series the loop iterates over is the one the spec reads. *)
Lemma iterate_series (venue : pydict) (series : list DayForecast) :
  forecast_series_of venue = Some series ->
  exists l, iterate (py_or (get venue "venue_foot_traffic_forecast") (JList [])) = Ok l
            /\ mapM day_forecast_of l = Some series.
Proof.
  unfold forecast_series_of, get.
  destruct (dict_get "venue_foot_traffic_forecast" venue) as [[| | | | l |] |];
    try discriminate.
  - intros [= <-]. exists []. split; reflexivity.
  - intros Hs. exists l. split; [| exact Hs].
    destruct l; reflexivity.
  - intros [= <-]. exists []. split; reflexivity.
Qed.

(** C7. On every venue whose forecast data has the spec's shape,
    [average_day_mean] returns, without an error, the arithmetic mean of
    exactly the numeric [day_mean] values present, and [0.0] when there is
    none (an empty series included): absent values enter neither the sum
    nor the divisor. *)
Theorem average_day_mean_is_mean_of_present
    (venue : pydict) (series : list DayForecast) :
  forecast_series_of venue = Some series ->
  average_day_mean venue = Ok (meanForecastIntensity series)
  /\ (omap (fun day : DayForecast => (day : option R)) series = [] ->
      average_day_mean venue = Ok 0).
Proof.
  intros Hs.
  assert (Hmean : average_day_mean venue = Ok (meanForecastIntensity series)).
  { destruct (iterate_series _ _ Hs) as (l & Hl & Hm).
    unfold average_day_mean. rewrite Hl. simpl.
    rewrite (collect_means_series _ _ [] Hm). simpl.
    unfold meanForecastIntensity.
    destruct (omap _ series) as [| x present] eqn:Hp; [reflexivity |].
    rewrite sum_fold_right. reflexivity. }
  split; [exact Hmean |].
  intros Hnone. rewrite Hmean. unfold meanForecastIntensity. rewrite Hnone.
  reflexivity.
Qed.

(** Outside the spec's shape the function can raise: a day that is not an
    object has no [get]. *)
Remark average_day_mean_of_a_day_that_is_no_object :
  average_day_mean [("venue_foot_traffic_forecast", JList [JStr "closed"])]
  = Raise AttributeError.
Proof. reflexivity. Qed.

Lemma average_day_mean_10_absent_20 :
  forecast_series_of venue_10_absent_20 = Some [Some 10; None; Some 20]
  /\ average_day_mean venue_10_absent_20 = Ok 15.
Proof.
  assert (Hs : forecast_series_of venue_10_absent_20 = Some [Some 10; None; Some 20])
    by reflexivity.
  split; [exact Hs |].
  destruct (average_day_mean_is_mean_of_present _ _ Hs) as [-> _].
  unfold meanForecastIntensity. simpl. f_equal. lra.
Defined.

End AverageFacts.

(** ** The ranking *)


Module RankingFacts.
Import GeoMath FootTraffic RankingVocabulary.
Local Open Scope R_scope.

(** *** Dictionaries *)

Lemma dict_get_set_eq (k : string) (v : json) (d : pydict) :
  dict_get k (dict_set k v d) = Some v.
Proof.
  induction d as [| [k' v'] d IH]; simpl.
  - rewrite String.eqb_refl. reflexivity.
  - destruct (String.eqb k k') eqn:E; simpl; rewrite ?String.eqb_refl, ?E; auto.
Qed.

Lemma dict_get_set_ne (k k0 : string) (v : json) (d : pydict) :
  k <> k0 -> dict_get k (dict_set k0 v d) = dict_get k d.
Proof.
  intros Hne.
  assert (Hk : String.eqb k k0 = false) by (apply String.eqb_neq; exact Hne).
  induction d as [| [k' v'] d IH]; simpl.
  - rewrite Hk. reflexivity.
  - destruct (String.eqb k0 k') eqn:E; simpl.
    + apply String.eqb_eq in E. subst k'. rewrite Hk. reflexivity.
    + destruct (String.eqb k k'); auto.
Qed.

Lemma enrich_distance dist avg d :
  dict_get "_distance_m" (enrich dist avg d) = Some (JNum dist).
Proof.
  unfold enrich. rewrite dict_get_set_ne by discriminate.
  apply dict_get_set_eq.
Qed.

Lemma enrich_avg dist avg d :
  dict_get "_avg_day_mean" (enrich dist avg d) = Some (JNum avg).
Proof. unfold enrich. apply dict_get_set_eq. Qed.

Lemma enrich_other dist avg d k :
  k <> "_distance_m" -> k <> "_avg_day_mean" ->
  dict_get k (enrich dist avg d) = dict_get k d.
Proof.
  intros H1 H2. unfold enrich.
  rewrite !dict_get_set_ne by assumption. reflexivity.
Qed.

(** *** The store *)

Lemma setitem_fresh (h : heap) (d : pydict) (k : string) (v : json) :
  setitem (List.length h) k v (h ++ [d]) = h ++ [dict_set k v d].
Proof.
  unfold setitem.
  rewrite lookup_app_r by lia.
  replace (List.length h - List.length h)%nat with 0%nat by lia. simpl.
  rewrite insert_app_r_alt by lia.
  replace (List.length h - List.length h)%nat with 0%nat by lia.
  reflexivity.
Qed.

Lemma candidate_copy_cons fos h tlat tlon v venues d' :
  candidate_copy fos h tlat tlon venues d' ->
  candidate_copy fos h tlat tlon (v :: venues) d'.
Proof.
  intros (v0 & d & flat & flon & avg & Hin & H).
  exists v0, d, flat, flon, avg. split; [right; exact Hin | exact H].
Qed.

(** *** The sort *)

Lemma key_lt_false (a b : R * R) : key_lt b a = false -> key_le a b.
Proof.
  unfold key_lt, key_le.
  destruct (Req_dec_T (fst b) (fst a)) as [E | N].
  - destruct (Rlt_dec (snd b) (snd a)); [discriminate |]. intros _. right. lra.
  - destruct (Rlt_dec (fst b) (fst a)); [discriminate |]. intros _. left. lra.
Qed.

Lemma key_lt_true (a b : R * R) : key_lt a b = true -> key_le a b.
Proof.
  unfold key_lt, key_le.
  destruct (Req_dec_T (fst a) (fst b)) as [E | N].
  - destruct (Rlt_dec (snd a) (snd b)); [| discriminate]. intros _. right. lra.
  - destruct (Rlt_dec (fst a) (fst b)); [| discriminate]. intros _. left. lra.
Qed.

Lemma key_le_trans (a b c : R * R) : key_le a b -> key_le b c -> key_le a c.
Proof. unfold key_le. intros [? | [? ?]] [? | [? ?]]; [left | left | left | right]; lra. Qed.

Lemma insert_by_key_perm x l : Permutation (insert_by_key x l) (x :: l).
Proof.
  induction l as [| y l IH]; simpl.
  - reflexivity.
  - destruct (key_lt (fst y) (fst x)).
    + rewrite IH. apply perm_swap.
    + reflexivity.
Qed.

Lemma sort_by_key_perm l : Permutation (sort_by_key l) l.
Proof.
  induction l as [| x l IH]; simpl.
  - reflexivity.
  - rewrite insert_by_key_perm. constructor. exact IH.
Qed.

Lemma insert_by_key_sorted x l :
  StronglySorted may_precede l -> StronglySorted may_precede (insert_by_key x l).
Proof.
  induction 1 as [| y l Hl IH Hy]; simpl.
  - repeat constructor.
  - destruct (key_lt (fst y) (fst x)) eqn:E.
    + constructor; [exact IH |].
      rewrite insert_by_key_perm. constructor; [| exact Hy].
      apply key_lt_true. exact E.
    + assert (Hxy : may_precede x y) by (apply key_lt_false; exact E).
      constructor; [constructor; assumption |].
      constructor; [exact Hxy |].
      eapply Forall_impl; [exact Hy |].
      intros z Hz. eapply key_le_trans; [exact Hxy | exact Hz].
Qed.

Lemma sort_by_key_sorted l : StronglySorted may_precede (sort_by_key l).
Proof.
  induction l as [| x l IH]; simpl.
  - constructor.
  - apply insert_by_key_sorted. exact IH.
Qed.

Lemma StronglySorted_lookup {A} (P : A -> A -> Prop) (l : list A) :
  StronglySorted P l ->
  forall (i j : nat) (a b : A),
    (i < j)%nat -> l !! i = Some a -> l !! j = Some b -> P a b.
Proof.
  induction 1 as [| x l Hl IH Hx]; intros i j a b Hij Hi Hj.
  - discriminate.
  - destruct j as [| j]; [lia |]. simpl in Hj.
    destruct i as [| i]; simpl in Hi.
    + injection Hi as <-.
      rewrite Forall_lookup in Hx. eapply Hx. exact Hj.
    + eapply IH; [| exact Hi | exact Hj]. lia.
Qed.

Lemma keys_of_ok (h : list pydict) (cands : list nat) decorated :
  keys_of h cands = Ok decorated ->
  map snd decorated = cands
  /\ Forall (fun kx => sort_key h (snd kx) = Ok (fst kx)) decorated.
Proof.
  revert decorated. induction cands as [| x rest IH]; intros decorated; simpl.
  - intros [= <-]. split; [reflexivity | constructor].
  - destruct (sort_key h x) as [k |] eqn:Hk; simpl; [| discriminate].
    destruct (keys_of h rest) as [ks |]; simpl; [| discriminate].
    intros [= <-]. destruct (IH ks eq_refl) as [Hm Hall].
    split; [simpl; f_equal; exact Hm |].
    constructor; [exact Hk | exact Hall].
Qed.


Section Ranking.

Variable float_of_str : string -> option R.
Variables target_lat target_lon : R.

(** Step 1 only appends to the store, every appended object is the
    enriched copy of a venue that passes the filter, and the candidates
    are exactly the appended objects, in order. *)
Lemma collect_candidates_appends (h0 : heap) (venues : list loc) :
  Forall (fun v => (v < List.length h0)%nat) venues ->
  forall (cands : list loc) (news0 : list pydict) r h',
    collect_candidates float_of_str venues target_lat target_lon cands (h0 ++ news0)
    = (r, h') ->
    exists news : list pydict,
      h' = h0 ++ news0 ++ news
      /\ Forall (candidate_copy float_of_str h0 target_lat target_lon venues) news
      /\ forall out, r = Ok out ->
           out = cands ++ seq (List.length (h0 ++ news0)) (List.length news).
Proof.
  induction venues as [| v rest IH]; intros Hvalid cands news0 r h' Hrun.
  - simpl in Hrun. injection Hrun as <- <-.
    exists []. rewrite !app_nil_r. split; [reflexivity |]. split; [constructor |].
    intros out [= <-]. reflexivity.
  - inversion Hvalid as [| ? ? Hv Hrest]; subst.
    simpl in Hrun.
    rewrite (lookup_app_l h0 news0 v Hv) in Hrun.
    destruct (lookup_lt_is_Some_2 h0 v Hv) as [d Hd].
    rewrite Hd in Hrun.
    assert (Hskip : forall r h',
      collect_candidates float_of_str rest target_lat target_lon cands (h0 ++ news0)
      = (r, h') ->
      exists news : list pydict,
        h' = h0 ++ news0 ++ news
        /\ Forall (candidate_copy float_of_str h0 target_lat target_lon (v :: rest)) news
        /\ forall out, r = Ok out ->
             out = cands ++ seq (List.length (h0 ++ news0)) (List.length news)).
    { intros r0 h0' Hrun0.
      destruct (IH Hrest _ _ _ _ Hrun0) as (news & -> & Hall & Hout).
      exists news. split; [reflexivity |]. split; [| exact Hout].
      eapply Forall_impl; [exact Hall |]. intros ?. apply candidate_copy_cons. }
    destruct (truthy (get d "forecast")) eqn:Hflag; simpl in Hrun;
      [| apply Hskip; exact Hrun].
    destruct (is_none (get d "venue_lat")) eqn:Hlat; simpl in Hrun;
      [apply Hskip; exact Hrun |].
    destruct (is_none (get d "venue_lon")) eqn:Hlon; simpl in Hrun;
      [apply Hskip; exact Hrun |].
    destruct (py_float float_of_str (get d "venue_lat")) as [flat | e] eqn:Hflat.
    2:{ injection Hrun as <- <-. exists []. rewrite !app_nil_r.
        split; [reflexivity |]. split; [constructor | discriminate]. }
    destruct (py_float float_of_str (get d "venue_lon")) as [flon | e] eqn:Hflon.
    2:{ injection Hrun as <- <-. exists []. rewrite !app_nil_r.
        split; [reflexivity |]. split; [constructor | discriminate]. }
    destruct (average_day_mean d) as [avg | e] eqn:Havg.
    2:{ injection Hrun as <- <-. exists []. rewrite !app_nil_r.
        split; [reflexivity |]. split; [constructor | discriminate]. }
    unfold alloc in Hrun.
    rewrite !setitem_fresh in Hrun.
    set (d' := dict_set "_avg_day_mean" (JNum avg)
                 (dict_set "_distance_m"
                    (JNum (haversine_meters target_lat target_lon flat flon)) d)) in Hrun.
    rewrite <- app_assoc in Hrun.
    destruct (IH Hrest _ _ _ _ Hrun) as (news & -> & Hall & Hout).
    exists (d' :: news). split; [rewrite <- !app_assoc; reflexivity |]. split.
    + constructor.
      * exists v, d, flat, flon, avg. repeat split; try assumption. left.
      * eapply Forall_impl; [exact Hall |]. intros ?. apply candidate_copy_cons.
    + intros out Hok. rewrite (Hout out Hok).
      rewrite <- app_assoc. simpl. f_equal. f_equal.
      rewrite !List.length_app. simpl. f_equal. f_equal. lia.
Qed.

(** One round of step 1 on a venue that passes the filter. *)
Lemma collect_candidates_keep (v : nat) (rest cands : list nat) (h : list pydict)
    (d : pydict) (flat flon avg : R) :
  h !! v = Some d ->
  truthy (get d "forecast") = true ->
  is_none (get d "venue_lat") = false ->
  is_none (get d "venue_lon") = false ->
  py_float float_of_str (get d "venue_lat") = Ok flat ->
  py_float float_of_str (get d "venue_lon") = Ok flon ->
  average_day_mean d = Ok avg ->
  collect_candidates float_of_str (v :: rest) target_lat target_lon cands h
  = collect_candidates float_of_str rest target_lat target_lon
      (cands ++ [List.length h])
      (h ++ [enrich (haversine_meters target_lat target_lon flat flon) avg d]).
Proof.
  intros Hd Hf Hlat Hlon Hflat Hflon Havg. simpl.
  rewrite Hd, Hf, Hlat, Hlon, Hflat, Hflon, Havg. simpl.
  unfold alloc. rewrite !setitem_fresh. reflexivity.
Qed.

Lemma fresh_is_ranked_entry (h news : list pydict) (venues : list nat) (x : nat) :
  Forall (candidate_copy float_of_str h target_lat target_lon venues) news ->
  x ∈ seq (List.length h) (List.length news) ->
  exists dist avg,
    ranked_entry float_of_str h target_lat target_lon venues (h ++ news) x dist avg.
Proof.
  intros Hall Hx. apply elem_of_seq in Hx as [Hlo Hhi].
  destruct (lookup_lt_is_Some_2 news (x - List.length h)) as [d' Hd']; [lia |].
  rewrite Forall_lookup in Hall.
  destruct (Hall _ _ Hd') as (v & d & flat & flon & avg & Hin & Hd & Hf & Hlat & Hlon
                              & Hflat & Hflon & Havg & ->).
  exists (haversine_meters target_lat target_lon flat flon), avg.
  split; [exact Hlo |].
  exists v, d, flat, flon. repeat split; try assumption.
  rewrite lookup_app_r by lia. exact Hd'.
Qed.

Lemma ranked_entry_key h venues h' x dist avg :
  ranked_entry float_of_str h target_lat target_lon venues h' x dist avg ->
  sort_key h' x = Ok (dist, - avg).
Proof.
  intros (_ & v & d & flat & flon & _ & _ & _ & _ & _ & _ & _ & _ & _ & Hx).
  unfold sort_key, item_number. rewrite Hx.
  rewrite enrich_distance, enrich_avg. reflexivity.
Qed.

(** Two descriptions of one entry agree on both derived numbers. *)
Lemma ranked_entry_unique h venues h' x dist avg dist' avg' :
  ranked_entry float_of_str h target_lat target_lon venues h' x dist avg ->
  ranked_entry float_of_str h target_lat target_lon venues h' x dist' avg' ->
  dist = dist' /\ avg = avg'.
Proof.
  intros H1 H2. apply ranked_entry_key in H1, H2.
  rewrite H1 in H2. injection H2 as Hd Ha. split; lra.
Qed.

Lemma lookup_map_Some {A B} (f : A -> B) (l : list A) (i : nat) (b : B) :
  map f l !! i = Some b -> exists a, l !! i = Some a /\ f a = b.
Proof.
  revert i. induction l as [| a l IH]; intros [| i]; simpl; try discriminate.
  - intros [= <-]. exists a. split; reflexivity.
  - apply IH.
Qed.

Lemma slice_to_subseteq {A} (n : Z) (l : list A) : slice_to n l ⊆ l.
Proof. unfold slice_to. destruct (0 <=? n)%Z; apply subseteq_take. Qed.

(** The store after the call, whatever the call returns. *)
Lemma top_closest_store (venues : list nat) (top_n : Z) (h : list pydict) r h' :
  Forall (fun v => (v < List.length h)%nat) venues ->
  top_closest_with_foot_traffic float_of_str venues target_lat target_lon top_n h
  = (r, h') ->
  exists news, h' = h ++ news
    /\ Forall (candidate_copy float_of_str h target_lat target_lon venues) news.
Proof.
  intros Hvalid Hrun. unfold top_closest_with_foot_traffic in Hrun.
  destruct (collect_candidates float_of_str venues target_lat target_lon [] h)
    as [r0 h1] eqn:Hc.
  rewrite <- (app_nil_r h) in Hc.
  destruct (collect_candidates_appends h venues Hvalid _ _ _ _ Hc)
    as (news & -> & Hall & _).
  exists news. simpl in *.
  destruct r0 as [cands | e].
  - destruct (keys_of _ cands); injection Hrun as <- <-; auto.
  - injection Hrun as <- <-; auto.
Qed.


(** The returned list: the first [top_n] of the new objects, sorted. *)
Lemma top_closest_ok (venues : list nat) (top_n : Z) (h : list pydict) out h' :
  Forall (fun v => (v < List.length h)%nat) venues ->
  top_closest_with_foot_traffic float_of_str venues target_lat target_lon top_n h
  = (Ok out, h') ->
  exists news sorted,
    h' = h ++ news
    /\ Forall (candidate_copy float_of_str h target_lat target_lon venues) news
    /\ Permutation sorted (seq (List.length h) (List.length news))
    /\ out = slice_to top_n sorted
    /\ forall (i j a b : nat),
         (i < j)%nat -> sorted !! i = Some a -> sorted !! j = Some b ->
         exists ka kb, sort_key h' a = Ok ka /\ sort_key h' b = Ok kb /\ key_le ka kb.
Proof.
  intros Hvalid Hrun. unfold top_closest_with_foot_traffic in Hrun.
  destruct (collect_candidates float_of_str venues target_lat target_lon [] h)
    as [r0 h1] eqn:Hc.
  rewrite <- (app_nil_r h) in Hc.
  destruct (collect_candidates_appends h venues Hvalid _ _ _ _ Hc)
    as (news & -> & Hall & Hcands).
  simpl in *. rewrite app_nil_r in Hcands.
  destruct r0 as [cands | e]; [| discriminate].
  specialize (Hcands cands eq_refl). simpl in Hcands.
  destruct (keys_of (h ++ news) cands) as [decorated |] eqn:Hk; [| discriminate].
  injection Hrun as <- <-.
  destruct (keys_of_ok _ _ _ Hk) as [Hsnd Hkeys].
  exists news, (map snd (sort_by_key decorated)).
  split; [reflexivity |]. split; [exact Hall |]. split.
  { rewrite <- Hcands, <- Hsnd. apply Permutation_map. apply sort_by_key_perm. }
  split; [reflexivity |].
  intros i j a b Hij Hi Hj.
  apply lookup_map_Some in Hi as ([ka a'] & Hi & Ha).
  apply lookup_map_Some in Hj as ([kb b'] & Hj & Hb).
  simpl in Ha, Hb. subst a' b'.
  assert (Hkeys' : Forall (fun kx => sort_key (h ++ news) (snd kx) = Ok (fst kx))
                     (sort_by_key decorated)).
  { eapply Permutation_Forall; [| exact Hkeys].
    symmetry. apply sort_by_key_perm. }
  rewrite Forall_lookup in Hkeys'.
  exists ka, kb. split; [exact (Hkeys' _ _ Hi) |]. split; [exact (Hkeys' _ _ Hj) |].
  exact (StronglySorted_lookup _ _ (sort_by_key_sorted decorated) _ _ _ _ Hij Hi Hj).
Qed.

Lemma sorted_entries (h news : list pydict) (venues sorted : list nat) (i a : nat) :
  Forall (candidate_copy float_of_str h target_lat target_lon venues) news ->
  Permutation sorted (seq (List.length h) (List.length news)) ->
  sorted !! i = Some a ->
  exists dist avg,
    ranked_entry float_of_str h target_lat target_lon venues (h ++ news) a dist avg.
Proof.
  intros Hall Hperm Hi.
  apply fresh_is_ranked_entry; [exact Hall |].
  rewrite <- Hperm. eapply list_elem_of_lookup_2. exact Hi.
Qed.

(** C6. The candidates are put in ascending order of their distance to the
    target, and candidates at exactly the same distance in descending order
    of their mean forecast intensity; the call returns a front part of that
    order. In particular, of two candidates at the same distance with means
    10 and 5, the one with mean 10 stands first. *)
Theorem ranking_sorts_by_distance_then_busier
    (venues : list nat) (top_n : Z) (h : list pydict) (out : list nat)
    (h' : list pydict) :
  Forall (fun v => (v < List.length h)%nat) venues ->
  top_closest_with_foot_traffic float_of_str venues target_lat target_lon top_n h
  = (Ok out, h') ->
  exists sorted : list nat,
    out = slice_to top_n sorted
    /\ Permutation sorted (seq (List.length h) (List.length h' - List.length h))
    /\ (forall (i j a b : nat),
          (i < j)%nat -> sorted !! i = Some a -> sorted !! j = Some b ->
          exists da ma db mb,
            ranked_entry float_of_str h target_lat target_lon venues h' a da ma
            /\ ranked_entry float_of_str h target_lat target_lon venues h' b db mb
            /\ (da < db \/ (da = db /\ mb <= ma)))
    /\ (forall (i j a b : nat) (da db : R),
          sorted !! i = Some a -> sorted !! j = Some b ->
          ranked_entry float_of_str h target_lat target_lon venues h' a da 10 ->
          ranked_entry float_of_str h target_lat target_lon venues h' b db 5 ->
          da = db -> (i < j)%nat).
Proof.
  intros Hvalid Hrun.
  destruct (top_closest_ok _ _ _ _ _ Hvalid Hrun)
    as (news & sorted & -> & Hall & Hperm & Hout & Hord).
  assert (Hpair : forall (i j a b : nat),
          (i < j)%nat -> sorted !! i = Some a -> sorted !! j = Some b ->
          exists da ma db mb,
            ranked_entry float_of_str h target_lat target_lon venues (h ++ news) a da ma
            /\ ranked_entry float_of_str h target_lat target_lon venues (h ++ news) b db mb
            /\ (da < db \/ (da = db /\ mb <= ma))).
  { intros i j a b Hij Hi Hj.
    destruct (sorted_entries _ _ _ _ _ _ Hall Hperm Hi) as (da & ma & Ha).
    destruct (sorted_entries _ _ _ _ _ _ Hall Hperm Hj) as (db & mb & Hb).
    exists da, ma, db, mb. split; [exact Ha |]. split; [exact Hb |].
    destruct (Hord _ _ _ _ Hij Hi Hj) as (ka & kb & Hka & Hkb & Hle).
    rewrite (ranked_entry_key _ _ _ _ _ _ Ha) in Hka.
    rewrite (ranked_entry_key _ _ _ _ _ _ Hb) in Hkb.
    injection Hka as <-. injection Hkb as <-.
    unfold key_le in Hle. simpl in Hle. lra. }
  exists sorted. split; [exact Hout |]. split.
  { rewrite List.length_app.
    replace (List.length h + List.length news - List.length h)%nat
      with (List.length news) by lia.
    exact Hperm. }
  split; [exact Hpair |].
  intros i j a b da db Hi Hj Ha Hb Hdist.
  destruct (lt_eq_lt_dec i j) as [[Hlt | Heq] | Hgt]; [exact Hlt | |]; exfalso.
  - subst j. rewrite Hi in Hj. injection Hj as <-.
    destruct (ranked_entry_unique _ _ _ _ _ _ _ _ Ha Hb) as [_ Hm]. lra.
  - destruct (Hpair _ _ _ _ Hgt Hj Hi) as (db' & mb' & da' & ma' & Hb' & Ha' & Hle).
    destruct (ranked_entry_unique _ _ _ _ _ _ _ _ Ha Ha') as [<- <-].
    destruct (ranked_entry_unique _ _ _ _ _ _ _ _ Hb Hb') as [<- <-].
    lra.
Qed.

Lemma ranked_entry_field h venues h' x dist avg :
  ranked_entry float_of_str h target_lat target_lon venues h' x dist avg ->
  field h' x "_distance_m" = Some dist /\ field h' x "_avg_day_mean" = Some avg.
Proof.
  intros (_ & v & d & flat & flon & _ & _ & _ & _ & _ & _ & _ & _ & _ & Hx).
  unfold field. rewrite Hx, enrich_distance, enrich_avg. split; reflexivity.
Qed.

Lemma returned_entries (venues : list nat) (top_n : Z) (h : list pydict) out h' :
  Forall (fun v => (v < List.length h)%nat) venues ->
  top_closest_with_foot_traffic float_of_str venues target_lat target_lon top_n h
  = (Ok out, h') ->
  Forall (fun x => exists dist avg,
            ranked_entry float_of_str h target_lat target_lon venues h' x dist avg) out.
Proof.
  intros Hvalid Hrun.
  destruct (top_closest_ok _ _ _ _ _ Hvalid Hrun)
    as (news & sorted & -> & Hall & Hperm & -> & _).
  apply Forall_forall. intros x Hx.
  apply fresh_is_ranked_entry; [exact Hall |].
  rewrite <- Hperm. apply (slice_to_subseteq top_n sorted). exact Hx.
Qed.

(** C10. The call leaves every object of the caller's store as it was, the
    venue dictionaries included (the list [venues] itself is only read);
    every returned entry is a new object, the copy of a venue with the two
    derived fields [_distance_m] and [_avg_day_mean] set. *)
Theorem ranking_leaves_inputs_unchanged
    (venues : list nat) (top_n : Z) (h : list pydict)
    (r : result (list nat)) (h' : list pydict) :
  Forall (fun v => (v < List.length h)%nat) venues ->
  top_closest_with_foot_traffic float_of_str venues target_lat target_lon top_n h
  = (r, h') ->
  (forall (x : nat) (d : pydict), h !! x = Some d -> h' !! x = Some d)
  /\ (forall out : list nat, r = Ok out ->
        Forall (fun x =>
          exists dist avg,
            ranked_entry float_of_str h target_lat target_lon venues h' x dist avg
            /\ field h' x "_distance_m" = Some dist
            /\ field h' x "_avg_day_mean" = Some avg) out).
Proof.
  intros Hvalid Hrun. split.
  - destruct (top_closest_store _ _ _ _ _ Hvalid Hrun) as (news & -> & _).
    intros x d Hx. apply lookup_app_l_Some. exact Hx.
  - intros out ->.
    eapply Forall_impl; [exact (returned_entries _ _ _ _ _ Hvalid Hrun) |].
    intros x (dist & avg & Hx). exists dist, avg.
    split; [exact Hx |]. exact (ranked_entry_field _ _ _ _ _ _ Hx).
Qed.

Lemma ranked_entry_passes_filter h venues h' x dist avg :
  ranked_entry float_of_str h target_lat target_lon venues h' x dist avg ->
  exists d' : pydict,
    h' !! x = Some d'
    /\ truthy (get d' "forecast") = true
    /\ is_none (get d' "venue_lat") = false
    /\ is_none (get d' "venue_lon") = false.
Proof.
  intros (_ & v & d & flat & flon & _ & _ & Hf & Hlat & Hlon & _ & _ & _ & _ & Hx).
  exists (enrich dist avg d). split; [exact Hx |].
  unfold get in *. rewrite !enrich_other by discriminate. auto.
Qed.

(** C5, as the code has it. For a bound [top_n] that is not negative, the
    call returns at most [top_n] entries; every returned entry is the copy
    of a venue whose [forecast] flag is true and whose [venue_lat] and
    [venue_lon] are both present, and carries them itself. The filter reads
    the [forecast] flag; it does not look at the forecast series. *)
Theorem ranking_returns_at_most_top_n_flagged_and_located
    (venues : list nat) (top_n : Z) (h : list pydict) (out : list nat)
    (h' : list pydict) :
  Forall (fun v => (v < List.length h)%nat) venues ->
  (0 <= top_n)%Z ->
  top_closest_with_foot_traffic float_of_str venues target_lat target_lon top_n h
  = (Ok out, h') ->
  (Z.of_nat (List.length out) <= top_n)%Z
  /\ Forall (fun x =>
        (exists dist avg,
            ranked_entry float_of_str h target_lat target_lon venues h' x dist avg)
        /\ exists d' : pydict,
            h' !! x = Some d'
            /\ truthy (get d' "forecast") = true
            /\ is_none (get d' "venue_lat") = false
            /\ is_none (get d' "venue_lon") = false) out.
Proof.
  intros Hvalid Hn Hrun. split.
  - destruct (top_closest_ok _ _ _ _ _ Hvalid Hrun)
      as (news & sorted & _ & _ & _ & -> & _).
    unfold slice_to. destruct (Z.leb_spec 0 top_n) as [_ | Hneg]; [| lia].
    rewrite length_take. lia.
  - eapply Forall_impl; [exact (returned_entries _ _ _ _ _ Hvalid Hrun) |].
    intros x (dist & avg & Hx). split.
    + exists dist, avg. exact Hx.
    + exact (ranked_entry_passes_filter _ _ _ _ _ _ Hx).
Qed.

End Ranking.

End RankingFacts.

(** ** The ranking on concrete venues *)

Module RankingScenarios.
Import GeoMath FootTraffic RankingVocabulary RankingInputs RankingFacts.
Local Open Scope R_scope.

#[local] Arguments haversine_meters : simpl never.

Lemma average_day_mean_quiet : average_day_mean quiet = Ok 5.
Proof. unfold average_day_mean, sum. simpl. f_equal. lra. Qed.

Lemma average_day_mean_busy : average_day_mean busy = Ok 10.
Proof. unfold average_day_mean, sum. simpl. f_equal. lra. Qed.

Lemma key_lt_tie (d a b : R) : b < a -> key_lt (d, - a) (d, - b) = true.
Proof.
  intros Hab. unfold key_lt. simpl.
  destruct (Req_dec_T d d) as [_ | N]; [| contradiction].
  destruct (Rlt_dec (- a) (- b)) as [_ | N]; [reflexivity | lra].
Qed.

(** The run on the two tied venues: the busier one comes out first. *)
Lemma run_tied_top (top_n : Z) :
  top_closest_with_foot_traffic no_parse [0%nat; 1%nat] 14 120 top_n [quiet; busy]
  = (Ok (slice_to top_n [3%nat; 2%nat]), tied_store).
Proof.
  unfold top_closest_with_foot_traffic.
  rewrite (collect_candidates_keep no_parse 14 120 0 [1%nat] [] [quiet; busy]
             quiet 1 2 5 eq_refl eq_refl eq_refl eq_refl eq_refl eq_refl
             average_day_mean_quiet).
  cbn [app List.length].
  rewrite (collect_candidates_keep no_parse 14 120 1 [] [2%nat]
             [quiet; busy; enrich (haversine_meters 14 120 1 2) 5 quiet]
             busy 1 2 10 eq_refl eq_refl eq_refl eq_refl eq_refl eq_refl
             average_day_mean_busy).
  simpl. rewrite key_lt_tie by lra. reflexivity.
Qed.

Lemma run_tied :
  top_closest_with_foot_traffic no_parse [0%nat; 1%nat] 14 120 2 [quiet; busy]
  = (Ok [3%nat; 2%nat], tied_store).
Proof. exact (run_tied_top 2). Qed.

(** A negative [top_n] counts from the end of the list: with [-1] one of
    the two candidates is returned. *)
Remark negative_top_n_counts_from_the_end :
  top_closest_with_foot_traffic no_parse [0%nat; 1%nat] 14 120 (-1) [quiet; busy]
  = (Ok [3%nat], tied_store).
Proof. exact (run_tied_top (-1)). Qed.

Lemma run_kiosk :
  top_closest_with_foot_traffic no_parse [0%nat] 14 120 1 [kiosk]
  = (Ok [1%nat], [kiosk; enrich (haversine_meters 14 120 1 2) 0 kiosk]).
Proof. reflexivity. Qed.

(** C5 fails as stated: a venue whose [forecast] flag is true and whose
    forecast series is empty is returned. *)
Lemma flagged_venue_with_empty_series_is_returned :
  forecast_series_of kiosk = Some []
  /\ has_forecast_series kiosk = false
  /\ top_closest_with_foot_traffic no_parse [0%nat] 14 120 1 [kiosk]
     = (Ok [1%nat], kiosk_store)
  /\ kiosk_store !! 1%nat = Some (enrich (haversine_meters 14 120 1 2) 0 kiosk)
  /\ has_forecast_series (enrich (haversine_meters 14 120 1 2) 0 kiosk) = false
  /\ forecast_series_of (enrich (haversine_meters 14 120 1 2) 0 kiosk) = Some [].
Proof. repeat split; reflexivity. Qed.

Lemma ranking_returns_at_most_top_n_witness :
  (Z.of_nat (List.length [1%nat]) <= 1)%Z
  /\ Forall (fun x =>
        (exists dist avg,
            ranked_entry no_parse [kiosk] 14 120 [0%nat] kiosk_store x dist avg)
        /\ exists d' : pydict,
            kiosk_store !! x = Some d'
            /\ truthy (get d' "forecast") = true
            /\ is_none (get d' "venue_lat") = false
            /\ is_none (get d' "venue_lon") = false) [1%nat].
Proof.
  apply (ranking_returns_at_most_top_n_flagged_and_located
           no_parse 14 120 [0%nat] 1 [kiosk] [1%nat] kiosk_store).
  - repeat constructor.
  - lia.
  - exact run_kiosk.
Defined.

Lemma ranking_sorts_witness :
  exists sorted : list nat,
    [3%nat; 2%nat] = slice_to 2 sorted
    /\ Permutation sorted (seq 2 (4 - 2))
    /\ (forall (i j a b : nat),
          (i < j)%nat -> sorted !! i = Some a -> sorted !! j = Some b ->
          exists da ma db mb,
            ranked_entry no_parse [quiet; busy] 14 120 [0%nat; 1%nat] tied_store a da ma
            /\ ranked_entry no_parse [quiet; busy] 14 120 [0%nat; 1%nat] tied_store b db mb
            /\ (da < db \/ (da = db /\ mb <= ma)))
    /\ (forall (i j a b : nat) (da db : R),
          sorted !! i = Some a -> sorted !! j = Some b ->
          ranked_entry no_parse [quiet; busy] 14 120 [0%nat; 1%nat] tied_store a da 10 ->
          ranked_entry no_parse [quiet; busy] 14 120 [0%nat; 1%nat] tied_store b db 5 ->
          da = db -> (i < j)%nat).
Proof.
  apply (ranking_sorts_by_distance_then_busier
           no_parse 14 120 [0%nat; 1%nat] 2 [quiet; busy] [3%nat; 2%nat] tied_store).
  - repeat constructor.
  - exact run_tied.
Defined.

Lemma ranking_leaves_inputs_witness :
  (forall (x : nat) (d : pydict),
      [quiet; busy] !! x = Some d -> tied_store !! x = Some d)
  /\ (forall out : list nat, Ok [3%nat; 2%nat] = Ok out ->
        Forall (fun x =>
          exists dist avg,
            ranked_entry no_parse [quiet; busy] 14 120 [0%nat; 1%nat] tied_store x dist avg
            /\ field tied_store x "_distance_m" = Some dist
            /\ field tied_store x "_avg_day_mean" = Some avg) out).
Proof.
  apply (ranking_leaves_inputs_unchanged
           no_parse 14 120 [0%nat; 1%nat] 2 [quiet; busy] (Ok [3%nat; 2%nat]) tied_store).
  - repeat constructor.
  - exact run_tied.
Defined.

End RankingScenarios.

(** ** The poll loop *)


Module PollFacts.
Import BestTime PollVocabulary.
Local Open Scope Q_scope.

Section Service.

Variable BESTTIME_BASE : string.
Variable provider : nat -> exchange.
Variable query_param : string -> string -> option string.

Variables job_id collection_id : json.
Variable deadline : Q.

Local Abbreviation poll fuel :=
  (poll_loop BESTTIME_BASE provider fuel job_id collection_id deadline).
Local Abbreviation round :=
  (after_round provider BESTTIME_BASE job_id collection_id).

Lemma normalize_failure (r : response) :
  ok r = false ->
  normalize (NetResponse r) = Ok (GotError (error_body r) (status_code r)).
Proof. intros Hok. unfold normalize. rewrite Hok. reflexivity. Qed.

(** The error body has no venue list under any of the four names. *)
Lemma venues_in_error_body (r : response) : venues_in (error_body r) = None.
Proof. reflexivity. Qed.

(** The loop, one round unfolded. *)
Lemma poll_loop_S (fuel : nat) (interval : Q) (last_resp : json) (w : world) :
  poll (S fuel) interval last_resp w
  = if Qlt_le_dec (now w) deadline then
      match besttime_get_json BESTTIME_BASE provider "venues/progress"
              [("job_id", job_id); ("collection_id", collection_id);
               ("format", JStr "raw")] w with
      | (Raise e, w1) => Some (Raise e, w1)
      | (Ok resp, w1) =>
          match venues_in (last_of resp) with
          | Some venues => Some (Ok (Some venues, last_of resp), w1)
          | None =>
              match sleep interval w1 with
              | (Raise e, w2) => Some (Raise e, w2)
              | (Ok _, w2) =>
                  poll fuel (Qmin (interval * 1.5) 8) (last_of resp) w2
              end
          end
      end
    else Some (Ok (None, last_resp), w).
Proof. reflexivity. Qed.

(** What one call of the client does to the world. *)
Lemma besttime_get_json_world (params : pydict) (w : world) :
  besttime_get_json BESTTIME_BASE provider "venues/progress" params w
  = (normalize (answer (provider (List.length (sent w)))),
     {| now := now w + elapsed (provider (List.length (sent w)));
        sent := sent w ++ [{| meth := "GET";
                              url := endpoint_url BESTTIME_BASE "venues/progress";
                              query := params;
                              sent_at := now w |}] |}).
Proof. reflexivity. Qed.

(** A round that finds no venues sleeps, backs off and goes round again. *)
Lemma poll_loop_continue (fuel : nat) (interval : Q) (last_resp : json) (w : world)
    (resp : client_ret) :
  now w < deadline ->
  normalize (answer (provider (List.length (sent w)))) = Ok resp ->
  venues_in (last_of resp) = None ->
  0 <= interval ->
  poll (S fuel) interval last_resp w
  = poll fuel (Qmin (interval * 1.5) 8) (last_of resp) (round interval w).
Proof.
  intros Hnow Hresp Hnone Hint. rewrite poll_loop_S.
  destruct (Qlt_le_dec (now w) deadline) as [_ | Hge]; [| lra].
  rewrite besttime_get_json_world, Hresp, Hnone.
  unfold sleep.
  destruct (Qlt_le_dec interval 0) as [Hneg | _]; [lra |].
  reflexivity.
Qed.

(** Past the deadline the loop returns at once. *)
Lemma poll_loop_timeout (fuel : nat) (interval : Q) (last_resp : json) (w : world) :
  deadline <= now w ->
  poll (S fuel) interval last_resp w = Some (Ok (None, last_resp), w).
Proof.
  intros Hge. rewrite poll_loop_S.
  destruct (Qlt_le_dec (now w) deadline) as [Hlt | _]; [lra | reflexivity].
Qed.

(** More fuel does not change a result. *)
Lemma poll_loop_fuel_mono (fuel : nat) :
  forall (interval : Q) (last_resp : json) (w : world) res,
    poll fuel interval last_resp w = Some res ->
    forall fuel', (fuel <= fuel')%nat -> poll fuel' interval last_resp w = Some res.
Proof.
  induction fuel as [| fuel IH]; intros interval last_resp w res Hrun fuel' Hle.
  - discriminate.
  - destruct fuel' as [| fuel']; [lia |].
    rewrite poll_loop_S in Hrun |- *.
    destruct (Qlt_le_dec (now w) deadline); [| exact Hrun].
    destruct (besttime_get_json BESTTIME_BASE provider "venues/progress" _ w)
      as [[resp | e] w1]; [| exact Hrun].
    destruct (venues_in (last_of resp)); [exact Hrun |].
    destruct (sleep interval w1) as [[u | e] w2]; [| exact Hrun].
    apply (IH _ _ _ _ Hrun). lia.
Qed.

Lemma normalize_raise (a : net_result) (e : exn) :
  normalize a = Raise e -> e = RequestException \/ e = JSONDecodeError.
Proof.
  destruct a as [r |]; simpl.
  - destruct (ok r); simpl; [| discriminate].
    destruct (body r); [discriminate |]. intros [= <-]. right. reflexivity.
  - intros [= <-]. left. reflexivity.
Qed.

Lemma backoff_bounds (m B interval : Q) :
  0 < m -> m <= 8 -> 8 <= B -> m <= interval ->
  m <= Qmin (interval * 1.5) 8 /\ Qmin (interval * 1.5) 8 <= B.
Proof.
  intros Hm Hm8 HB Hi.
  destruct (Q.min_spec (interval * 1.5) 8) as [[H ->] | [H ->]]; split; lra.
Qed.

(** What a finished run of the loop has done: it sent progress requests
    only, each before the deadline; it ended in one of the outcomes of the
    loop; and it ended less than one call and one sleep after the
    deadline. *)
Lemma poll_loop_sound (m E B : Q) :
  (forall n, 0 <= elapsed (provider n) /\ elapsed (provider n) <= E) ->
  0 < m -> m <= 8 -> 8 <= B ->
  forall (fuel : nat) (interval : Q) (last_resp : json) (w : world) r w',
    m <= interval -> interval <= B ->
    poll fuel interval last_resp w = Some (r, w') ->
    exists new : list request,
      sent w' = sent w ++ new
      /\ Forall (fun q => exists t : Q,
                  q = progress_request BESTTIME_BASE job_id collection_id t
                  /\ t < deadline) new
      /\ loop_outcome deadline r w'
      /\ (w' = w \/ now w' < deadline + E + B).
Proof.
  intros Hel Hm Hm8 HB.
  induction fuel as [| fuel IH]; intros interval last_resp w r w' Hlo Hhi Hrun.
  - discriminate.
  - rewrite poll_loop_S in Hrun.
    destruct (Hel (List.length (sent w))) as [Hel0 HelE].
    destruct (Qlt_le_dec (now w) deadline) as [Hlt | Hge].
    2:{ injection Hrun as <- <-. exists []. rewrite app_nil_r.
        split; [reflexivity |]. split; [constructor |].
        split; [exact Hge | left; reflexivity]. }
    rewrite besttime_get_json_world in Hrun.
    set (w1 := {| now := now w + elapsed (provider (List.length (sent w)));
                  sent := sent w ++ [progress_request BESTTIME_BASE job_id
                                       collection_id (now w)] |}).
    assert (Hone : Forall (fun q => exists t : Q,
                  q = progress_request BESTTIME_BASE job_id collection_id t
                  /\ t < deadline)
              [progress_request BESTTIME_BASE job_id collection_id (now w)]).
    { constructor; [| constructor]. exists (now w). split; [reflexivity | exact Hlt]. }
    destruct (normalize (answer (provider (List.length (sent w)))))
      as [resp | e] eqn:Hresp.
    2:{ injection Hrun as <- <-.
        exists [progress_request BESTTIME_BASE job_id collection_id (now w)].
        split; [reflexivity |]. split; [exact Hone |].
        split; [exact (normalize_raise _ _ Hresp) |].
        right. simpl. lra. }
    destruct (venues_in (last_of resp)) as [venues |] eqn:Hv.
    { injection Hrun as <- <-.
      exists [progress_request BESTTIME_BASE job_id collection_id (now w)].
      split; [reflexivity |]. split; [exact Hone |].
      split; [exact Hv |]. right. simpl. lra. }
    unfold sleep in Hrun.
    destruct (Qlt_le_dec interval 0) as [Hneg | _]; [lra |].
    destruct (backoff_bounds m B interval Hm Hm8 HB Hlo) as [Hlo' Hhi'].
    destruct (IH _ _ _ _ _ Hlo' Hhi' Hrun) as (new & Hsent & Hall & Hout & Hend).
    exists (progress_request BESTTIME_BASE job_id collection_id (now w) :: new).
    split; [rewrite Hsent; simpl; rewrite <- app_assoc; reflexivity |].
    split; [constructor; [exact (Forall_inv Hone) | exact Hall] |].
    split; [exact Hout |].
    right. destruct Hend as [-> | Hend]; [simpl; lra | exact Hend].
Qed.

Lemma inject_Z_succ (n : nat) :
  inject_Z (Z.of_nat (S n)) == inject_Z (Z.of_nat n) + 1.
Proof. rewrite Nat2Z.inj_succ. unfold Z.succ. rewrite inject_Z_plus. reflexivity. Qed.

(** Each round moves the clock on by at least the smallest interval [m],
    so a number of rounds that covers the time left is enough fuel. *)
Lemma poll_loop_terminates (m : Q) :
  (forall n, 0 <= elapsed (provider n)) ->
  0 < m -> m <= 8 ->
  forall (fuel : nat) (interval : Q) (last_resp : json) (w : world),
    m <= interval ->
    deadline - now w <= inject_Z (Z.of_nat fuel) * m ->
    exists res, poll (S fuel) interval last_resp w = Some res.
Proof.
  intros Hel Hm Hm8.
  induction fuel as [| fuel IH]; intros interval last_resp w Hlo Hleft.
  - exists (Ok (None, last_resp), w). apply poll_loop_timeout.
    change (inject_Z (Z.of_nat 0)) with 0 in Hleft. lra.
  - rewrite poll_loop_S.
    destruct (Qlt_le_dec (now w) deadline) as [Hlt | Hge]; [| eexists; reflexivity].
    rewrite besttime_get_json_world.
    destruct (normalize (answer (provider (List.length (sent w)))))
      as [resp | e]; [| eexists; reflexivity].
    destruct (venues_in (last_of resp)); [eexists; reflexivity |].
    unfold sleep.
    destruct (Qlt_le_dec interval 0) as [Hneg | _]; [lra |].
    apply IH.
    + destruct (backoff_bounds m 8 interval Hm Hm8 (Qle_refl 8) Hlo) as [H _].
      exact H.
    + simpl. rewrite inject_Z_succ in Hleft.
      specialize (Hel (List.length (sent w))). lra.
Qed.

(** The loop sends progress requests only. *)
Lemma poll_loop_requests (fuel : nat) :
  forall (interval : Q) (last_resp : json) (w : world) r w',
    poll fuel interval last_resp w = Some (r, w') ->
    exists new : list request,
      sent w' = sent w ++ new
      /\ Forall (fun q => exists t : Q,
                  q = progress_request BESTTIME_BASE job_id collection_id t) new.
Proof.
  induction fuel as [| fuel IH]; intros interval last_resp w r w' Hrun.
  - discriminate.
  - rewrite poll_loop_S, besttime_get_json_world in Hrun.
    assert (Hone : Forall (fun q => exists t : Q,
                  q = progress_request BESTTIME_BASE job_id collection_id t)
              [progress_request BESTTIME_BASE job_id collection_id (now w)]).
    { constructor; [| constructor]. exists (now w). reflexivity. }
    destruct (Qlt_le_dec (now w) deadline).
    2:{ injection Hrun as <- <-. exists []. rewrite app_nil_r.
        split; [reflexivity | constructor]. }
    destruct (normalize (answer (provider (List.length (sent w))))) as [resp | e].
    2:{ injection Hrun as <- <-. eexists. split; [reflexivity | exact Hone]. }
    destruct (venues_in (last_of resp)).
    { injection Hrun as <- <-. eexists. split; [reflexivity | exact Hone]. }
    unfold sleep in Hrun.
    destruct (Qlt_le_dec interval 0).
    { injection Hrun as <- <-. eexists. split; [reflexivity | exact Hone]. }
    destruct (IH _ _ _ _ _ Hrun) as (new & Hsent & Hall).
    exists (progress_request BESTTIME_BASE job_id collection_id (now w) :: new).
    split; [rewrite Hsent; simpl; rewrite <- app_assoc; reflexivity |].
    constructor; [exact (Forall_inv Hone) | exact Hall].
Qed.

End Service.

Lemma enough_rounds (timeout m : Q) :
  0 < m -> 0 <= timeout ->
  timeout <= inject_Z (Z.of_nat (Z.to_nat (Qceiling (timeout / m)))) * m.
Proof.
  intros Hm Ht.
  assert (Hdiv : 0 <= timeout / m).
  { apply Qle_shift_div_l; [exact Hm | lra]. }
  assert (Hceil : timeout / m <= inject_Z (Qceiling (timeout / m)))
    by apply Qle_ceiling.
  assert (Hpos : (0 <= Qceiling (timeout / m))%Z).
  { rewrite Zle_Qle. change (inject_Z 0) with 0. lra. }
  rewrite Z2Nat.id by exact Hpos.
  assert (Heq : timeout == timeout / m * m) by (field; lra).
  rewrite Heq at 1.
  apply Qmult_le_compat_r; [exact Hceil | lra].
Qed.

Section Wait.

Variable BESTTIME_BASE : string.
Variable provider : nat -> exchange.
Variable query_param : string -> string -> option string.

Local Abbreviation wait fuel :=
  (wait_for_progress_and_get_venues BESTTIME_BASE provider query_param fuel).

(** The function either fails before the loop, leaving the world as it
    is, or runs the loop with a job and a collection identifier that are
    both set. *)
Lemma wait_cases (job_id collection_id progress_url : json)
    (timeout interval : Q) (w : world) :
  (exists e : exn,
      (e = ValueError "Either job_id+collection_id or progress_url must be provided"
       \/ e = TypeError)
      /\ forall fuel,
          wait fuel job_id collection_id progress_url timeout interval w
          = Some (Raise e, w))
  \/ (exists job' coll' : json,
        truthy job' = true /\ truthy coll' = true
        /\ forall fuel,
            wait fuel job_id collection_id progress_url timeout interval w
            = poll_loop BESTTIME_BASE provider fuel job' coll' (now w + timeout)
                interval JNull w).
Proof.
  unfold wait_for_progress_and_get_venues.
  destruct (truthy progress_url) eqn:Hurl.
  - destruct progress_url as [| b | x | u | l | d];
      try (left; exists TypeError; split; [right; reflexivity | reflexivity]).
    set (job' := py_or job_id (from_query query_param u "job_id")).
    set (coll' := py_or collection_id (from_query query_param u "collection_id")).
    destruct (truthy job') eqn:Hj; [destruct (truthy coll') eqn:Hc |]; simpl.
    + right. exists job', coll'. auto.
    + left. eexists. split; [left; reflexivity | reflexivity].
    + left. eexists. split; [left; reflexivity | reflexivity].
  - destruct (truthy job_id) eqn:Hj; [destruct (truthy collection_id) eqn:Hc |]; simpl.
    + right. exists job_id, collection_id. auto.
    + left. eexists. split; [left; reflexivity | reflexivity].
    + left. eexists. split; [left; reflexivity | reflexivity].
Qed.

(** C2, as the code has it. With a positive timeout and a positive
    initial interval, against a provider whose calls take between 0 and [E]
    seconds, the function terminates: [enough_fuel] rounds suffice. It ends
    with the start error (nothing sent), with venues found in the last
    response, with no venues once the deadline is reached, or with an
    exception of the HTTP call. Every progress request is sent strictly
    before the deadline, and the function returns less than one call and
    one sleep after the deadline, which can be later than the deadline. *)
Theorem wait_terminates_within_one_round_of_deadline
    (job_id collection_id progress_url : json) (timeout interval E : Q)
    (w : world) :
  (forall n, 0 <= elapsed (provider n) /\ elapsed (provider n) <= E) ->
  0 < timeout -> 0 < interval ->
  exists (r : result (option (list json) * json)) (w' : world),
    (forall fuel, (enough_fuel timeout interval <= fuel)%nat ->
        wait fuel job_id collection_id progress_url timeout interval w
        = Some (r, w'))
    /\ ((exists e, r = Raise e /\ w' = w)
        \/ loop_outcome (now w + timeout) r w')
    /\ (exists new : list request,
          sent w' = sent w ++ new
          /\ Forall (fun q => sent_at q < now w + timeout) new)
    /\ now w' < now w + timeout + E + Qmax interval 8.
Proof.
  intros Hel Ht Hi.
  assert (HE : 0 <= E) by (destruct (Hel 0%nat); lra).
  assert (HB : 8 <= Qmax interval 8) by apply Q.le_max_r.
  destruct (wait_cases job_id collection_id progress_url timeout interval w)
    as [(e & _ & Hstart) | (job' & coll' & _ & _ & Hloop)].
  - exists (Raise e), w. split; [intros fuel _; apply Hstart |].
    split; [left; exists e; split; reflexivity |].
    split; [exists []; rewrite app_nil_r; split; [reflexivity | constructor] |].
    lra.
  - set (m := Qmin interval 8).
    assert (Hm : 0 < m).
    { unfold m. destruct (Q.min_spec interval 8) as [[_ ->] | [_ ->]]; lra. }
    assert (Hm8 : m <= 8) by apply Q.le_min_r.
    assert (Hmi : m <= interval) by apply Q.le_min_l.
    destruct (poll_loop_terminates BESTTIME_BASE provider job' coll'
                (now w + timeout) m (fun n => proj1 (Hel n)) Hm Hm8
                (Z.to_nat (Qceiling (timeout / m))) interval JNull w Hmi)
      as [[r w'] Hrun].
    { pose proof (enough_rounds timeout m Hm (Qlt_le_weak _ _ Ht)). lra. }
    fold (enough_fuel timeout interval) in Hrun.
    destruct (poll_loop_sound BESTTIME_BASE provider job' coll' (now w + timeout)
                m E (Qmax interval 8) Hel Hm Hm8 HB _ _ _ _ _ _ Hmi
                (Q.le_max_l interval 8) Hrun)
      as (new & Hsent & Hall & Hout & Hend).
    exists r, w'.
    split.
    { intros fuel Hfuel. rewrite Hloop.
      exact (poll_loop_fuel_mono _ _ _ _ _ _ _ _ _ _ Hrun fuel Hfuel). }
    split; [right; exact Hout |].
    split.
    { exists new. split; [exact Hsent |].
      eapply Forall_impl; [exact Hall |].
      intros q (t & -> & Hlt). exact Hlt. }
    destruct Hend as [-> | Hend]; lra.
Qed.

(** C4, as the code has it. Every request the function sends is a GET to
    the [venues/progress] endpoint whose query holds exactly [job_id],
    [collection_id] and [format=raw], the two identifiers being set; no
    [api_key_private] is attached. *)
Theorem progress_polls_send_job_collection_and_format
    (fuel : nat) (job_id collection_id progress_url : json)
    (timeout interval : Q) (w : world)
    (r : result (option (list json) * json)) (w' : world) :
  wait fuel job_id collection_id progress_url timeout interval w = Some (r, w') ->
  exists new : list request,
    sent w' = sent w ++ new
    /\ Forall (fun q =>
          meth q = "GET"
          /\ url q = endpoint_url BESTTIME_BASE "venues/progress"
          /\ (exists job' coll' : json,
                truthy job' = true /\ truthy coll' = true
                /\ query q = [("job_id", job'); ("collection_id", coll');
                              ("format", JStr "raw")])
          /\ dict_has "api_key_private" (query q) = false) new.
Proof.
  intros Hrun.
  destruct (wait_cases job_id collection_id progress_url timeout interval w)
    as [(e & _ & Hstart) | (job' & coll' & Hj & Hc & Hloop)].
  - rewrite Hstart in Hrun. injection Hrun as <- <-.
    exists []. rewrite app_nil_r. split; [reflexivity | constructor].
  - rewrite Hloop in Hrun.
    destruct (poll_loop_requests _ _ _ _ _ _ _ _ _ _ _ Hrun) as (new & Hsent & Hall).
    exists new. split; [exact Hsent |].
    eapply Forall_impl; [exact Hall |].
    intros q (t & ->). simpl.
    split; [reflexivity |]. split; [reflexivity |].
    split; [exists job', coll'; auto | reflexivity].
Qed.

(** C3, as the code has it. Against a provider that never returns venues,
    with a timeout of 5 seconds and an initial interval of 2 seconds, the
    function makes exactly two progress attempts: one at once and one 2
    seconds after the first answer. It sleeps 2 and then 3 seconds (each
    sleep uses the interval before it is multiplied by 1.5), finds the
    deadline reached at 5 seconds plus the time the two calls took, and
    returns no venues with the last response. *)
Theorem poll_5s_2s_makes_two_attempts
    (job_id collection_id : json) (w : world) (fuel : nat) :
  truthy job_id = true -> truthy collection_id = true ->
  never_returns_venues provider ->
  (forall n, 0 <= elapsed (provider n)) ->
  elapsed (provider (List.length (sent w))) < 3 ->
  (3 <= fuel)%nat ->
  exists (resp2 : client_ret) (w' : world) (t2 : Q),
    wait fuel job_id collection_id JNull 5 2 w = Some (Ok (None, last_of resp2), w')
    /\ normalize (answer (provider (S (List.length (sent w))))) = Ok resp2
    /\ sent w' = sent w ++ [progress_request BESTTIME_BASE job_id collection_id (now w);
                            progress_request BESTTIME_BASE job_id collection_id t2]
    /\ t2 == now w + elapsed (provider (List.length (sent w))) + 2
    /\ now w' == now w + elapsed (provider (List.length (sent w)))
                 + elapsed (provider (S (List.length (sent w)))) + 5.
Proof.
  intros Hj Hc Hnever Hel Hfast Hfuel.
  destruct (Hnever (List.length (sent w))) as (resp1 & Hr1 & Hv1).
  destruct (Hnever (S (List.length (sent w)))) as (resp2 & Hr2 & Hv2).
  pose proof (Hel (List.length (sent w))) as Hl1.
  pose proof (Hel (S (List.length (sent w)))) as Hl2.
  set (w1 := after_round provider BESTTIME_BASE job_id collection_id 2 w).
  assert (Hlen : List.length (sent w1) = S (List.length (sent w))).
  { unfold w1. simpl. rewrite List.length_app. simpl. lia. }
  set (i2 := Qmin (2 * 1.5) 8).
  assert (Hi2 : i2 == 3) by reflexivity.
  set (w2 := after_round provider BESTTIME_BASE job_id collection_id i2 w1).
  exists resp2, w2, (now w1).
  assert (Hrun : poll_loop BESTTIME_BASE provider 3 job_id collection_id (now w + 5)
                   2 JNull w = Some (Ok (None, last_of resp2), w2)).
  { rewrite (poll_loop_continue _ _ _ _ _ _ _ _ _ resp1) by (try assumption; lra).
    fold w1. fold i2.
    rewrite (poll_loop_continue _ _ _ _ _ _ _ _ _ resp2);
      [| unfold w1; simpl; lra | rewrite Hlen; exact Hr2 | exact Hv2 | lra].
    fold w2. apply poll_loop_timeout.
    unfold w2, w1. simpl. rewrite List.length_app. simpl.
    rewrite Nat.add_1_r. lra. }
  split.
  { unfold wait_for_progress_and_get_venues. simpl. rewrite Hj, Hc. simpl.
    exact (poll_loop_fuel_mono _ _ _ _ _ _ _ _ _ _ Hrun fuel Hfuel). }
  split; [exact Hr2 |].
  split; [unfold w2, w1; simpl; rewrite <- app_assoc; reflexivity |].
  split; [unfold w1; simpl; reflexivity |].
  unfold w2, w1. simpl. rewrite List.length_app. simpl.
  rewrite Nat.add_1_r. lra.
Qed.

End Wait.

Section Failure.

Variable BESTTIME_BASE : string.
Variable provider : nat -> exchange.
Variables job_id collection_id : json.
Variable deadline : Q.

Local Abbreviation poll fuel :=
  (poll_loop BESTTIME_BASE provider fuel job_id collection_id deadline).

(** C1, as the code has it. When a progress call returns a provider
    failure, the loop keeps the failure body as the last response and goes
    on as for an answer without venues: it sleeps, backs off and polls
    again. If the deadline has passed after that sleep, it returns no
    venues with the failure body, in the shape of a timeout. *)
Theorem provider_failure_is_polled_again
    (fuel : nat) (interval : Q) (last_resp : json) (w : world) (r : response) :
  now w < deadline ->
  0 <= interval ->
  answer (provider (List.length (sent w))) = NetResponse r ->
  ok r = false ->
  poll (S fuel) interval last_resp w
  = poll fuel (Qmin (interval * 1.5) 8) (error_body r)
      (after_round provider BESTTIME_BASE job_id collection_id interval w)
  /\ (deadline <= now w + elapsed (provider (List.length (sent w))) + interval ->
      poll (S (S fuel)) interval last_resp w
      = Some (Ok (None, error_body r),
              after_round provider BESTTIME_BASE job_id collection_id interval w)).
Proof.
  intros Hnow Hint Hans Hok.
  assert (Hresp : normalize (answer (provider (List.length (sent w))))
                  = Ok (GotError (error_body r) (status_code r))).
  { rewrite Hans. apply normalize_failure. exact Hok. }
  split.
  - exact (poll_loop_continue _ _ _ _ _ fuel interval last_resp w _ Hnow Hresp
             (venues_in_error_body r) Hint).
  - intros Hpast.
    rewrite (poll_loop_continue _ _ _ _ _ (S fuel) interval last_resp w _ Hnow Hresp
               (venues_in_error_body r) Hint).
    apply poll_loop_timeout. exact Hpast.
Qed.

End Failure.

(** C9, as the code has it. The loop body looks for the venue list under
    [venues], [results], [items] and [found_venues], in that order, and takes
    the first name bound to a non-empty list. The fast path of the search
    handler reads [venues] and [results] only: it takes [venues] when that
    is a list, else [results] when that is a list, else nothing, so that a
    list under [items] or [found_venues] is not an immediate result. *)
Theorem venue_list_extraction :
  (forall d : pydict,
      venues_in (JDict d)
      = extract_by_priority ["venues"; "results"; "items"; "found_venues"] d)
  /\ (forall (d : pydict) (l : list json),
        dict_get "venues" d = Some (JList l) -> immediate_venues (JDict d) = l)
  /\ (forall (d : pydict) (l : list json),
        (forall l0, dict_get "venues" d <> Some (JList l0)) ->
        dict_get "results" d = Some (JList l) -> immediate_venues (JDict d) = l)
  /\ (forall d d' : pydict,
        dict_get "venues" d = dict_get "venues" d' ->
        dict_get "results" d = dict_get "results" d' ->
        immediate_venues (JDict d) = immediate_venues (JDict d')).
Proof.
  split; [| split; [| split]].
  - intros d. unfold venues_in, extract_by_priority. simpl.
    destruct (nonempty_list_at "venues" d); [reflexivity |].
    destruct (nonempty_list_at "results" d); [reflexivity |].
    destruct (nonempty_list_at "items" d); [reflexivity |].
    destruct (nonempty_list_at "found_venues" d); reflexivity.
  - intros d l Hv. unfold immediate_venues. rewrite Hv. reflexivity.
  - intros d l Hv Hr. unfold immediate_venues. rewrite Hr.
    destruct (dict_get "venues" d) as [[| | | | l0 |] |]; try reflexivity.
    exfalso. exact (Hv l0 eq_refl).
  - intros d d' Hv Hr. unfold immediate_venues. rewrite Hv, Hr. reflexivity.
Qed.

End PollFacts.

(** ** The service on concrete providers *)

Module PollScenarios.
Import BestTime PollVocabulary PollInputs PollFacts.
Local Open Scope Q_scope.

Local Abbreviation wait provider :=
  (wait_for_progress_and_get_venues base provider no_query 10
     (JStr "job") (JStr "col") JNull).

Lemma run_pending :
  wait always_pending 5 2 w0
  = Some (Ok (None, JDict [("job_finished", JBool false)]), pending_end).
Proof. vm_compute. reflexivity. Qed.

(** C1 fails as stated: after a failed progress call the loop polls again
    and returns the venues of the next answer; when every call fails, the
    run ends as a timeout does, with no venues and the failure body. *)
Lemma provider_failure_does_not_end_the_loop :
  answer (fails_then_venues 0) = NetResponse failure
  /\ ok failure = false
  /\ match wait fails_then_venues 30 2 w0 with
     | Some (Ok (Some venues, _), w') =>
         venues = [cafe] /\ List.length (sent w') = 2%nat
     | _ => False
     end
  /\ match wait always_failing 5 2 w0 with
     | Some (Ok (None, last_resp), w') =>
         last_resp = error_body failure /\ List.length (sent w') = 2%nat
     | _ => False
     end.
Proof.
  split; [reflexivity |]. split; [reflexivity |].
  split; vm_compute; split; reflexivity.
Qed.

Lemma provider_failure_is_polled_again_witness :
  poll_loop base always_failing 3 (JStr "job") (JStr "col") 2 2 JNull w0
  = poll_loop base always_failing 2 (JStr "job") (JStr "col") 2
      (Qmin (2 * 1.5) 8) (error_body failure)
      (after_round always_failing base (JStr "job") (JStr "col") 2 w0)
  /\ poll_loop base always_failing 4 (JStr "job") (JStr "col") 2 2 JNull w0
     = Some (Ok (None, error_body failure),
             after_round always_failing base (JStr "job") (JStr "col") 2 w0).
Proof.
  destruct (provider_failure_is_polled_again base always_failing
              (JStr "job") (JStr "col") 2 2 2 JNull w0 failure)
    as [Hround Htimeout].
  - reflexivity.
  - discriminate.
  - reflexivity.
  - reflexivity.
  - split; [exact Hround |]. apply Htimeout. discriminate.
Defined.

(** C2 fails as stated: with a timeout of 4 seconds and an interval of 3
    seconds the function returns at 7.5 seconds, after the deadline. *)
Lemma poll_loop_returns_after_the_deadline :
  match wait always_pending 4 3 w0 with
  | Some (Ok (None, _), w') => now w0 + 4 < now w' /\ now w' == 7.5
  | _ => False
  end.
Proof. vm_compute. split; reflexivity. Qed.

Lemma wait_terminates_witness :
  exists (r : result (option (list json) * json)) (w' : world),
    (forall fuel, (enough_fuel 5 2 <= fuel)%nat ->
        wait_for_progress_and_get_venues base always_pending no_query fuel
          (JStr "job") (JStr "col") JNull 5 2 w0 = Some (r, w'))
    /\ ((exists e, r = Raise e /\ w' = w0) \/ loop_outcome (now w0 + 5) r w')
    /\ (exists new : list request,
          sent w' = sent w0 ++ new
          /\ Forall (fun q => sent_at q < now w0 + 5) new)
    /\ now w' < now w0 + 5 + 0 + Qmax 2 8.
Proof.
  apply (wait_terminates_within_one_round_of_deadline base always_pending no_query
           (JStr "job") (JStr "col") JNull 5 2 0 w0).
  - intros n. split; discriminate.
  - reflexivity.
  - reflexivity.
Defined.

(** C3 fails as stated: with a timeout of 5 seconds and an interval of 2
    seconds there are two attempts, at 0 and 2 seconds, and the timeout is
    declared at 5 seconds; there is no third attempt at 4 seconds. *)
Lemma deadline_5_interval_2_makes_two_attempts_only :
  never_returns_venues always_pending
  /\ match wait always_pending 5 2 w0 with
     | Some (Ok (None, _), w') =>
         List.length (sent w') = 2%nat
         /\ Forall2 Qeq (map sent_at (sent w')) [0; 2]
         /\ now w' == 5
     | _ => False
     end.
Proof.
  split.
  - intros n. eexists. split; reflexivity.
  - vm_compute. repeat split. repeat constructor.
Qed.

Lemma poll_5s_2s_witness :
  exists (resp2 : client_ret) (w' : world) (t2 : Q),
    wait_for_progress_and_get_venues base always_pending no_query 3
      (JStr "job") (JStr "col") JNull 5 2 w0
    = Some (Ok (None, last_of resp2), w')
    /\ normalize (answer (always_pending (S (List.length (sent w0))))) = Ok resp2
    /\ sent w' = sent w0 ++ [progress_request base (JStr "job") (JStr "col") (now w0);
                             progress_request base (JStr "job") (JStr "col") t2]
    /\ t2 == now w0 + elapsed (always_pending (List.length (sent w0))) + 2
    /\ now w' == now w0 + elapsed (always_pending (List.length (sent w0)))
                 + elapsed (always_pending (S (List.length (sent w0)))) + 5.
Proof.
  apply (poll_5s_2s_makes_two_attempts base always_pending no_query
           (JStr "job") (JStr "col") w0 3).
  - reflexivity.
  - reflexivity.
  - intros n. eexists. split; reflexivity.
  - intros n. discriminate.
  - reflexivity.
  - lia.
Defined.

(** C4 fails as stated: the progress requests carry no [api_key_private]. *)
Lemma progress_request_has_no_api_key :
  match wait always_pending 5 2 w0 with
  | Some (_, w') =>
      map (fun q => (meth q, url q, map fst (query q),
                     dict_has "api_key_private" (query q))) (sent w')
      = [("GET", "https://besttime.app/api/v1/venues/progress",
          ["job_id"; "collection_id"; "format"], false);
         ("GET", "https://besttime.app/api/v1/venues/progress",
          ["job_id"; "collection_id"; "format"], false)]
  | None => False
  end.
Proof. vm_compute. reflexivity. Qed.

Lemma progress_polls_witness :
  exists new : list request,
    sent pending_end = sent w0 ++ new
    /\ Forall (fun q =>
          meth q = "GET"
          /\ url q = endpoint_url base "venues/progress"
          /\ (exists job' coll' : json,
                truthy job' = true /\ truthy coll' = true
                /\ query q = [("job_id", job'); ("collection_id", coll');
                              ("format", JStr "raw")])
          /\ dict_has "api_key_private" (query q) = false) new.
Proof.
  apply (progress_polls_send_job_collection_and_format base always_pending no_query
           10 (JStr "job") (JStr "col") JNull 5 2 w0
           (Ok (None, JDict [("job_finished", JBool false)])) pending_end).
  exact run_pending.
Defined.

(** C9 fails as stated: a search response whose only venue list is under
    [items] or [found_venues] gives no immediate result; without a job to
    poll, the handler answers that no venues were found. The loop body does
    find the list in the same response. *)
Lemma search_response_with_items_has_no_immediate_venues :
  immediate_venues (JDict [("status", JStr "OK"); ("items", JList [cafe])]) = []
  /\ venues_in (JDict [("status", JStr "OK"); ("items", JList [cafe])]) = Some [cafe]
  /\ match foot_traffic_closest secret base search_has_items no_query 10
             (JStr "cafe") (JStr "14.4516") (JStr "120.9773") (JStr "1500")
             (JStr "100") 30 2 w0 with
     | Some (NoVenues _, _) => True
     | _ => False
     end
  /\ match foot_traffic_closest secret base search_has_found_venues no_query 10
             (JStr "cafe") (JStr "14.4516") (JStr "120.9773") (JStr "1500")
             (JStr "100") 30 2 w0 with
     | Some (NoVenues _, _) => True
     | _ => False
     end.
Proof.
  split; [reflexivity |]. split; [reflexivity |].
  split; vm_compute; exact I.
Qed.

Lemma venue_list_extraction_witness :
  immediate_venues (JDict [("status", JStr "OK"); ("results", JList [cafe])]) = [cafe].
Proof.
  destruct venue_list_extraction as (_ & _ & Hresults & _).
  apply Hresults.
  - intros l0. discriminate.
  - reflexivity.
Defined.

End PollScenarios.

(** * More properties *)

(** ** The distance *)

Module GeoMathMore.
Import GeoMath GeoMathFacts.
Local Open Scope R_scope.






End GeoMathMore.

(** ** The mean *)

Module AverageMore.
Import FootTraffic RankingInputs AverageFacts.
Local Open Scope R_scope.




End AverageMore.

(** ** The ranking *)

Module RankingMore.
Import GeoMath FootTraffic RankingVocabulary RankingMoreVocabulary RankingInputs.
Import RankingFacts RankingScenarios.
Local Open Scope R_scope.

Section More.
Variable float_of_str : string -> option R.
Variables target_lat target_lon : R.

Local Abbreviation collect := (collect_candidates float_of_str).

Lemma collect_candidates_skip (v : nat) (rest cands : list nat) (h : list pydict)
    (d : pydict) :
  h !! v = Some d -> passes_filter d = false ->
  collect (v :: rest) target_lat target_lon cands h
  = collect rest target_lat target_lon cands h.
Proof.
  intros Hd Hp. simpl. rewrite Hd. unfold passes_filter in Hp.
  destruct (truthy (get d "forecast")); simpl in *; [| reflexivity].
  apply negb_false_iff in Hp. rewrite Hp. reflexivity.
Qed.

Lemma collect_candidates_raise (v : nat) (rest cands : list nat) (h : list pydict)
    (d : pydict) (e : exn) :
  h !! v = Some d -> passes_filter d = true ->
  conversions float_of_str d = Raise e ->
  collect (v :: rest) target_lat target_lon cands h = (Raise e, h).
Proof.
  intros Hd Hp Hn. simpl. rewrite Hd. unfold passes_filter in Hp.
  apply andb_true_iff in Hp as [Hf Hc]. apply negb_true_iff in Hc.
  rewrite Hf, Hc. simpl. unfold conversions in Hn.
  destruct (py_float float_of_str (get d "venue_lat")) as [flat | e1]; simpl in Hn;
    [| congruence].
  destruct (py_float float_of_str (get d "venue_lon")) as [flon | e2]; simpl in Hn;
    [| congruence].
  destruct (average_day_mean d) as [avg | e3]; simpl in Hn; congruence.
Qed.

Lemma conversions_ok (d : pydict) (flat flon avg : R) :
  conversions float_of_str d = Ok (flat, flon, avg) ->
  py_float float_of_str (get d "venue_lat") = Ok flat
  /\ py_float float_of_str (get d "venue_lon") = Ok flon
  /\ average_day_mean d = Ok avg.
Proof.
  unfold conversions.
  destruct (py_float float_of_str (get d "venue_lat")); simpl; [| discriminate].
  destruct (py_float float_of_str (get d "venue_lon")); simpl; [| discriminate].
  destruct (average_day_mean d); simpl; [| discriminate].
  intros [= <- <- <-]. auto.
Qed.

Lemma passes_filter_true (d : pydict) :
  passes_filter d = true ->
  truthy (get d "forecast") = true
  /\ is_none (get d "venue_lat") = false /\ is_none (get d "venue_lon") = false.
Proof.
  unfold passes_filter. intros Hp.
  apply andb_true_iff in Hp as [Hf Hc]. apply negb_true_iff in Hc.
  apply orb_false_iff in Hc. tauto.
Qed.

(** One round of step 1 on a venue that passes the filter and converts. *)
Lemma collect_candidates_take (v : nat) (rest cands : list nat) (h : list pydict)
    (d : pydict) (flat flon avg : R) :
  h !! v = Some d -> passes_filter d = true ->
  conversions float_of_str d = Ok (flat, flon, avg) ->
  collect (v :: rest) target_lat target_lon cands h
  = collect rest target_lat target_lon (cands ++ [List.length h])
      (h ++ [enrich (haversine_meters target_lat target_lon flat flon) avg d]).
Proof.
  intros Hd Hp Hc.
  destruct (passes_filter_true d Hp) as (Hf & Hlat & Hlon).
  destruct (conversions_ok d flat flon avg Hc) as (H1 & H2 & H3).
  exact (collect_candidates_keep float_of_str target_lat target_lon v rest cands
           h d flat flon avg Hd Hf Hlat Hlon H1 H2 H3).
Qed.

(** Step 1 on a list equals step 1 on the venues of it that pass the filter. *)
Lemma collect_candidates_filter (h0 : list pydict) (venues : list nat) :
  Forall (fun v => (v < List.length h0)%nat) venues ->
  forall (cands : list nat) (news0 : list pydict),
    collect venues target_lat target_lon cands (h0 ++ news0)
    = collect (List.filter (eligible h0) venues) target_lat target_lon cands
        (h0 ++ news0).
Proof.
  induction venues as [| v rest IH]; intros Hvalid cands news0; [reflexivity |].
  inversion Hvalid as [| ? ? Hv Hrest]; subst.
  destruct (lookup_lt_is_Some_2 h0 v Hv) as [d Hd].
  assert (Hd' : (h0 ++ news0) !! v = Some d) by (apply lookup_app_l_Some; exact Hd).
  cbn [List.filter]. unfold eligible at 1. rewrite Hd.
  destruct (passes_filter d) eqn:Hp.
  - destruct (conversions float_of_str d) as [[[flat flon] avg] | e] eqn:Hc.
    + rewrite !(collect_candidates_take v _ cands (h0 ++ news0) d flat flon avg Hd' Hp Hc).
      rewrite <- !app_assoc. apply IH. exact Hrest.
    + rewrite !(collect_candidates_raise v _ cands _ d e Hd' Hp Hc). reflexivity.
  - rewrite (collect_candidates_skip v rest cands _ d Hd' Hp). apply IH. exact Hrest.
Qed.

(** How many objects step 1 appends when it does not raise. *)
Lemma collect_candidates_count (h0 : list pydict) (venues : list nat) :
  Forall (fun v => (v < List.length h0)%nat) venues ->
  forall (cands : list nat) (news0 : list pydict) out h',
    collect venues target_lat target_lon cands (h0 ++ news0) = (Ok out, h') ->
    List.length h'
    = (List.length h0 + List.length news0
       + List.length (List.filter (eligible h0) venues))%nat.
Proof.
  induction venues as [| v rest IH]; intros Hvalid cands news0 out h' Hrun.
  - simpl in Hrun. injection Hrun as _ <-. rewrite List.length_app. simpl. lia.
  - inversion Hvalid as [| ? ? Hv Hrest]; subst.
    destruct (lookup_lt_is_Some_2 h0 v Hv) as [d Hd].
    assert (Hd' : (h0 ++ news0) !! v = Some d) by (apply lookup_app_l_Some; exact Hd).
    cbn [List.filter]. unfold eligible at 1. rewrite Hd.
    destruct (passes_filter d) eqn:Hp.
    + destruct (conversions float_of_str d) as [[[flat flon] avg] | e] eqn:Hc.
      * rewrite (collect_candidates_take v _ cands (h0 ++ news0) d flat flon avg Hd' Hp Hc)
          in Hrun.
        rewrite <- app_assoc in Hrun.
        rewrite (IH Hrest _ _ _ _ Hrun). rewrite List.length_app. simpl. lia.
      * rewrite (collect_candidates_raise v _ cands _ d e Hd' Hp Hc) in Hrun.
        discriminate.
    + rewrite (collect_candidates_skip v rest cands _ d Hd' Hp) in Hrun.
      exact (IH Hrest _ _ _ _ Hrun).
Qed.


Local Abbreviation rank := (top_closest_with_foot_traffic float_of_str).

(** X4. The venues that fail the filter have no influence on the call: ranking
    a list is ranking the venues of it that pass the filter. *)
Theorem ranking_ignores_filtered_venues
    (venues : list nat) (top_n : Z) (h : list pydict) :
  Forall (fun v => (v < List.length h)%nat) venues ->
  rank venues target_lat target_lon top_n h
  = rank (List.filter (eligible h) venues) target_lat target_lon top_n h.
Proof.
  intros Hvalid. unfold top_closest_with_foot_traffic.
  pose proof (collect_candidates_filter h venues Hvalid [] []) as H.
  rewrite !app_nil_r in H. rewrite H. reflexivity.
Qed.

(** X5. For a bound that is not negative, the call returns exactly
    [min top_n k] entries, [k] being the number of
    venues that pass the filter. *)
Theorem ranking_returns_min_of_top_n_and_candidates
    (venues : list nat) (top_n : Z) (h : list pydict) (out : list nat)
    (h' : list pydict) :
  Forall (fun v => (v < List.length h)%nat) venues ->
  (0 <= top_n)%Z ->
  rank venues target_lat target_lon top_n h = (Ok out, h') ->
  List.length out
  = Nat.min (Z.to_nat top_n) (List.length (List.filter (eligible h) venues)).
Proof.
  intros Hvalid Hn Hrun.
  destruct (top_closest_ok _ _ _ _ _ _ _ _ Hvalid Hrun)
    as (news & sorted & Hh' & _ & Hperm & -> & _).
  unfold top_closest_with_foot_traffic in Hrun.
  destruct (collect_candidates float_of_str venues target_lat target_lon [] h)
    as [[cands | e] h1] eqn:Hc; [| discriminate].
  assert (Hh1 : h1 = h').
  { destruct (keys_of h1 cands); [injection Hrun as _ <-; reflexivity | discriminate]. }
  subst h1. rewrite <- (app_nil_r h) in Hc.
  pose proof (collect_candidates_count h venues Hvalid _ _ _ _ Hc) as Hcount.
  rewrite Hh', List.length_app in Hcount. simpl in Hcount.
  unfold slice_to. destruct (Z.leb_spec 0 top_n) as [_ | Hneg]; [| lia].
  rewrite length_take. rewrite (Permutation_length Hperm), length_seq. lia.
Qed.


(** X7. The returned entries are the nearest candidates: a returned entry is
    never farther from the target than a candidate that is not returned. *)
Theorem ranking_returns_the_nearest
    (venues : list nat) (top_n : Z) (h : list pydict) (out : list nat)
    (h' : list pydict) :
  Forall (fun v => (v < List.length h)%nat) venues ->
  (0 <= top_n)%Z ->
  rank venues target_lat target_lon top_n h = (Ok out, h') ->
  forall x y : nat,
    x ∈ out -> (List.length h <= y < List.length h')%nat -> y ∉ out ->
    exists dx ax dy ay,
      ranked_entry float_of_str h target_lat target_lon venues h' x dx ax
      /\ ranked_entry float_of_str h target_lat target_lon venues h' y dy ay
      /\ dx <= dy.
Proof.
  intros Hvalid Hn Hrun x y Hx Hy Hny.
  destruct (top_closest_ok _ _ _ _ _ _ _ _ Hvalid Hrun)
    as (news & sorted & -> & Hall & Hperm & -> & Hord).
  unfold slice_to in *. destruct (Z.leb_spec 0 top_n) as [_ | Hneg]; [| lia].
  apply elem_of_take in Hx as (i & Hi & Hin).
  assert (Hys : y ∈ sorted).
  { rewrite Hperm. apply elem_of_seq. rewrite List.length_app in Hy. lia. }
  apply list_elem_of_lookup_1 in Hys as [j Hj].
  assert (Hij : (i < j)%nat).
  { destruct (le_lt_dec (Z.to_nat top_n) j) as [Hge | Hlt]; [lia |].
    exfalso. apply Hny. apply elem_of_take. exists j. auto. }
  destruct (sorted_entries _ _ _ _ _ _ _ _ _ Hall Hperm Hi) as (dx & ax & Ex).
  destruct (sorted_entries _ _ _ _ _ _ _ _ _ Hall Hperm Hj) as (dy & ay & Ey).
  exists dx, ax, dy, ay. split; [exact Ex |]. split; [exact Ey |].
  destruct (Hord _ _ _ _ Hij Hi Hj) as (ka & kb & Hka & Hkb & Hle).
  rewrite (ranked_entry_key _ _ _ _ _ _ _ _ _ Ex) in Hka.
  rewrite (ranked_entry_key _ _ _ _ _ _ _ _ _ Ey) in Hkb.
  injection Hka as <-. injection Hkb as <-.
  unfold key_le in Hle. simpl in Hle. lra.
Qed.

End More.

#[local] Arguments haversine_meters : simpl never.

Lemma ranking_ignores_filtered_venues_witness :
  top_closest_with_foot_traffic no_parse [0%nat; 1%nat] 14 120 2 [closed; quiet]
  = top_closest_with_foot_traffic no_parse
      (List.filter (eligible [closed; quiet]) [0%nat; 1%nat]) 14 120 2 [closed; quiet].
Proof.
  apply (ranking_ignores_filtered_venues no_parse 14 120 [0%nat; 1%nat] 2
           [closed; quiet]).
  repeat constructor.
Defined.

Lemma ranking_returns_min_witness :
  List.length (slice_to 1 [3%nat; 2%nat])
  = Nat.min (Z.to_nat 1)
      (List.length (List.filter (eligible [quiet; busy]) [0%nat; 1%nat])).
Proof.
  apply (ranking_returns_min_of_top_n_and_candidates no_parse 14 120
           [0%nat; 1%nat] 1 [quiet; busy] (slice_to 1 [3%nat; 2%nat]) tied_store).
  - repeat constructor.
  - lia.
  - exact (run_tied_top 1).
Defined.


Lemma ranking_returns_the_nearest_witness :
  exists dx ax dy ay,
    ranked_entry no_parse [quiet; busy] 14 120 [0%nat; 1%nat] tied_store 3%nat dx ax
    /\ ranked_entry no_parse [quiet; busy] 14 120 [0%nat; 1%nat] tied_store 2%nat dy ay
    /\ dx <= dy.
Proof.
  apply (ranking_returns_the_nearest no_parse 14 120 [0%nat; 1%nat] 1
           [quiet; busy] (slice_to 1 [3%nat; 2%nat]) tied_store).
  - repeat constructor.
  - lia.
  - exact (run_tied_top 1).
  - left.
  - simpl. lia.
  - intros H. apply list_elem_of_singleton in H. discriminate.
Defined.

End RankingMore.

(** ** The client and the poll loop *)

Module PollMore.
Import BestTime PollVocabulary PollInputs PollMoreVocabulary PollFacts RankingFacts.
Local Open Scope Q_scope.

Lemma lstrip_slashes (n : nat) (s : string) :
  lstrip_slash (slashes n +:+ s) = lstrip_slash s.
Proof. induction n as [| n IH]; simpl; [reflexivity | exact IH]. Qed.

Lemma rstrip_slash_slashes (n : nat) : rstrip_slash (slashes n) = EmptyString.
Proof. induction n as [| n IH]; simpl; [reflexivity | rewrite IH; reflexivity]. Qed.

Lemma rstrip_slashes (n : nat) (s : string) :
  rstrip_slash (s +:+ slashes n) = rstrip_slash s.
Proof.
  induction s as [| c s IH]; simpl.
  - apply rstrip_slash_slashes.
  - rewrite IH. reflexivity.
Qed.


Lemma rstrip_slash_no_trailing (s : string) :
  forall t, rstrip_slash s <> t +:+ "/".
Proof.
  induction s as [| c s IH]; intros t; simpl.
  - destruct t; discriminate.
  - destruct (rstrip_slash s) as [| c' r] eqn:E.
    + destruct (Ascii.eqb c "/"%char) eqn:Ec.
      * destruct t; discriminate.
      * destruct t as [| c0 t]; simpl.
        -- intros [= ->]. rewrite Ascii.eqb_refl in Ec. discriminate.
        -- destruct t; discriminate.
    + destruct t as [| c0 t]; simpl; [discriminate |].
      intros [= -> H]. exact (IH t H).
Qed.

Lemma lstrip_slash_no_leading (s : string) :
  forall t, lstrip_slash s <> "/" +:+ t.
Proof.
  induction s as [| c s IH]; intros t; simpl; [discriminate |].
  destruct (Ascii.eqb c "/"%char) eqn:Ec; [apply IH |].
  intros [= -> _]. rewrite Ascii.eqb_refl in Ec. discriminate.
Qed.

Section MoreService.
Variable BESTTIME_BASE : string.
Variable provider : nat -> exchange.
Variables job_id collection_id : json.
Variable deadline : Q.

Local Abbreviation poll fuel :=
  (poll_loop BESTTIME_BASE provider fuel job_id collection_id deadline).
Local Abbreviation rounds :=
  (after_rounds provider BESTTIME_BASE job_id collection_id).

(** The venue list the loop returns is the one found in the last
    response. *)
Lemma poll_loop_returns_found (fuel : nat) :
  forall (interval : Q) (last_resp : json) (w : world) venues last w',
    poll fuel interval last_resp w = Some (Ok (Some venues, last), w') ->
    venues_in last = Some venues.
Proof.
  induction fuel as [| fuel IH]; intros interval last_resp w venues last w' Hrun.
  - discriminate.
  - rewrite poll_loop_S, besttime_get_json_world in Hrun.
    destruct (Qlt_le_dec (now w) deadline); [| discriminate].
    destruct (normalize (answer (provider (List.length (sent w))))) as [resp | e];
      [| discriminate].
    destruct (venues_in (last_of resp)) as [vs |] eqn:Hv.
    { injection Hrun as <- <- <-. exact Hv. }
    unfold sleep in Hrun.
    destruct (Qlt_le_dec interval 0); [discriminate |].
    exact (IH _ _ _ _ _ _ Hrun).
Qed.

Lemma after_rounds_S (n : nat) (interval : Q) (w : world) :
  rounds (S n) interval w
  = (Qmin (fst (rounds n interval w) * 1.5) 8,
     after_round provider BESTTIME_BASE job_id collection_id
       (fst (rounds n interval w)) (snd (rounds n interval w))).
Proof.
  revert interval w. induction n as [| n IH]; intros interval w.
  - reflexivity.
  - change (rounds (S (S n)) interval w)
      with (rounds (S n) (Qmin (interval * 1.5) 8)
              (after_round provider BESTTIME_BASE job_id collection_id interval w)).
    rewrite IH. reflexivity.
Qed.

Lemma after_rounds_sent (n : nat) :
  forall (interval : Q) (w : world),
    List.length (sent (snd (rounds n interval w))) = (List.length (sent w) + n)%nat.
Proof.
  induction n as [| n IH]; intros interval w; simpl.
  - lia.
  - rewrite IH. simpl. rewrite List.length_app. simpl. lia.
Qed.

Lemma after_rounds_interval_nonneg (n : nat) :
  forall (interval : Q) (w : world),
    0 <= interval -> 0 <= fst (rounds n interval w).
Proof.
  induction n as [| n IH]; intros interval w Hi; simpl; [exact Hi |].
  apply IH. apply Q.min_glb; lra.
Qed.

Lemma after_rounds_now_mono (n : nat) :
  (forall m, 0 <= elapsed (provider m)) ->
  forall (interval : Q) (w : world),
    0 <= interval -> now w <= now (snd (rounds n interval w)).
Proof.
  intros Hel. induction n as [| n IH]; intros interval w Hi; simpl; [lra |].
  eapply Qle_trans; [| apply IH; apply Q.min_glb; lra].
  simpl. specialize (Hel (List.length (sent w))). lra.
Qed.

(** [n] rounds without venues, all begun before the deadline. *)
Lemma poll_loop_rounds (n : nat) :
  (forall m, 0 <= elapsed (provider m)) ->
  forall (fuel : nat) (interval : Q) (last_resp : json) (w : world),
    0 <= interval ->
    (forall j, (j < n)%nat -> exists resp,
        normalize (answer (provider (List.length (sent w) + j))) = Ok resp
        /\ venues_in (last_of resp) = None) ->
    (forall j, (j < n)%nat -> now (snd (rounds j interval w)) < deadline) ->
    exists last',
      poll (n + fuel) interval last_resp w
      = poll fuel (fst (rounds n interval w)) last' (snd (rounds n interval w))
      /\ (n = 0%nat -> last' = last_resp)
      /\ (forall k resp, n = S k ->
            normalize (answer (provider (List.length (sent w) + k))) = Ok resp ->
            last' = last_of resp).
Proof.
  intros Hel. induction n as [| n IH]; intros fuel interval last_resp w Hi Hno Hbefore.
  - exists last_resp. split; [reflexivity |]. split; [reflexivity | discriminate].
  - destruct (Hno 0%nat ltac:(lia)) as (resp0 & Hr0 & Hv0).
    rewrite Nat.add_0_r in Hr0.
    pose proof (Hbefore 0%nat ltac:(lia)) as Hnow. simpl in Hnow.
    change (S n + fuel)%nat with (S (n + fuel)).
    rewrite (poll_loop_continue _ _ _ _ _ _ _ _ _ resp0 Hnow Hr0 Hv0 Hi).
    set (w1 := after_round provider BESTTIME_BASE job_id collection_id interval w).
    assert (Hlen : List.length (sent w1) = S (List.length (sent w))).
    { unfold w1. simpl. rewrite List.length_app. simpl. lia. }
    destruct (IH fuel (Qmin (interval * 1.5) 8) (last_of resp0) w1) as (last' & Heq & H0 & HS).
    + apply Q.min_glb; lra.
    + intros j Hj. destruct (Hno (S j) ltac:(lia)) as (resp & Hr & Hv).
      exists resp. rewrite Hlen. replace (S (List.length (sent w)) + j)%nat
        with (List.length (sent w) + S j)%nat by lia. auto.
    + intros j Hj. exact (Hbefore (S j) ltac:(lia)).
    + exists last'. split; [exact Heq |]. split; [discriminate |].
      intros k resp [= <-] Hresp.
      destruct n as [| n'].
      * rewrite Nat.add_0_r in Hresp. rewrite Hr0 in Hresp. injection Hresp as <-.
        apply H0. reflexivity.
      * apply (HS n' resp eq_refl). rewrite Hlen.
        replace (S (List.length (sent w)) + n')%nat
          with (List.length (sent w) + S n')%nat by lia. exact Hresp.
Qed.

Lemma poll_loop_none_after_deadline (fuel : nat) :
  forall (interval : Q) (last_resp : json) (w : world) last w',
    poll fuel interval last_resp w = Some (Ok (None, last), w') ->
    deadline <= now w'.
Proof.
  induction fuel as [| fuel IH]; intros interval last_resp w last w' Hrun.
  - discriminate.
  - rewrite poll_loop_S, besttime_get_json_world in Hrun.
    destruct (Qlt_le_dec (now w) deadline) as [_ | Hge].
    2:{ injection Hrun as _ <-. exact Hge. }
    destruct (normalize (answer (provider (List.length (sent w))))) as [resp | e];
      [| discriminate].
    destruct (venues_in (last_of resp)) as [vs |]; [discriminate |].
    unfold sleep in Hrun.
    destruct (Qlt_le_dec interval 0); [discriminate |].
    exact (IH _ _ _ _ _ Hrun).
Qed.

Lemma after_rounds_now_le (n j : nat) (interval : Q) (w : world) :
  (forall m, 0 <= elapsed (provider m)) -> 0 <= interval -> (j <= n)%nat ->
  now (snd (rounds j interval w)) <= now (snd (rounds n interval w)).
Proof.
  intros Hel Hi Hjn. induction Hjn as [| n Hjn IH]; [lra |].
  eapply Qle_trans; [exact IH |].
  rewrite after_rounds_S. simpl.
  pose proof (after_rounds_interval_nonneg n interval w Hi).
  specialize (Hel (List.length (sent (snd (rounds n interval w))))). lra.
Qed.




End MoreService.

(** X8. The URL of a call is the base and the endpoint joined by exactly one
    slash: slashes at the end of the base and at the start of the endpoint
    make no difference, the part before the joining slash does not end
    with a slash and the part after it does not start with one. *)
Theorem endpoint_url_joins_with_one_slash :
  (forall (base endpoint : string) (n m : nat),
      endpoint_url (base +:+ slashes n) (slashes m +:+ endpoint)
      = endpoint_url base endpoint)
  /\ (forall base endpoint : string,
        exists b e : string,
          endpoint_url base endpoint = b +:+ "/" +:+ e
          /\ (forall t, b <> t +:+ "/")
          /\ (forall t, e <> "/" +:+ t)).
Proof.
  split.
  - intros base endpoint n m.
    unfold endpoint_url. rewrite rstrip_slashes, lstrip_slashes. reflexivity.
  - intros base endpoint.
    exists (rstrip_slash base), (lstrip_slash endpoint).
    split; [reflexivity |].
    split; [apply rstrip_slash_no_trailing | apply lstrip_slash_no_leading].
Qed.

Lemma venues_in_nonempty (last : json) (venues : list json) :
  venues_in last = Some venues ->
  venues <> []
  /\ exists (d : pydict) (key : string),
      last = JDict d
      /\ In key ["venues"; "results"; "items"; "found_venues"]
      /\ dict_get key d = Some (JList venues).
Proof.
  destruct last as [| | | | | d]; simpl; try discriminate.
  assert (Hat : forall key vs, nonempty_list_at key d = Some vs ->
                 vs <> [] /\ dict_get key d = Some (JList vs)).
  { intros key vs. unfold nonempty_list_at.
    destruct (dict_get key d) as [[| | | | [| v l] |] |]; try discriminate.
    intros [= <-]. split; [discriminate | reflexivity]. }
  destruct (nonempty_list_at "venues" d) as [vs |] eqn:E0.
  { intros [= <-]. destruct (Hat _ _ E0). split; [assumption |].
    exists d, "venues". split; [reflexivity |]. split; [simpl; tauto | assumption]. }
  destruct (nonempty_list_at "results" d) as [vs |] eqn:E1.
  { intros [= <-]. destruct (Hat _ _ E1). split; [assumption |].
    exists d, "results". split; [reflexivity |]. split; [simpl; tauto | assumption]. }
  destruct (nonempty_list_at "items" d) as [vs |] eqn:E2.
  { intros [= <-]. destruct (Hat _ _ E2). split; [assumption |].
    exists d, "items". split; [reflexivity |]. split; [simpl; tauto | assumption]. }
  destruct (nonempty_list_at "found_venues" d) as [vs |] eqn:E3; [| discriminate].
  intros [= <-]. destruct (Hat _ _ E3). split; [assumption |].
  exists d, "found_venues". split; [reflexivity |]. split; [simpl; tauto | assumption].
Qed.

Section MoreWait.
Variable BESTTIME_PRIVATE_KEY : option string.
Variable BESTTIME_BASE : string.
Variable provider : nat -> exchange.
Variable query_param : string -> string -> option string.

Local Abbreviation wait fuel :=
  (wait_for_progress_and_get_venues BESTTIME_BASE provider query_param fuel).
Local Abbreviation post :=
  (besttime_post_qs BESTTIME_PRIVATE_KEY BESTTIME_BASE provider).

Lemma wait_with_both_ids (fuel : nat) (job_id collection_id : json)
    (timeout interval : Q) (w : world) :
  truthy job_id = true -> truthy collection_id = true ->
  wait fuel job_id collection_id JNull timeout interval w
  = poll_loop BESTTIME_BASE provider fuel job_id collection_id (now w + timeout)
      interval JNull w.
Proof.
  intros Hj Hc. unfold wait_for_progress_and_get_venues. simpl.
  rewrite Hj, Hc. reflexivity.
Qed.

(** X9. When the first [n] answers hold no venues and the next one does,
    and that call is begun before the deadline, the function returns the
    venues of that answer together with it, after exactly [n + 1] requests
    and without a sleep after the last one. *)
Theorem wait_returns_venues_of_first_ready_answer
    (job_id collection_id : json) (timeout interval : Q) (w : world)
    (n fuel : nat) (resp : client_ret) (venues : list json) :
  truthy job_id = true -> truthy collection_id = true ->
  (forall m, 0 <= elapsed (provider m)) ->
  0 <= interval ->
  (forall j, (j < n)%nat -> exists r,
      normalize (answer (provider (List.length (sent w) + j))) = Ok r
      /\ venues_in (last_of r) = None) ->
  normalize (answer (provider (List.length (sent w) + n))) = Ok resp ->
  venues_in (last_of resp) = Some venues ->
  now (snd (after_rounds provider BESTTIME_BASE job_id collection_id n interval w))
  < now w + timeout ->
  (n < fuel)%nat ->
  exists w' : world,
    wait fuel job_id collection_id JNull timeout interval w
    = Some (Ok (Some venues, last_of resp), w')
    /\ List.length (sent w') = (List.length (sent w) + n + 1)%nat
    /\ now w'
       == now (snd (after_rounds provider BESTTIME_BASE job_id collection_id n
                      interval w))
          + elapsed (provider (List.length (sent w) + n)).
Proof.
  intros Hj Hc Hel Hi Hno Hresp Hv Hbefore Hfuel.
  set (wn := snd (after_rounds provider BESTTIME_BASE job_id collection_id n interval w))
    in *.
  set (i_n := fst (after_rounds provider BESTTIME_BASE job_id collection_id n interval w)).
  assert (Hlen : List.length (sent wn) = (List.length (sent w) + n)%nat)
    by apply after_rounds_sent.
  destruct (poll_loop_rounds BESTTIME_BASE provider job_id collection_id
              (now w + timeout) n Hel 1 interval JNull w Hi Hno) as (last' & Heq & _).
  { intros j Hjn. eapply Qle_lt_trans; [| exact Hbefore].
    apply after_rounds_now_le; [exact Hel | exact Hi | lia]. }
  fold i_n in Heq. fold wn in Heq.
  exists {| now := now wn + elapsed (provider (List.length (sent wn)));
            sent := sent wn ++ [progress_request BESTTIME_BASE job_id collection_id
                                  (now wn)] |}.
  split.
  - rewrite wait_with_both_ids by assumption.
    apply (poll_loop_fuel_mono _ _ _ _ _ (n + 1)%nat); [| lia].
    rewrite Heq, poll_loop_S.
    destruct (Qlt_le_dec (now wn) (now w + timeout)) as [_ | Hge]; [| lra].
    rewrite besttime_get_json_world, Hlen, Hresp, Hv. reflexivity.
  - simpl. rewrite List.length_app, Hlen. simpl. split; [lia | reflexivity].
Qed.


(** X11. When the function returns, the venue list is either a list that
    is not empty and stands in the last response under one of the four
    names, or [None], and [None] is returned only once the deadline is
    reached. *)
Theorem wait_returns_nonempty_venues_or_none_after_deadline
    (fuel : nat) (job_id collection_id progress_url : json)
    (timeout interval : Q) (w : world)
    (found : option (list json)) (last : json) (w' : world) :
  wait fuel job_id collection_id progress_url timeout interval w
  = Some (Ok (found, last), w') ->
  match found with
  | Some venues =>
      venues <> []
      /\ exists (d : pydict) (key : string),
          last = JDict d
          /\ In key ["venues"; "results"; "items"; "found_venues"]
          /\ dict_get key d = Some (JList venues)
  | None => now w + timeout <= now w'
  end.
Proof.
  intros Hrun.
  destruct (wait_cases BESTTIME_BASE provider query_param job_id collection_id
              progress_url timeout interval w)
    as [(e & _ & Hstart) | (job' & coll' & _ & _ & Hloop)].
  - rewrite Hstart in Hrun. discriminate.
  - rewrite Hloop in Hrun. destruct found as [venues |].
    + apply venues_in_nonempty.
      exact (poll_loop_returns_found _ _ _ _ _ _ _ _ _ _ _ _ Hrun).
    + exact (poll_loop_none_after_deadline _ _ _ _ _ _ _ _ _ _ _ Hrun).
Qed.

(** X12. Without a configured key the POST client raises before anything
    is sent. With a key it sends exactly one POST to the endpoint, whose
    query holds the key under [api_key_private], also when the caller gave
    another value there, and the caller's other parameters unchanged. *)
Theorem besttime_post_qs_sends_with_credential_or_not_at_all
    (endpoint : string) (params : pydict) (w : world) :
  ((BESTTIME_PRIVATE_KEY = None \/ BESTTIME_PRIVATE_KEY = Some "") ->
   exists msg : string, post endpoint params w = (Raise (ValueError msg), w))
  /\ (forall key : string,
        BESTTIME_PRIVATE_KEY = Some key -> key <> "" ->
        exists (r : result client_ret) (q : request),
          post endpoint params w
          = (r, {| now := now w + elapsed (provider (List.length (sent w)));
                   sent := sent w ++ [q] |})
          /\ meth q = "POST"
          /\ url q = endpoint_url BESTTIME_BASE endpoint
          /\ sent_at q = now w
          /\ dict_get "api_key_private" (query q) = Some (JStr key)
          /\ forall k : string, k <> "api_key_private" ->
               dict_get k (query q) = dict_get k params).
Proof.
  unfold besttime_post_qs. split.
  - intros [-> | ->]; eexists; reflexivity.
  - intros key -> Hkey.
    assert (Hne : String.eqb key "" = false) by (apply String.eqb_neq; exact Hkey).
    rewrite Hne. unfold http_send.
    eexists. eexists. split; [reflexivity |]. simpl.
    split; [reflexivity |]. split; [reflexivity |]. split; [reflexivity |].
    split; [apply dict_get_set_eq |].
    intros k Hk. apply dict_get_set_ne. exact Hk.
Qed.


End MoreWait.

Lemma run_ready :
  wait_for_progress_and_get_venues base ready_at_third no_query 10
    (JStr "job") (JStr "col") JNull 30 2 w0
  = Some (Ok (Some [cafe],
              JDict [("job_finished", JBool true); ("results", JList [cafe])]),
          ready_end).
Proof. vm_compute. reflexivity. Qed.

Lemma ready_at_third_elapsed (m : nat) : 0 <= elapsed (ready_at_third m).
Proof. unfold ready_at_third. destruct (m <? 2)%nat; discriminate. Qed.

Lemma ready_at_third_pending (j : nat) :
  (j < 2)%nat ->
  exists r, normalize (answer (ready_at_third (List.length (sent w0) + j))) = Ok r
            /\ venues_in (last_of r) = None.
Proof.
  intros Hj. destruct j as [| [| j]]; [| | lia]; eexists; split; reflexivity.
Qed.

Lemma wait_returns_venues_of_first_ready_answer_witness :
  exists w' : world,
    wait_for_progress_and_get_venues base ready_at_third no_query 3
      (JStr "job") (JStr "col") JNull 30 2 w0
    = Some (Ok (Some [cafe],
                last_of (GotJson (JDict [("job_finished", JBool true);
                                         ("results", JList [cafe])]))), w')
    /\ List.length (sent w') = (List.length (sent w0) + 2 + 1)%nat
    /\ now w'
       == now (snd (after_rounds ready_at_third base (JStr "job") (JStr "col") 2 2 w0))
          + elapsed (ready_at_third (List.length (sent w0) + 2)).
Proof.
  apply (wait_returns_venues_of_first_ready_answer base ready_at_third no_query
           (JStr "job") (JStr "col") 30 2 w0 2 3).
  - reflexivity.
  - reflexivity.
  - exact ready_at_third_elapsed.
  - discriminate.
  - exact ready_at_third_pending.
  - reflexivity.
  - reflexivity.
  - vm_compute. reflexivity.
  - lia.
Defined.


Lemma wait_returns_nonempty_witness :
  [cafe] <> []
  /\ exists (d : pydict) (key : string),
      JDict [("job_finished", JBool true); ("results", JList [cafe])] = JDict d
      /\ In key ["venues"; "results"; "items"; "found_venues"]
      /\ dict_get key d = Some (JList [cafe]).
Proof.
  exact (wait_returns_nonempty_venues_or_none_after_deadline base ready_at_third
           no_query 10 (JStr "job") (JStr "col") JNull 30 2 w0 (Some [cafe])
           (JDict [("job_finished", JBool true); ("results", JList [cafe])])
           ready_end run_ready).
Defined.

Lemma besttime_post_qs_witness :
  exists (r : result client_ret) (q : request),
    besttime_post_qs secret base search_has_items "venues/search"
      [("q", JStr "cafe")] w0
    = (r, {| now := now w0 + elapsed (search_has_items (List.length (sent w0)));
             sent := sent w0 ++ [q] |})
    /\ meth q = "POST"
    /\ url q = endpoint_url base "venues/search"
    /\ sent_at q = now w0
    /\ dict_get "api_key_private" (query q) = Some (JStr "pri_0123")
    /\ forall k : string, k <> "api_key_private" ->
         dict_get k (query q) = dict_get k [("q", JStr "cafe")].
Proof.
  destruct (besttime_post_qs_sends_with_credential_or_not_at_all secret base
              search_has_items "venues/search" [("q", JStr "cafe")] w0)
    as [_ Hsend].
  apply (Hsend "pri_0123"); [reflexivity | discriminate].
Defined.


End PollMore.

(** ** The route handlers *)

Module HandlerFacts.
Import BestTime PollVocabulary PollInputs PollMoreVocabulary Handlers HandlerInputs.
Import RankingFacts PollFacts PollMore.
Local Open Scope Q_scope.

Section Routes.
Variable BESTTIME_PRIVATE_KEY : option string.
Variable BESTTIME_BASE : string.
Variable provider : nat -> exchange.
Variable py_int : json -> result json.
Variable py_str : json -> string.

Local Abbreviation progress := (foot_traffic_progress BESTTIME_BASE provider).
Local Abbreviation search :=
  (foot_traffic_search BESTTIME_PRIVATE_KEY BESTTIME_BASE provider py_int py_str).

Lemma arg_truthy (args : list (string * string)) (k : string) :
  truthy (arg args k) = true -> exists v, arg args k = JStr v /\ v <> "".
Proof.
  induction args as [| [k' v] args IH]; simpl; [discriminate |].
  destruct (String.eqb k k'); [| exact IH].
  simpl. intros H. exists v. split; [reflexivity |].
  apply negb_true_iff in H. apply String.eqb_neq. exact H.
Qed.

(** X14. The progress route asks the provider only when both identifiers
    are given and not empty; it then sends exactly one progress request
    with them, passes the status of a failing provider through with the
    failure body, and answers 200 with the provider's body otherwise.
    Without them nothing is sent. *)
Theorem progress_route_asks_only_with_both_identifiers
    (method : string) (args : list (string * string)) (w : world)
    (r : reply) (w' : world) :
  progress method args w = (r, w') ->
  (w' = w
   /\ (r = Preflight
       \/ r = Json (JDict [("error", JStr "Missing job_id or collection_id")]) 400))
  \/ (exists j c : string,
        j <> "" /\ c <> ""
        /\ arg args "job_id" = JStr j /\ arg args "collection_id" = JStr c
        /\ w' = {| now := now w + elapsed (provider (List.length (sent w)));
                   sent := sent w ++ [progress_request BESTTIME_BASE (JStr j) (JStr c)
                                        (now w)] |}
        /\ match answer (provider (List.length (sent w))) with
           | NetRaise => r = Failed RequestException
           | NetResponse resp =>
               if ok resp then
                 match body resp with
                 | BodyJson data => r = Json data 200
                 | BodyText _ => r = Failed JSONDecodeError
                 end
               else r = Json (error_body resp) (status_code resp)
           end).
Proof.
  unfold foot_traffic_progress. intros Hrun.
  destruct (String.eqb method "OPTIONS").
  { injection Hrun as <- <-. left. auto. }
  destruct (truthy (arg args "job_id")) eqn:Hj; cbn [negb orb] in Hrun.
  2:{ injection Hrun as <- <-. left. auto. }
  destruct (truthy (arg args "collection_id")) eqn:Hc; cbn [negb orb] in Hrun.
  2:{ injection Hrun as <- <-. left. auto. }
  destruct (arg_truthy _ _ Hj) as (j & Ej & Hjne).
  destruct (arg_truthy _ _ Hc) as (c & Ec & Hcne).
  right. exists j, c. rewrite Ej, Ec in *.
  split; [exact Hjne |]. split; [exact Hcne |].
  split; [reflexivity |]. split; [reflexivity |].
  rewrite besttime_get_json_world in Hrun. unfold normalize in Hrun.
  destruct (answer (provider (List.length (sent w)))) as [resp |].
  - destruct (ok resp); cbn [negb] in Hrun.
    + destruct (body resp); injection Hrun as <- <-; split; reflexivity.
    + injection Hrun as <- <-. split; reflexivity.
  - injection Hrun as <- <-. split; reflexivity.
Qed.

Ltac dict_lookup :=
  repeat (rewrite dict_get_set_ne by discriminate);
  first [apply dict_get_set_eq | reflexivity].

(** X15. The search route sends nothing, or exactly one POST to
    [venues/search]: only for a payload with a [q] that is set and with a
    configured key, carrying [q], the format (default [raw]), the key, and
    [lat] and [lng] exactly when the payload gives them; the reply is the
    provider's answer, a failure keeping its status. *)
Theorem search_route_sends_one_authenticated_post_or_nothing
    (method : string) (body : json) (w : world) (r : reply) (w' : world) :
  search method body w = (r, w') ->
  w' = w
  \/ (exists (payload : pydict) (key : string) (q : request),
        py_or body (JDict []) = JDict payload
        /\ truthy (get payload "q") = true
        /\ BESTTIME_PRIVATE_KEY = Some key /\ key <> ""
        /\ w' = {| now := now w + elapsed (provider (List.length (sent w)));
                   sent := sent w ++ [q] |}
        /\ meth q = "POST"
        /\ url q = endpoint_url BESTTIME_BASE "venues/search"
        /\ dict_get "q" (query q) = Some (get payload "q")
        /\ dict_get "format" (query q)
           = Some (get_default payload "format" (JStr "raw"))
        /\ dict_get "api_key_private" (query q) = Some (JStr key)
        /\ dict_get "lat" (query q)
           = (if is_none (get payload "lat") then None else Some (get payload "lat"))
        /\ dict_get "lng" (query q)
           = (if is_none (get payload "lng") then None else Some (get payload "lng"))
        /\ r = reply_to (answer (provider (List.length (sent w))))).
Proof.
  unfold foot_traffic_search. intros Hrun.
  destruct (String.eqb method "OPTIONS"); [injection Hrun as _ <-; left; auto |].
  destruct (py_or body (JDict [])) as [| | | | | payload] eqn:Hbody;
    try (injection Hrun as _ <-; left; reflexivity).
  destruct (py_int (get_default payload "radius" (JNum 5000))) as [radius | e];
    [| injection Hrun as _ <-; left; reflexivity].
  destruct (truthy (get payload "q")) eqn:Hq; cbn [negb] in Hrun;
    [| injection Hrun as _ <-; left; reflexivity].
  unfold besttime_post_qs in Hrun.
  destruct BESTTIME_PRIVATE_KEY as [key |] eqn:Hkey;
    [| injection Hrun as _ <-; left; reflexivity].
  destruct (String.eqb key "") eqn:Hne;
    [injection Hrun as _ <-; left; reflexivity |].
  apply String.eqb_neq in Hne.
  unfold http_send in Hrun.
  right. exists payload, key.
  assert (Hreply : forall params,
    (let (a, w1) := (answer (provider (List.length (sent w))),
                     {| now := now w + elapsed (provider (List.length (sent w)));
                        sent := sent w ++ [{| meth := "POST";
                                              url := endpoint_url BESTTIME_BASE "venues/search";
                                              query := params; sent_at := now w |}] |})
     in match normalize a with
        | Ok (GotJson result) => (Json result 200, w1)
        | Ok (GotError body0 status) => (Json body0 status, w1)
        | Raise e => (Failed e, w1)
        end) = (r, w') ->
    r = reply_to (answer (provider (List.length (sent w))))
    /\ w' = {| now := now w + elapsed (provider (List.length (sent w)));
               sent := sent w ++ [{| meth := "POST";
                                     url := endpoint_url BESTTIME_BASE "venues/search";
                                     query := params; sent_at := now w |}] |}).
  { intros params H. unfold reply_to, normalize in *.
    destruct (answer (provider (List.length (sent w)))) as [resp |].
    - destruct (ok resp); cbn [negb] in H.
      + destruct (BestTime.body resp); injection H as <- <-; split; reflexivity.
      + injection H as <- <-. split; reflexivity.
    - injection H as <- <-. split; reflexivity. }
  apply Hreply in Hrun as [Hr Hw'].
  eexists. split; [first [reflexivity | assumption] |].
  split; [first [reflexivity | assumption] |].
  split; [first [reflexivity | assumption] |]. split; [exact Hne |].
  split; [exact Hw' |]. cbn [meth url query].
  split; [reflexivity |]. split; [reflexivity |].
  destruct (is_none (get payload "lat")); destruct (is_none (get payload "lng"));
    cbn [negb];
    (split; [dict_lookup |]); (split; [dict_lookup |]); (split; [dict_lookup |]);
    (split; [dict_lookup |]); (split; [dict_lookup | exact Hr]).
Qed.

End Routes.

Section Closest.
Variable BESTTIME_PRIVATE_KEY : option string.
Variable BESTTIME_BASE : string.
Variable provider : nat -> exchange.
Variable query_param : string -> string -> option string.

Local Abbreviation closest :=
  (foot_traffic_closest BESTTIME_PRIVATE_KEY BESTTIME_BASE provider query_param).


(** The search call of the handler, for a configured key. *)
Lemma closest_search_call (key : string) (params : pydict) (w : world) :
  BESTTIME_PRIVATE_KEY = Some key -> key <> "" ->
  besttime_post_qs BESTTIME_PRIVATE_KEY BESTTIME_BASE provider "venues/search" params w
  = (normalize (answer (provider (List.length (sent w)))),
     {| now := now w + elapsed (provider (List.length (sent w)));
        sent := sent w ++ [{| meth := "POST";
                              url := endpoint_url BESTTIME_BASE "venues/search";
                              query := dict_set "api_key_private" (JStr key) params;
                              sent_at := now w |}] |}).
Proof.
  intros -> Hne. unfold besttime_post_qs.
  apply String.eqb_neq in Hne. rewrite Hne. reflexivity.
Qed.

Lemma closest_search_not_sent (params : pydict) (w : world) r w1 :
  BESTTIME_PRIVATE_KEY = None \/ BESTTIME_PRIVATE_KEY = Some "" ->
  besttime_post_qs BESTTIME_PRIVATE_KEY BESTTIME_BASE provider "venues/search" params w
  = (r, w1) ->
  w1 = w /\ exists e, r = Raise e.
Proof.
  unfold besttime_post_qs.
  intros [-> | ->]; simpl; intros [= <- <-]; split; eauto.
Qed.

Lemma key_cases :
  (BESTTIME_PRIVATE_KEY = None \/ BESTTIME_PRIVATE_KEY = Some "")
  \/ exists key, BESTTIME_PRIVATE_KEY = Some key /\ key <> "".
Proof.
  destruct BESTTIME_PRIVATE_KEY as [key |]; [| left; left; reflexivity].
  destruct (String.eqb key "") eqn:E.
  - apply String.eqb_eq in E. subst. left. right. reflexivity.
  - apply String.eqb_neq in E. right. eauto.
Qed.

(** X16. When the search answers with venues at once, the handler goes on
    to the ranking with them after exactly one request, the search POST:
    no progress request is made, whatever the fuel. *)
Theorem closest_immediate_venues_skip_polling
    (fuel : nat) (business_type lat lng radius num : json)
    (timeout interval : Q) (w : world)
    (key : string) (resp : response) (result v : json) (vs : list json) :
  BESTTIME_PRIVATE_KEY = Some key -> key <> "" ->
  answer (provider (List.length (sent w))) = NetResponse resp ->
  ok resp = true -> body resp = BodyJson result ->
  immediate_venues result = v :: vs ->
  exists q : request,
    closest fuel business_type lat lng radius num timeout interval w
    = Some (ToRanking (v :: vs) result,
            {| now := now w + elapsed (provider (List.length (sent w)));
               sent := sent w ++ [q] |})
    /\ meth q = "POST"
    /\ url q = endpoint_url BESTTIME_BASE "venues/search".
Proof.
  intros Hkey Hne Hans Hok Hbody Himm.
  unfold foot_traffic_closest.
  rewrite (closest_search_call key _ w Hkey Hne), Hans.
  unfold normalize. rewrite Hok, Hbody. cbn [negb]. rewrite Himm.
  eexists. split; [reflexivity |]. split; reflexivity.
Qed.

(** X17. Whatever the handler replies, it has sent nothing (the
    configuration error), or first the search POST, which carries the key,
    and after it progress GETs only, which carry none. *)
Theorem closest_sends_search_then_progress_polls
    (fuel : nat) (business_type lat lng radius num : json)
    (timeout interval : Q) (w : world) (r : closest_reply) (w' : world) :
  closest fuel business_type lat lng radius num timeout interval w = Some (r, w') ->
  (w' = w /\ exists e, r = ServerError e)
  \/ (exists (q : request) (polls : list request),
        sent w' = sent w ++ q :: polls
        /\ meth q = "POST"
        /\ url q = endpoint_url BESTTIME_BASE "venues/search"
        /\ dict_has "api_key_private" (query q) = true
        /\ Forall (fun p =>
              meth p = "GET"
              /\ url p = endpoint_url BESTTIME_BASE "venues/progress"
              /\ dict_has "api_key_private" (query p) = false) polls).
Proof.
  unfold foot_traffic_closest. intros Hrun.
  destruct key_cases as [Hnokey | (key & Hkey & Hne)].
  - destruct (besttime_post_qs _ _ _ _ _ w) as [r1 w1] eqn:Hpost.
    destruct (closest_search_not_sent _ _ _ _ Hnokey Hpost) as [-> (e & ->)].
    injection Hrun as <- <-. left. eauto.
  - rewrite (closest_search_call key _ w Hkey Hne) in Hrun.
    set (q0 := {| meth := "POST";
                  url := endpoint_url BESTTIME_BASE "venues/search";
                  query := dict_set "api_key_private" (JStr key)
                             [("q", business_type); ("format", JStr "raw");
                              ("num", num); ("radius", radius); ("lat", lat);
                              ("lng", lng)];
                  sent_at := now w |}) in Hrun.
    set (w1 := {| now := now w + elapsed (provider (List.length (sent w)));
                  sent := sent w ++ [q0] |}) in Hrun.
    right. exists q0.
    assert (Hq : dict_has "api_key_private" (query q0) = true).
    { unfold dict_has, q0. cbn [query]. rewrite dict_get_set_eq. reflexivity. }
    assert (Hnone : exists polls, sent w1 = sent w ++ q0 :: polls
                /\ meth q0 = "POST"
                /\ url q0 = endpoint_url BESTTIME_BASE "venues/search"
                /\ dict_has "api_key_private" (query q0) = true
                /\ Forall (fun p =>
                      meth p = "GET"
                      /\ url p = endpoint_url BESTTIME_BASE "venues/progress"
                      /\ dict_has "api_key_private" (query p) = false) polls).
    { exists []. split; [reflexivity |]. split; [reflexivity |].
      split; [reflexivity |]. split; [exact Hq | constructor]. }
    destruct (normalize (answer (provider (List.length (sent w))))) as [[result | b st] | e].
    + destruct (immediate_venues result) as [| v vs].
      * destruct (job_handles result) as [[job_id collection_id] progress_link].
        destruct (truthy job_id || truthy collection_id || truthy progress_link).
        -- destruct (wait_cases BESTTIME_BASE provider query_param job_id collection_id
                       progress_link timeout interval w1)
             as [(e & _ & Hstart) | (job' & coll' & _ & _ & Hloop)].
           ++ rewrite Hstart in Hrun. injection Hrun as <- <-. exact Hnone.
           ++ rewrite Hloop in Hrun.
              destruct (poll_loop BESTTIME_BASE provider fuel job' coll'
                          (now w1 + timeout) interval JNull w1)
                as [[r2 w2] |] eqn:Hpoll; [| discriminate].
              destruct (poll_loop_requests _ _ _ _ _ _ _ _ _ _ _ Hpoll)
                as (new & Hsent & Hall).
              assert (Hw2 : w' = w2).
              { destruct r2 as [[[[| v0 vs0] |] last] | e]; injection Hrun as _ <-;
                  reflexivity. }
              subst w2. exists new.
              split; [rewrite Hsent; unfold w1; simpl; rewrite <- app_assoc; reflexivity |].
              split; [reflexivity |]. split; [reflexivity |]. split; [exact Hq |].
              eapply Forall_impl; [exact Hall |].
              intros p (t & ->). simpl. auto.
        -- injection Hrun as <- <-. exact Hnone.
      * injection Hrun as <- <-. exact Hnone.
    + injection Hrun as <- <-. exact Hnone.
    + injection Hrun as <- <-. exact Hnone.
Qed.


End Closest.

Lemma progress_route_witness :
  (snd progress_run = w0
   /\ (fst progress_run = Preflight
       \/ fst progress_run
          = Json (JDict [("error", JStr "Missing job_id or collection_id")]) 400))
  \/ (exists j c : string,
        j <> "" /\ c <> ""
        /\ arg [("job_id", "job"); ("collection_id", "col")] "job_id" = JStr j
        /\ arg [("job_id", "job"); ("collection_id", "col")] "collection_id" = JStr c
        /\ snd progress_run
           = {| now := now w0 + elapsed (always_pending (List.length (sent w0)));
                sent := sent w0 ++ [progress_request base (JStr j) (JStr c) (now w0)] |}
        /\ match answer (always_pending (List.length (sent w0))) with
           | NetRaise => fst progress_run = Failed RequestException
           | NetResponse resp =>
               if ok resp then
                 match body resp with
                 | BodyJson data => fst progress_run = Json data 200
                 | BodyText _ => fst progress_run = Failed JSONDecodeError
                 end
               else fst progress_run = Json (error_body resp) (status_code resp)
           end).
Proof.
  apply (progress_route_asks_only_with_both_identifiers base always_pending "GET"
           [("job_id", "job"); ("collection_id", "col")] w0).
  apply surjective_pairing.
Defined.

Lemma search_route_witness :
  snd search_run = w0
  \/ (exists (payload : pydict) (key : string) (q : request),
        py_or (JDict [("q", JStr "cafe"); ("lat", JStr "14.4516")]) (JDict [])
        = JDict payload
        /\ truthy (get payload "q") = true
        /\ secret = Some key /\ key <> ""
        /\ snd search_run
           = {| now := now w0 + elapsed (search_has_venues (List.length (sent w0)));
                sent := sent w0 ++ [q] |}
        /\ meth q = "POST"
        /\ url q = endpoint_url base "venues/search"
        /\ dict_get "q" (query q) = Some (get payload "q")
        /\ dict_get "format" (query q)
           = Some (get_default payload "format" (JStr "raw"))
        /\ dict_get "api_key_private" (query q) = Some (JStr key)
        /\ dict_get "lat" (query q)
           = (if is_none (get payload "lat") then None else Some (get payload "lat"))
        /\ dict_get "lng" (query q)
           = (if is_none (get payload "lng") then None else Some (get payload "lng"))
        /\ fst search_run
           = reply_to (answer (search_has_venues (List.length (sent w0))))).
Proof.
  apply (search_route_sends_one_authenticated_post_or_nothing secret base
           search_has_venues int_as_is str_of_text "POST"
           (JDict [("q", JStr "cafe"); ("lat", JStr "14.4516")]) w0).
  apply surjective_pairing.
Defined.

Lemma closest_immediate_witness :
  exists q : request,
    closest_on search_has_venues 30
    = Some (ToRanking [cafe] (JDict [("status", JStr "OK"); ("venues", JList [cafe])]),
            {| now := now w0 + elapsed (search_has_venues (List.length (sent w0)));
               sent := sent w0 ++ [q] |})
    /\ meth q = "POST"
    /\ url q = endpoint_url base "venues/search".
Proof.
  apply (closest_immediate_venues_skip_polling secret base search_has_venues no_query
           10 (JStr "cafe") (JStr "14.4516") (JStr "120.9773") (JStr "1500")
           (JStr "100") 30 2 w0 "pri_0123"
           {| status_code := 200; reason := "OK";
              body := BodyJson (JDict [("status", JStr "OK"); ("venues", JList [cafe])]) |}
           (JDict [("status", JStr "OK"); ("venues", JList [cafe])]) cafe []).
  - reflexivity.
  - discriminate.
  - reflexivity.
  - reflexivity.
  - reflexivity.
  - reflexivity.
Defined.

Lemma run_deferred :
  closest_on deferred 5
  = Some (StillRunning
            (JDict [("job_id", JStr "job"); ("collection_id", JStr "col")])
            (JDict [("job_finished", JBool false)]), deferred_end).
Proof. vm_compute. reflexivity. Qed.

Lemma closest_sends_witness :
  (deferred_end = w0 /\ exists e,
      StillRunning (JDict [("job_id", JStr "job"); ("collection_id", JStr "col")])
        (JDict [("job_finished", JBool false)]) = ServerError e)
  \/ (exists (q : request) (polls : list request),
        sent deferred_end = sent w0 ++ q :: polls
        /\ meth q = "POST"
        /\ url q = endpoint_url base "venues/search"
        /\ dict_has "api_key_private" (query q) = true
        /\ Forall (fun p =>
              meth p = "GET"
              /\ url p = endpoint_url base "venues/progress"
              /\ dict_has "api_key_private" (query p) = false) polls).
Proof.
  exact (closest_sends_search_then_progress_polls secret base deferred no_query
           10 (JStr "cafe") (JStr "14.4516") (JStr "120.9773") (JStr "1500")
           (JStr "100") 5 2 w0 _ deferred_end run_deferred).
Defined.


End HandlerFacts.

(** * One-time codes *)

Module OtpFacts.
Import Otp OtpVocabulary.
Local Open Scope Z_scope.

Local Abbreviation key := (fun r : otp_row => (email r, is_verified r)).

Lemma same_key_spec (r s : otp_row) :
  same_key r s = true <-> key r = key s.
Proof.
  unfold same_key. rewrite andb_true_iff, String.eqb_eq, Bool.eqb_true_iff.
  split; [intros [-> ->]; reflexivity | intros [= -> ->]; auto].
Qed.

Lemma existsb_same_key (r : otp_row) (rs : list otp_row) :
  existsb (same_key r) rs = true <-> key r ∈ map key rs.
Proof.
  rewrite existsb_exists. change (map key rs) with (key <$> rs).
  rewrite list_elem_of_fmap. split.
  - intros (s & Hin & Hs). exists s. split; [apply same_key_spec, Hs |].
    apply list_elem_of_In, Hin.
  - intros (s & Hk & Hin). exists s. split; [apply list_elem_of_In, Hin |].
    apply same_key_spec, Hk.
Qed.

Lemma unique_NoDup (rs : list otp_row) :
  unique_active_otp rs = true <-> NoDup (map key rs).
Proof.
  induction rs as [| r rs IH]; simpl.
  - split; [intros _; constructor | reflexivity].
  - rewrite andb_true_iff, negb_true_iff, NoDup_cons, IH.
    rewrite <- not_true_iff_false, existsb_same_key. reflexivity.
Qed.

Lemma unique_ext (rs rs' : list otp_row) :
  map key rs = map key rs' -> unique_active_otp rs = unique_active_otp rs'.
Proof.
  intros H. apply eq_true_iff_eq. rewrite !unique_NoDup, H. reflexivity.
Qed.

Lemma NoDup_map_inj {A B : Type} (f : A -> B) (l : list A) (x y : A) :
  NoDup (map f l) -> x ∈ l -> y ∈ l -> f x = f y -> x = y.
Proof.
  induction l as [| a l IH]; simpl; intros Hnd Hx Hy Hf.
  - inversion Hx.
  - apply NoDup_cons in Hnd as [Ha Hnd].
    apply elem_of_cons in Hx as [-> | Hx]; apply elem_of_cons in Hy as [-> | Hy].
    + reflexivity.
    + exfalso. apply Ha. rewrite Hf. change (map f l) with (f <$> l).
      apply list_elem_of_fmap. eauto.
    + exfalso. apply Ha. rewrite <- Hf. change (map f l) with (f <$> l).
      apply list_elem_of_fmap. eauto.
    + auto.
Qed.

Lemma unverified_of_spec (e : string) (r : otp_row) :
  unverified_of e r = true <-> key r = (e, false).
Proof.
  unfold unverified_of. rewrite andb_true_iff, String.eqb_eq, negb_true_iff.
  split; [intros [-> ->]; reflexivity | intros [= -> ->]; auto].
Qed.

Lemma has_row_spec (e : string) (v : bool) (t : otp_table) :
  has_row e v t = true <-> (e, v) ∈ map key (rows t).
Proof.
  unfold has_row. rewrite existsb_exists. change (map key (rows t)) with (key <$> rows t).
  rewrite list_elem_of_fmap. split.
  - intros (s & Hin & Hs). exists s. split; [| apply list_elem_of_In, Hin].
    apply andb_true_iff in Hs as [He Hv].
    apply String.eqb_eq in He. apply Bool.eqb_prop in Hv. subst. reflexivity.
  - intros (s & Hk & Hin). exists s. split; [apply list_elem_of_In, Hin |].
    injection Hk as -> ->. rewrite String.eqb_refl, Bool.eqb_reflx. reflexivity.
Qed.

(** ** The rows that the [UPDATE] of [store_otp] writes *)

Local Abbreviation invalidate e :=
  (fun r : otp_row => if unverified_of e r then set_verified r else r).

Local Abbreviation invalidated e :=
  (fun k : string * bool => if decide (k = (e, false)) then (e, true) else k).

Lemma key_invalidate (e : string) (r : otp_row) :
  key (invalidate e r) = invalidated e (key r).
Proof.
  cbv beta. destruct (unverified_of e r) eqn:Hu.
  - apply unverified_of_spec in Hu as Hk. rewrite Hk.
    rewrite decide_True by reflexivity. injection Hk as <- _. reflexivity.
  - rewrite decide_False; [reflexivity |].
    intros Hk. apply unverified_of_spec in Hk. congruence.
Qed.

Lemma keys_invalidate (e : string) (rs : list otp_row) :
  map key (map (invalidate e) rs) = map (invalidated e) (map key rs).
Proof.
  rewrite !map_map. apply map_ext. intros r. apply key_invalidate.
Qed.

Lemma invalidated_not_unverified (e : string) (ks : list (string * bool)) :
  (e, false) ∉ map (invalidated e) ks.
Proof.
  change (map (invalidated e) ks) with (invalidated e <$> ks).
  rewrite list_elem_of_fmap. intros (k & Hk & _).
  destruct (decide (k = (e, false))); congruence.
Qed.

Lemma invalidated_NoDup (e : string) (ks : list (string * bool)) :
  NoDup ks ->
  NoDup (map (invalidated e) ks) <-> ~ ((e, false) ∈ ks /\ (e, true) ∈ ks).
Proof.
  intros Hnd. split.
  - intros Hnd' [Hf Ht].
    apply list_elem_of_lookup in Hf as [i Hi], Ht as [j Hj].
    assert (i = j) as ->.
    { apply (NoDup_lookup _ i j (e, true) Hnd').
      - change (map (invalidated e) ks) with (invalidated e <$> ks).
        rewrite list_lookup_fmap, Hi. simpl. rewrite decide_True; reflexivity.
      - change (map (invalidated e) ks) with (invalidated e <$> ks).
        rewrite list_lookup_fmap, Hj. simpl. rewrite decide_False; [reflexivity | congruence]. }
    congruence.
  - intros Hnot. change (map (invalidated e) ks) with (invalidated e <$> ks).
    apply NoDup_fmap_2_strong; [| assumption].
    intros x y Hx Hy Hxy.
    destruct (decide (x = (e, false))) as [-> | Hx'];
      destruct (decide (y = (e, false))) as [-> | Hy']; try congruence.
    + subst y. exfalso. apply Hnot. auto.
    + subst x. exfalso. apply Hnot. auto.
Qed.

Lemma invalidate_unknown (e : string) (rs : list otp_row) :
  (e, false) ∉ map key rs -> map (invalidate e) rs = rs.
Proof.
  intros Hn. rewrite <- (map_id rs) at 2. apply map_ext_in. intros r Hin.
  destruct (unverified_of e r) eqn:Hu; [| reflexivity].
  exfalso. apply Hn. apply unverified_of_spec in Hu. rewrite <- Hu.
  change (map key rs) with (key <$> rs). apply list_elem_of_fmap.
  exists r. split; [reflexivity | apply list_elem_of_In, Hin].
Qed.

Lemma unverified_invalidate (e : string) (r : otp_row) :
  unverified_of e (invalidate e r) = false.
Proof.
  cbv beta. destruct (unverified_of e r) eqn:Hu; [| assumption].
  unfold unverified_of, set_verified. simpl. apply andb_false_r.
Qed.

(** The [UPDATE] of [store_otp] is refused exactly when the address is
    in both states. *)
Lemma update_invalidate (e : string) (t : otp_table) :
  unique_active_otp (rows t) = true ->
  update_where (unverified_of e) set_verified t
  = if in_both_states e t then (UniqueViolation, t)
    else (Done tt, {| rows := map (invalidate e) (rows t); next_id := next_id t |}).
Proof.
  intros Hu. unfold update_where.
  apply unique_NoDup in Hu.
  pose proof (invalidated_NoDup e _ Hu) as Hiff.
  rewrite <- keys_invalidate, <- unique_NoDup in Hiff.
  rewrite <- !has_row_spec in Hiff.
  unfold in_both_states.
  destruct (unique_active_otp (map (invalidate e) (rows t))) eqn:Hq.
  - destruct (has_row e false t && has_row e true t) eqn:Hb; [| reflexivity].
    exfalso. apply andb_true_iff in Hb. apply Hiff; auto.
  - destruct (has_row e false t && has_row e true t) eqn:Hb; [reflexivity |].
    assert (false = true); [| discriminate].
    apply Hiff. intros [H1 H2]. rewrite H1, H2 in Hb. discriminate.
Qed.

(** ** The row that [verify_otp] reads *)

Local Abbreviation later e :=
  (fun (best : option otp_row) (r : otp_row) =>
     if unverified_of e r then
       match best with
       | None => Some r
       | Some b => if created_at b <? created_at r then Some r else Some b
       end
     else best).

Lemma fold_later_in (e : string) (rs : list otp_row) (best : option otp_row)
    (r : otp_row) :
  fold_left (later e) rs best = Some r ->
  (r ∈ rs /\ unverified_of e r = true) \/ best = Some r.
Proof.
  revert best. induction rs as [| x rs IH]; simpl; intros best H; [auto |].
  apply IH in H as [[Hin Hu] | H].
  - left. split; [right; assumption | assumption].
  - destruct (unverified_of e x) eqn:Hx; [| auto].
    destruct best as [b |].
    + destruct (created_at b <? created_at x); [| auto].
      injection H as <-. left. split; [left | assumption].
    + injection H as <-. left. split; [left | assumption].
Qed.

Lemma select_latest_in (e : string) (t : otp_table) (r : otp_row) :
  select_latest e t = Some r -> r ∈ rows t /\ unverified_of e r = true.
Proof.
  intros H. apply fold_later_in in H as [H | H]; [assumption | discriminate].
Qed.

Lemma fold_later_none (e : string) (rs : list otp_row) (best : option otp_row) :
  Forall (fun r => unverified_of e r = false) rs ->
  fold_left (later e) rs best = best.
Proof.
  revert best. induction rs as [| x rs IH]; simpl; intros best H; [reflexivity |].
  apply Forall_cons in H as [Hx H]. rewrite Hx. apply IH, H.
Qed.

Lemma fold_later_only (e : string) (rs : list otp_row) (best : option otp_row)
    (r : otp_row) :
  unverified_of e r = true ->
  (forall x, x ∈ rs -> unverified_of e x = true -> x = r) ->
  best = Some r \/ (best = None /\ r ∈ rs) ->
  fold_left (later e) rs best = Some r.
Proof.
  intros Hr. revert best. induction rs as [| x rs IH]; simpl; intros best Hall H.
  - destruct H as [H | [_ H]]; [assumption | inversion H].
  - apply IH; [intros y Hy; apply Hall; right; assumption |].
    destruct (unverified_of e x) eqn:Hx.
    + assert (x = r) as -> by (apply Hall; [left | assumption]).
      left. destruct H as [-> | [-> _]]; [| reflexivity].
      destruct (created_at r <? created_at r); reflexivity.
    + destruct H as [H | [H Hin]]; [auto |].
      right. split; [assumption |].
      apply elem_of_cons in Hin as [-> | Hin]; [congruence | assumption].
Qed.

(** Under the constraint the row that [verify_otp] reads is the only
    unverified row of the address. *)
Lemma select_latest_unique (e : string) (t : otp_table) (r : otp_row) :
  unique_active_otp (rows t) = true ->
  r ∈ rows t -> unverified_of e r = true ->
  select_latest e t = Some r.
Proof.
  intros Hu Hin Hr. apply fold_later_only; [assumption | | auto].
  intros x Hx Hxu. apply unique_NoDup in Hu.
  apply (NoDup_map_inj key (rows t)); [assumption .. |].
  apply unverified_of_spec in Hr, Hxu. congruence.
Qed.

Lemma fold_later_some (e : string) (rs : list otp_row) (b : otp_row) :
  fold_left (later e) rs (Some b) <> None.
Proof.
  revert b. induction rs as [| x rs IH]; simpl; intros b; [discriminate |].
  destruct (unverified_of e x); [destruct (created_at b <? created_at x) |]; apply IH.
Qed.

Lemma select_latest_none (e : string) (t : otp_table) :
  select_latest e t = None <-> has_row e false t = false.
Proof.
  split.
  - intros H. apply not_true_iff_false. intros Hh.
    apply has_row_spec in Hh. change (map key (rows t)) with (key <$> rows t) in Hh.
    apply list_elem_of_fmap in Hh as (r & Hk & Hin).
    assert (Hr : unverified_of e r = true) by (apply unverified_of_spec; auto).
    unfold select_latest in H.
    assert (Hgen : forall rs best, r ∈ rs -> fold_left (later e) rs best <> None).
    { induction rs as [| x rs IH]; intros best Hx; [inversion Hx |].
      simpl. apply elem_of_cons in Hx as [<- | Hx]; [| apply IH, Hx].
      rewrite Hr. destruct best as [b |]; [destruct (created_at b <? created_at r) |];
        apply fold_later_some. }
    apply (Hgen _ _ Hin H).
  - intros H. apply fold_later_none. apply Forall_forall. intros r Hin.
    apply not_true_iff_false. intros Hr. apply unverified_of_spec in Hr.
    apply not_true_iff_false in H. apply H. apply has_row_spec. rewrite <- Hr.
    change (map key (rows t)) with (key <$> rows t). apply list_elem_of_fmap. eauto.
Qed.

Lemma has_row_ext (e : string) (v : bool) (t t' : otp_table) :
  map key (rows t') = map key (rows t) -> has_row e v t' = has_row e v t.
Proof.
  intros H. apply eq_true_iff_eq. rewrite !has_row_spec, H. reflexivity.
Qed.

Lemma known_spec (e : string) (t : otp_table) :
  known e t = true <-> exists v, (e, v) ∈ map key (rows t).
Proof.
  unfold known. rewrite orb_true_iff, !has_row_spec. split.
  - intros [H | H]; eauto.
  - intros [[|] H]; auto.
Qed.

(** ** Updates of one row *)

Local Abbreviation on_id f r :=
  (fun x : otp_row => if id x =? id r then f x else x).

Lemma update_by_id_invalidate (e : string) (t : otp_table) (r : otp_row) :
  well_formed t -> r ∈ rows t -> unverified_of e r = true ->
  map (on_id set_verified r) (rows t) = map (invalidate e) (rows t).
Proof.
  intros (Hu & Hid & _) Hin Hr. apply map_ext_in. intros x Hx.
  apply list_elem_of_In in Hx. apply unique_NoDup in Hu.
  destruct (id x =? id r) eqn:Hi.
  - apply Z.eqb_eq in Hi.
    assert (x = r) as -> by (apply (NoDup_map_inj id (rows t)); assumption).
    rewrite Hr. reflexivity.
  - destruct (unverified_of e x) eqn:Hxu; [| reflexivity].
    assert (x = r) as ->.
    { apply (NoDup_map_inj key (rows t)); [assumption .. |].
      apply unverified_of_spec in Hr, Hxu. congruence. }
    rewrite Z.eqb_refl in Hi. discriminate.
Qed.

Lemma update_add_attempt (t : otp_table) (r : otp_row) :
  unique_active_otp (rows t) = true ->
  update_where (fun x => id x =? id r) add_attempt t
  = (Done tt, {| rows := map (on_id add_attempt r) (rows t); next_id := next_id t |}).
Proof.
  intros Hu. unfold update_where.
  rewrite (unique_ext _ (rows t)), Hu; [reflexivity |].
  rewrite map_map. apply map_ext. intros x. destruct (id x =? id r); reflexivity.
Qed.

Lemma update_where_well_formed (p : otp_row -> bool) (f : otp_row -> otp_row)
    (t : otp_table) :
  (forall r, id (f r) = id r) ->
  well_formed t -> well_formed (snd (update_where p f t)).
Proof.
  intros Hf Hwf. unfold update_where.
  destruct (unique_active_otp _) eqn:Hq; [| assumption].
  destruct Hwf as (_ & Hid & Hlt). simpl.
  assert (Hids : forall rs, map id (map (fun r => if p r then f r else r) rs) = map id rs).
  { intros rs. rewrite map_map. apply map_ext. intros r. destruct (p r); auto. }
  split; [assumption |]. split.
  - simpl. rewrite Hids. assumption.
  - simpl. apply Forall_forall. intros x Hx.
    change (map ?g ?l) with (g <$> l) in Hx.
    apply list_elem_of_fmap in Hx as (y & -> & Hy).
    rewrite Forall_forall in Hlt. specialize (Hlt y Hy).
    destruct (p y); [rewrite Hf |]; assumption.
Qed.

Lemma insert_otp_well_formed (e otp : string) (expires cts : Z) (t : otp_table) :
  well_formed t -> well_formed (snd (insert_otp e otp expires cts t)).
Proof.
  intros (Hu & Hid & Hlt). unfold insert_otp.
  destruct (unique_active_otp (rows t ++ _)) eqn:Hq; simpl.
  - split; [exact Hq |]. split; simpl.
    + rewrite map_app. simpl. apply NoDup_app. split; [assumption |].
      split; [| apply NoDup_singleton].
      intros i Hi Hi'. apply list_elem_of_singleton in Hi'. subst i.
      change (map id (rows t)) with (id <$> rows t) in Hi.
      apply list_elem_of_fmap in Hi as (y & Hy & Hin).
      rewrite Forall_forall in Hlt. specialize (Hlt y Hin). lia.
    + apply Forall_app. split.
      * eapply Forall_impl; [exact Hlt |]. simpl. intros; lia.
      * apply Forall_singleton. simpl. lia.
  - split; [assumption |]. split; [assumption |]. simpl.
    eapply Forall_impl; [exact Hlt |]. simpl. intros; lia.
Qed.

Lemma filter_others_map (e : string) (g : otp_row -> otp_row) (rs : list otp_row) :
  (forall r, r ∈ rs -> email (g r) = email r) ->
  (forall r, r ∈ rs -> email r <> e -> g r = r) ->
  List.filter (fun r => negb (String.eqb (email r) e)) (map g rs)
  = List.filter (fun r => negb (String.eqb (email r) e)) rs.
Proof.
  induction rs as [| x rs IH]; intros He Hg; [reflexivity |].
  simpl. rewrite He by left.
  destruct (String.eqb (email x) e) eqn:Hx; simpl.
  - apply IH; intros; [apply He | apply Hg]; try right; assumption.
  - rewrite Hg; [| left | apply String.eqb_neq; assumption].
    f_equal. apply IH; intros; [apply He | apply Hg]; try right; assumption.
Qed.

Section Otp.

Variable OTP_TTL_SECONDS : Z.

Local Abbreviation store := (store_otp OTP_TTL_SECONDS).
Local Abbreviation lifetime := (OTP_TTL_SECONDS * 1000000).

(** [store_otp] under the constraint. *)
Lemma store_otp_eq (utcnow cts : Z) (e otp : string) (t : otp_table) :
  unique_active_otp (rows t) = true ->
  store utcnow cts e otp t
  = if in_both_states e t then (UniqueViolation, t)
    else (Done (next_id t),
          {| rows := map (invalidate e) (rows t)
                     ++ [new_row (next_id t) e otp (utcnow + lifetime) cts];
             next_id := next_id t + 1 |}).
Proof.
  intros Hu. unfold store_otp. rewrite update_invalidate by assumption.
  destruct (in_both_states e t) eqn:Hb; [reflexivity |].
  unfold insert_otp. simpl.
  match goal with |- (if ?c then _ else _) = _ => assert (Hq : c = true) end.
  { apply unique_NoDup. rewrite map_app, keys_invalidate. simpl.
    apply NoDup_app. split; [| split; [| apply NoDup_singleton]].
    - apply invalidated_NoDup; [apply unique_NoDup, Hu |].
      rewrite <- !has_row_spec. intros [H1 H2].
      unfold in_both_states in Hb. rewrite H1, H2 in Hb. discriminate.
    - intros k Hk Hk'. apply list_elem_of_singleton in Hk'. subst k.
      apply (invalidated_not_unverified e _ Hk). }
  rewrite Hq. reflexivity.
Qed.

Lemma stored_keys (e : string) (rs : list otp_row) (r : otp_row) :
  key r = (e, false) ->
  map key (map (invalidate e) rs ++ [r])
  = map (invalidated e) (map key rs) ++ [(e, false)].
Proof.
  intros Hr. rewrite map_app, keys_invalidate. simpl. rewrite Hr. reflexivity.
Qed.

Lemma stored_select (e : string) (rs : list otp_row) (r : otp_row) (n : Z) :
  unverified_of e r = true ->
  select_latest e {| rows := map (invalidate e) rs ++ [r]; next_id := n |} = Some r.
Proof.
  intros Hr. unfold select_latest. simpl. rewrite fold_left_app.
  rewrite (fold_later_none e (map (invalidate e) rs)).
  - cbn [fold_left]. rewrite Hr. reflexivity.
  - apply Forall_forall. intros x Hx. change (map ?g ?l) with (g <$> l) in Hx.
    apply list_elem_of_fmap in Hx as (y & -> & _). apply unverified_invalidate.
Qed.

Lemma invalidated_verified (e : string) (ks : list (string * bool)) :
  (e, true) ∈ map (invalidated e) ks <-> (e, false) ∈ ks \/ (e, true) ∈ ks.
Proof.
  change (map (invalidated e) ks) with (invalidated e <$> ks).
  rewrite list_elem_of_fmap. split.
  - intros (k & Hk & Hin). destruct (decide (k = (e, false))); subst; auto.
  - intros [H | H]; eexists; (split; [| exact H]).
    + rewrite decide_True; reflexivity.
    + rewrite decide_False; [reflexivity | congruence].
Qed.

Lemma stored_has_verified (e : string) (t : otp_table) (r : otp_row) (n : Z) :
  key r = (e, false) ->
  has_row e true {| rows := map (invalidate e) (rows t) ++ [r]; next_id := n |}
  = known e t.
Proof.
  intros Hr. apply eq_true_iff_eq. rewrite has_row_spec. simpl.
  rewrite (stored_keys _ _ _ Hr), elem_of_app, invalidated_verified.
  unfold known. rewrite orb_true_iff, !has_row_spec.
  rewrite list_elem_of_singleton. split; [intros [H | H]; [assumption | discriminate] | auto].
Qed.

Lemma stored_has_unverified (e : string) (t : otp_table) (r : otp_row) (n : Z) :
  key r = (e, false) ->
  has_row e false {| rows := map (invalidate e) (rows t) ++ [r]; next_id := n |}
  = true.
Proof.
  intros Hr. rewrite has_row_spec. simpl. rewrite (stored_keys _ _ _ Hr), elem_of_app.
  right. apply list_elem_of_singleton. reflexivity.
Qed.

(** What a call that is not refused leaves. *)
Lemma store_otp_is_stored (utcnow cts : Z) (e otp : string) (t : otp_table) :
  unique_active_otp (rows t) = true ->
  in_both_states e t = false ->
  let t1 := {| rows := map (invalidate e) (rows t)
                       ++ [new_row (next_id t) e otp (utcnow + lifetime) cts];
               next_id := next_id t + 1 |} in
  select_latest e t1 = Some (new_row (next_id t) e otp (utcnow + lifetime) cts)
  /\ unique_active_otp (rows t1) = true.
Proof.
  intros Hu Hb t1. split.
  - apply stored_select. unfold unverified_of. simpl. rewrite String.eqb_refl. reflexivity.
  - pose proof (store_otp_eq utcnow cts e otp t Hu) as Heq. rewrite Hb in Heq.
    unfold store_otp in Heq. rewrite update_invalidate in Heq by assumption.
    unfold in_both_states in Hb, Heq. rewrite Hb in Heq.
    unfold insert_otp in Heq. simpl in Heq.
    destruct (unique_active_otp _) eqn:Hq in Heq; [exact Hq | discriminate].
Qed.

(** X19. Under the constraint of the table [store_otp] is refused exactly
    for an address that has a verified row and an unverified one: the
    [UPDATE] raises and nothing changes. Otherwise it returns the next id,
    the row that [verify_otp] reads for the address is the new one (the
    code, no attempt, expiring [OTP_TTL_SECONDS] after the call), the
    constraint still holds, and the address has a verified row exactly
    when it had a row before. *)
Theorem store_otp_is_refused_exactly_in_both_states
    (utcnow current_timestamp : Z) (e otp : string) (t : otp_table) :
  unique_active_otp (rows t) = true ->
  fits_columns e otp ->
  (in_both_states e t = true ->
   store utcnow current_timestamp e otp t = (UniqueViolation, t))
  /\ (in_both_states e t = false ->
      exists t1 : otp_table,
        store utcnow current_timestamp e otp t = (Done (next_id t), t1)
        /\ select_latest e t1
           = Some (new_row (next_id t) e otp (utcnow + lifetime) current_timestamp)
        /\ unique_active_otp (rows t1) = true
        /\ has_row e true t1 = known e t).
Proof.
  intros Hu _. split; intros Hb.
  - rewrite store_otp_eq, Hb by assumption. reflexivity.
  - pose proof (store_otp_eq utcnow current_timestamp e otp t Hu) as Heq.
    rewrite Hb in Heq. eexists. split; [exact Heq |].
    pose proof (store_otp_is_stored utcnow current_timestamp e otp t Hu Hb) as (Hsel & Hu1).
    split; [exact Hsel |]. split; [exact Hu1 |].
    apply stored_has_verified. reflexivity.
Qed.

(** X20. [verify_otp] answers with success only for the code of a row of
    the address that is not verified, not expired and has fewer than three
    attempts; the rows with the id of that row are then verified and
    nothing else has changed. *)
Theorem verify_otp_succeeds_only_with_a_stored_code
    (utcnow : Z) (e otp : string) (t : otp_table) (msg : string) (t1 : otp_table) :
  verify_otp utcnow e otp t = (Done (true, msg), t1) ->
  exists r : otp_row,
    r ∈ rows t
    /\ email r = e /\ is_verified r = false /\ otp_code r = otp
    /\ utcnow <= expires_at r /\ attempts r < MAX_OTP_ATTEMPTS
    /\ msg = "Email verified successfully!"
    /\ rows t1 = map (fun x => if id x =? id r then set_verified x else x) (rows t)
    /\ next_id t1 = next_id t.
Proof.
  unfold verify_otp. intros H.
  destruct (select_latest e t) as [r |] eqn:Hsel; [| discriminate].
  apply select_latest_in in Hsel as [Hin Hr].
  apply unverified_of_spec in Hr. injection Hr as He Hv.
  destruct (expires_at r <? utcnow) eqn:Hexp; [discriminate |].
  destruct (MAX_OTP_ATTEMPTS <=? attempts r) eqn:Hatt; [discriminate |].
  destruct (String.eqb (otp_code r) otp) eqn:Hc.
  - unfold update_where in H.
    destruct (unique_active_otp _) in H; [| discriminate].
    injection H as <- <-. exists r. apply String.eqb_eq in Hc.
    apply Z.ltb_ge in Hexp. apply Z.leb_gt in Hatt. auto 10.
  - unfold update_where in H.
    destruct (unique_active_otp _) in H; [| discriminate].
    destruct (0 <? _) in H; discriminate.
Qed.

(** X21. The round trip: a code stored for an address and presented before
    it expires is accepted when the address had no row before, and the
    address is then verified with no code waiting. When the address had a
    row before (a second request, or a request after a verification), the
    same call raises the violation of the constraint and changes
    nothing. *)
Theorem stored_code_verifies_exactly_for_a_new_address
    (utcnow current_timestamp now' : Z) (e otp : string) (t : otp_table)
    (i : Z) (t1 : otp_table) :
  well_formed t ->
  fits_columns e otp ->
  store utcnow current_timestamp e otp t = (Done i, t1) ->
  now' <= utcnow + lifetime ->
  (known e t = false ->
   exists t2 : otp_table,
     verify_otp now' e otp t1 = (Done verified, t2)
     /\ has_row e false t2 = false /\ has_row e true t2 = true)
  /\ (known e t = true -> verify_otp now' e otp t1 = (UniqueViolation, t1)).
Proof.
  intros Hwf _ Hst Hnow.
  assert (Hwf1 : well_formed t1).
  { replace t1 with (snd (store utcnow current_timestamp e otp t)) by (rewrite Hst; reflexivity).
    unfold store_otp.
    pose proof (update_where_well_formed (unverified_of e) set_verified t
                  (fun _ => eq_refl) Hwf) as Hw.
    destruct (update_where (unverified_of e) set_verified t) as [[[] |] t0];
      [apply insert_otp_well_formed |]; exact Hw. }
  destruct Hwf as (Hu & Hwf).
  rewrite store_otp_eq in Hst by assumption.
  destruct (in_both_states e t) eqn:Hb; [discriminate |].
  injection Hst as <- <-.
  set (r := new_row (next_id t) e otp (utcnow + lifetime) current_timestamp) in *.
  set (t1 := {| rows := _; next_id := _ |}) in *.
  assert (Hr : unverified_of e r = true).
  { unfold unverified_of. simpl. rewrite String.eqb_refl. reflexivity. }
  assert (Hsel : select_latest e t1 = Some r) by (apply stored_select, Hr).
  assert (Hin : r ∈ rows t1) by (apply elem_of_app; right; left).
  assert (Hver : verify_otp now' e otp t1
                 = match update_where (fun x => id x =? id r) set_verified t1 with
                   | (UniqueViolation, t2) => (UniqueViolation, t2)
                   | (Done _, t2) => (Done verified, t2)
                   end).
  { unfold verify_otp. rewrite Hsel.
    replace (expires_at r <? now') with false
      by (symmetry; apply Z.ltb_ge; simpl; lia).
    simpl. rewrite String.eqb_refl. reflexivity. }
  assert (Hupd : update_where (fun x => id x =? id r) set_verified t1
                 = update_where (unverified_of e) set_verified t1).
  { unfold update_where.
    change (map (fun x => if id x =? id r then set_verified x else x) (rows t1))
      with (map (on_id set_verified r) (rows t1)).
    rewrite (update_by_id_invalidate e t1 r Hwf1 Hin Hr). reflexivity. }
  rewrite Hver, Hupd, update_invalidate by apply Hwf1.
  assert (Hboth : in_both_states e t1 = known e t).
  { unfold in_both_states, t1.
    rewrite stored_has_unverified, stored_has_verified by reflexivity. reflexivity. }
  rewrite Hboth. split; intros Hk; rewrite Hk; [| reflexivity].
  eexists. split; [reflexivity |].
  assert (Hkeys : map key (map (invalidate e) (rows t1))
                  = map (invalidated e) (map key (rows t1))) by apply keys_invalidate.
  split.
  - apply not_true_iff_false. rewrite has_row_spec. cbn [rows]. rewrite Hkeys.
    apply invalidated_not_unverified.
  - apply has_row_spec. cbn [rows]. rewrite Hkeys. apply invalidated_verified.
    left. apply has_row_spec. apply stored_has_unverified. reflexivity.
Qed.

(** X22. A code is used once: after a successful verification every
    further call for the address, whatever the code and the time, finds
    no code and changes nothing, until a new code is stored. *)
Theorem verified_code_cannot_be_used_again
    (utcnow : Z) (e otp : string) (t : otp_table) (msg : string) (t1 : otp_table) :
  unique_active_otp (rows t) = true ->
  verify_otp utcnow e otp t = (Done (true, msg), t1) ->
  forall (now' : Z) (otp' : string),
    verify_otp now' e otp' t1 = (Done no_code, t1).
Proof.
  intros Hu H now' otp'.
  assert (Hnone : select_latest e t1 = None); [| unfold verify_otp; rewrite Hnone; reflexivity].
  unfold verify_otp in H.
  destruct (select_latest e t) as [r |] eqn:Hsel; [| discriminate].
  apply select_latest_in in Hsel as [Hin Hr].
  destruct (expires_at r <? utcnow); [discriminate |].
  destruct (MAX_OTP_ATTEMPTS <=? attempts r); [discriminate |].
  destruct (String.eqb (otp_code r) otp).
  - unfold update_where in H.
    destruct (unique_active_otp _) in H; [| discriminate].
    injection H as _ <-.
    apply fold_later_none. simpl. apply Forall_forall. intros x' Hx'.
    change (map ?g ?l) with (g <$> l) in Hx'.
    apply list_elem_of_fmap in Hx' as (x & -> & Hx).
    destruct (id x =? id r) eqn:Hi.
    + unfold unverified_of. simpl. apply andb_false_r.
    + apply not_true_iff_false. intros Hxu.
      assert (x = r) as ->.
      { apply unique_NoDup in Hu.
        apply (NoDup_map_inj key (rows t)); [assumption .. |].
        apply unverified_of_spec in Hr, Hxu. congruence. }
      rewrite Z.eqb_refl in Hi. discriminate.
  - unfold update_where in H.
    destruct (unique_active_otp _) in H; [| discriminate].
    destruct (0 <? _) in H; discriminate.
Qed.

(** A wrong code, presented in time for a code that is not locked, counts
    one attempt on the row that is read. *)
Lemma verify_otp_wrong_code
    (utcnow : Z) (e c : string) (t : otp_table) (r : otp_row) :
  unique_active_otp (rows t) = true ->
  select_latest e t = Some r ->
  utcnow <= expires_at r -> attempts r < MAX_OTP_ATTEMPTS -> otp_code r <> c ->
  exists t' : otp_table,
    verify_otp utcnow e c t
    = (Done (false,
             if 0 <? MAX_OTP_ATTEMPTS - (attempts r + 1)
             then "Invalid code. " +:+ pretty (MAX_OTP_ATTEMPTS - (attempts r + 1))
                  +:+ " attempt(s) remaining."
             else "Invalid code. Maximum attempts reached. Please request a new code."),
       t')
    /\ select_latest e t' = Some (add_attempt r)
    /\ unique_active_otp (rows t') = true
    /\ map key (rows t') = map key (rows t).
Proof.
  intros Hu Hsel Hexp Hatt Hc. unfold verify_otp. rewrite Hsel.
  replace (expires_at r <? utcnow) with false by (symmetry; apply Z.ltb_ge; lia).
  replace (MAX_OTP_ATTEMPTS <=? attempts r) with false by (symmetry; apply Z.leb_gt; lia).
  replace (String.eqb (otp_code r) c) with false by (symmetry; apply String.eqb_neq; assumption).
  rewrite update_add_attempt by assumption.
  assert (Hkeys : map key (map (on_id add_attempt r) (rows t)) = map key (rows t)).
  { rewrite map_map. apply map_ext. intros x. destruct (id x =? id r); reflexivity. }
  assert (Hu' : unique_active_otp (map (on_id add_attempt r) (rows t)) = true).
  { rewrite (unique_ext _ (rows t)); assumption. }
  eexists. split; [destruct (0 <? _); reflexivity |].
  split; [| split; assumption].
  apply select_latest_in in Hsel as [Hin Hr].
  apply select_latest_unique; [exact Hu' | | exact Hr].
  simpl. change (map ?g ?l) with (g <$> l).
  apply list_elem_of_fmap. exists r. split; [| assumption].
  rewrite Z.eqb_refl. reflexivity.
Qed.

(** X23. Three wrong codes lock a stored code: the first two are answered
    with the number of attempts left, the third with the end of the
    attempts, and from then on every code, the right one too, is refused
    and the table stays as it is. *)
Theorem three_wrong_codes_lock_the_stored_code
    (utcnow current_timestamp n1 n2 n3 : Z) (e otp c1 c2 c3 : string)
    (t : otp_table) (i : Z) (t1 : otp_table) :
  unique_active_otp (rows t) = true ->
  fits_columns e otp ->
  store utcnow current_timestamp e otp t = (Done i, t1) ->
  c1 <> otp -> c2 <> otp -> c3 <> otp ->
  n1 <= utcnow + lifetime -> n2 <= utcnow + lifetime -> n3 <= utcnow + lifetime ->
  exists t2 t3 t4 : otp_table,
    verify_otp n1 e c1 t1
    = (Done (false, "Invalid code. 2 attempt(s) remaining."), t2)
    /\ verify_otp n2 e c2 t2
       = (Done (false, "Invalid code. 1 attempt(s) remaining."), t3)
    /\ verify_otp n3 e c3 t3
       = (Done (false, "Invalid code. Maximum attempts reached. Please request a new code."),
          t4)
    /\ forall (n : Z) (c : string),
         n <= utcnow + lifetime -> verify_otp n e c t4 = (Done locked, t4).
Proof.
  intros Hu _ Hst Hc1 Hc2 Hc3 Hn1 Hn2 Hn3.
  rewrite store_otp_eq in Hst by assumption.
  destruct (in_both_states e t) eqn:Hb; [discriminate |].
  pose proof (store_otp_is_stored utcnow current_timestamp e otp t Hu Hb) as (Hsel1 & Hu1).
  injection Hst as <- <-.
  set (r := new_row (next_id t) e otp (utcnow + lifetime) current_timestamp) in *.
  destruct (verify_otp_wrong_code n1 e c1 _ r Hu1 Hsel1) as (t2 & Hv1 & Hsel2 & Hu2 & _);
    [simpl; lia | reflexivity | simpl; congruence |].
  destruct (verify_otp_wrong_code n2 e c2 t2 _ Hu2 Hsel2) as (t3 & Hv2 & Hsel3 & Hu3 & _);
    [simpl; lia | reflexivity | simpl; congruence |].
  destruct (verify_otp_wrong_code n3 e c3 t3 _ Hu3 Hsel3) as (t4 & Hv3 & Hsel4 & Hu4 & _);
    [simpl; lia | reflexivity | simpl; congruence |].
  exists t2, t3, t4. split; [exact Hv1 |]. split; [exact Hv2 |]. split; [exact Hv3 |].
  intros n c Hn. unfold verify_otp. rewrite Hsel4.
  replace (expires_at _ <? n) with false by (symmetry; apply Z.ltb_ge; simpl; lia).
  reflexivity.
Qed.

(** X24. A stored code is refused once its lifetime is over, the right
    code too, and the call changes nothing. *)
Theorem stored_code_expires
    (utcnow current_timestamp now' : Z) (e otp c : string) (t : otp_table)
    (i : Z) (t1 : otp_table) :
  unique_active_otp (rows t) = true ->
  fits_columns e otp ->
  store utcnow current_timestamp e otp t = (Done i, t1) ->
  utcnow + lifetime < now' ->
  verify_otp now' e c t1 = (Done expired, t1).
Proof.
  intros Hu _ Hst Hnow.
  rewrite store_otp_eq in Hst by assumption.
  destruct (in_both_states e t) eqn:Hb; [discriminate |].
  pose proof (store_otp_is_stored utcnow current_timestamp e otp t Hu Hb) as (Hsel & _).
  injection Hst as <- <-.
  unfold verify_otp. rewrite Hsel.
  replace (expires_at _ <? now') with true by (symmetry; apply Z.ltb_lt; simpl; lia).
  reflexivity.
Qed.

(** X25. An address that has a verified row and an unverified one stays
    so: every [store_otp] for it raises the violation of the constraint,
    no [verify_otp] for it answers with success, the right code raising
    the violation, and the table it leaves is in the same state. *)
Theorem address_in_both_states_is_stuck (e : string) (t : otp_table) :
  well_formed t ->
  in_both_states e t = true ->
  (forall (utcnow current_timestamp : Z) (otp : string),
      store utcnow current_timestamp e otp t = (UniqueViolation, t))
  /\ (forall (utcnow : Z) (c : string),
        exists (reply : db (bool * string)) (t' : otp_table),
          verify_otp utcnow e c t = (reply, t')
          /\ (forall msg : string, reply <> Done (true, msg))
          /\ (forall r : otp_row,
                select_latest e t = Some r -> utcnow <= expires_at r ->
                attempts r < MAX_OTP_ATTEMPTS -> otp_code r = c ->
                reply = UniqueViolation /\ t' = t)
          /\ well_formed t' /\ in_both_states e t' = true).
Proof.
  intros Hwf Hb. pose proof Hwf as (Hu & _). split.
  - intros utcnow cts otp. rewrite store_otp_eq, Hb by assumption. reflexivity.
  - intros utcnow c. unfold verify_otp.
    destruct (select_latest e t) as [r |] eqn:Hsel.
    2:{ eexists _, t. split; [reflexivity |]. split; [discriminate |].
        split; [discriminate | auto]. }
    destruct (expires_at r <? utcnow) eqn:Hexp.
    { eexists _, t. split; [reflexivity |]. split; [discriminate |].
      split; [| auto]. intros r' [= <-] Hle. apply Z.ltb_lt in Hexp. lia. }
    destruct (MAX_OTP_ATTEMPTS <=? attempts r) eqn:Hatt.
    { eexists _, t. split; [reflexivity |]. split; [discriminate |].
      split; [| auto]. intros r' [= <-] _ Hlt. apply Z.leb_le in Hatt. lia. }
    apply select_latest_in in Hsel as [Hin Hr].
    destruct (String.eqb (otp_code r) c) eqn:Hc.
    + assert (Hupd : update_where (fun x => id x =? id r) set_verified t
                     = update_where (unverified_of e) set_verified t).
      { unfold update_where.
        change (map (fun x => if id x =? id r then set_verified x else x) (rows t))
          with (map (on_id set_verified r) (rows t)).
        rewrite (update_by_id_invalidate e t r Hwf Hin Hr). reflexivity. }
      rewrite Hupd, update_invalidate, Hb by assumption.
      eexists _, t. split; [reflexivity |]. split; [discriminate | auto].
    + pose proof (update_where_well_formed (fun x => id x =? id r) add_attempt t
                    (fun _ => eq_refl) Hwf) as Hwf'.
      rewrite update_add_attempt in Hwf' |- * by assumption.
      assert (Hreply : exists m : string,
                (if 0 <? MAX_OTP_ATTEMPTS - (attempts r + 1)
                 then (Done (false, "Invalid code. "
                                    +:+ pretty (MAX_OTP_ATTEMPTS - (attempts r + 1))
                                    +:+ " attempt(s) remaining."),
                       {| rows := map (on_id add_attempt r) (rows t);
                          next_id := next_id t |})
                 else (Done (false, "Invalid code. Maximum attempts reached. Please request a new code."),
                       {| rows := map (on_id add_attempt r) (rows t);
                          next_id := next_id t |}))
                = (Done (false, m),
                   {| rows := map (on_id add_attempt r) (rows t);
                      next_id := next_id t |})).
      { destruct (0 <? _); eexists; reflexivity. }
      destruct Hreply as [m Hreply]. rewrite Hreply.
      eexists _, _. split; [reflexivity |].
      split; [discriminate |].
      split.
      { intros r' [= <-] _ _ Hcode. apply String.eqb_neq in Hc. contradiction. }
      split; [exact Hwf' |].
      assert (Hkeys : map key (map (on_id add_attempt r) (rows t)) = map key (rows t)).
      { rewrite map_map. apply map_ext. intros x. destruct (id x =? id r); reflexivity. }
      unfold in_both_states in *.
      rewrite (has_row_ext e false t {| rows := map (on_id add_attempt r) (rows t);
                                        next_id := next_id t |} Hkeys).
      rewrite (has_row_ext e true t {| rows := map (on_id add_attempt r) (rows t);
                                       next_id := next_id t |} Hkeys).
      exact Hb.
Qed.

(** X26. Both calls keep the table as the database keeps it (the
    constraint, distinct ids below the counter), and no row is deleted:
    the ids of the table before are the first ids of the table after. *)
Theorem otp_calls_keep_the_table_well_formed
    (utcnow current_timestamp : Z) (e otp : string) (t : otp_table) :
  well_formed t ->
  (well_formed (snd (store utcnow current_timestamp e otp t))
   /\ map id (rows t)
      `prefix_of` map id (rows (snd (store utcnow current_timestamp e otp t))))
  /\ (well_formed (snd (verify_otp utcnow e otp t))
      /\ map id (rows (snd (verify_otp utcnow e otp t))) = map id (rows t)).
Proof.
  intros Hwf.
  assert (Hids : forall p f, (forall r, id (f r) = id r) ->
            map id (rows (snd (update_where p f t))) = map id (rows t)).
  { intros p f Hf. unfold update_where.
    destruct (unique_active_otp _); [| reflexivity]. simpl.
    rewrite map_map. apply map_ext. intros r. destruct (p r); auto. }
  split; [split | split].
  - unfold store_otp.
    pose proof (update_where_well_formed (unverified_of e) set_verified t
                  (fun _ => eq_refl) Hwf) as Hw.
    destruct (update_where (unverified_of e) set_verified t) as [[[] |] t0];
      [apply insert_otp_well_formed |]; exact Hw.
  - unfold store_otp.
    pose proof (Hids (unverified_of e) set_verified (fun _ => eq_refl)) as Hi.
    destruct (update_where (unverified_of e) set_verified t) as [[[] |] t0];
      simpl in Hi.
    + unfold insert_otp. destruct (unique_active_otp _); simpl.
      * rewrite map_app, Hi. apply prefix_app_r. reflexivity.
      * rewrite Hi. reflexivity.
    + simpl. rewrite Hi. reflexivity.
  - unfold verify_otp.
    destruct (select_latest e t) as [r |]; [| assumption].
    destruct (expires_at r <? utcnow); [assumption |].
    destruct (MAX_OTP_ATTEMPTS <=? attempts r); [assumption |].
    destruct (String.eqb (otp_code r) otp).
    + pose proof (update_where_well_formed (fun x => id x =? id r) set_verified t
                    (fun _ => eq_refl) Hwf) as Hw.
      destruct (update_where _ set_verified t) as [[[] |] t0]; exact Hw.
    + pose proof (update_where_well_formed (fun x => id x =? id r) add_attempt t
                    (fun _ => eq_refl) Hwf) as Hw.
      destruct (update_where _ add_attempt t) as [[[] |] t0]; [| exact Hw].
      destruct (0 <? _); exact Hw.
  - unfold verify_otp.
    destruct (select_latest e t) as [r |]; [| reflexivity].
    destruct (expires_at r <? utcnow); [reflexivity |].
    destruct (MAX_OTP_ATTEMPTS <=? attempts r); [reflexivity |].
    destruct (String.eqb (otp_code r) otp).
    + pose proof (Hids (fun x => id x =? id r) set_verified (fun _ => eq_refl)) as Hi.
      destruct (update_where _ set_verified t) as [[[] |] t0]; exact Hi.
    + pose proof (Hids (fun x => id x =? id r) add_attempt (fun _ => eq_refl)) as Hi.
      destruct (update_where _ add_attempt t) as [[[] |] t0]; [| exact Hi].
      destruct (0 <? _); exact Hi.
Qed.

Lemma update_where_others (e : string) (p : otp_row -> bool)
    (f : otp_row -> otp_row) (t : otp_table) :
  (forall r, r ∈ rows t -> p r = true -> email r = e) ->
  (forall r, email (f r) = email r) ->
  rows_of_others e (snd (update_where p f t)) = rows_of_others e t.
Proof.
  intros Hp Hf. unfold update_where.
  destruct (unique_active_otp _); [| reflexivity].
  unfold rows_of_others. simpl. apply filter_others_map.
  - intros r _. destruct (p r); auto.
  - intros r Hin Hne. destruct (p r) eqn:Hpr; [| reflexivity].
    exfalso. apply Hne. apply Hp; assumption.
Qed.

Lemma select_latest_others (e e' : string) (t : otp_table) :
  e' <> e ->
  select_latest e' t = fold_left (later e') (rows_of_others e t) None.
Proof.
  intros Hne. unfold select_latest, rows_of_others.
  generalize (@None otp_row). induction (rows t) as [| x rs IH]; intros best; [reflexivity |].
  simpl. destruct (String.eqb (email x) e) eqn:Hx; simpl.
  - replace (unverified_of e' x) with false; [apply IH |].
    symmetry. unfold unverified_of. apply String.eqb_eq in Hx.
    replace (String.eqb (email x) e') with false; [reflexivity |].
    symmetry. apply String.eqb_neq. congruence.
  - apply IH.
Qed.

(** X27. A call for one address leaves the rows of the other addresses
    as they are, whatever it returns, and with them the row that
    [verify_otp] reads for another address; for [verify_otp] this holds
    on a table whose ids are distinct. *)
Theorem otp_calls_leave_other_addresses_alone
    (utcnow current_timestamp : Z) (e otp : string) (t : otp_table) :
  (rows_of_others e (snd (store utcnow current_timestamp e otp t))
   = rows_of_others e t
   /\ forall e' : string, e' <> e ->
        select_latest e' (snd (store utcnow current_timestamp e otp t))
        = select_latest e' t)
  /\ (NoDup (map id (rows t)) ->
      rows_of_others e (snd (verify_otp utcnow e otp t)) = rows_of_others e t
      /\ forall e' : string, e' <> e ->
           select_latest e' (snd (verify_otp utcnow e otp t)) = select_latest e' t).
Proof.
  assert (Hsel : forall t', rows_of_others e t' = rows_of_others e t ->
            forall e', e' <> e -> select_latest e' t' = select_latest e' t).
  { intros t' Heq e' Hne. rewrite !(select_latest_others e e') by assumption.
    rewrite Heq. reflexivity. }
  assert (Hstore : rows_of_others e (snd (store utcnow current_timestamp e otp t))
                   = rows_of_others e t).
  { unfold store_otp.
    pose proof (update_where_others e (unverified_of e) set_verified t) as Hup.
    destruct (update_where (unverified_of e) set_verified t) as [[[] |] t0];
      simpl in Hup |- *.
    - rewrite <- Hup.
      + unfold insert_otp. destruct (unique_active_otp _); [| reflexivity].
        unfold rows_of_others. simpl. rewrite List.filter_app. simpl.
        rewrite String.eqb_refl. simpl. apply app_nil_r.
      + intros r _ Hr. apply unverified_of_spec in Hr. congruence.
      + reflexivity.
    - apply Hup; [| reflexivity].
      intros r _ Hr. apply unverified_of_spec in Hr. congruence. }
  split; [split; [exact Hstore | apply Hsel, Hstore] |].
  intros Hid.
  assert (Hverify : rows_of_others e (snd (verify_otp utcnow e otp t))
                    = rows_of_others e t); [| split; [exact Hverify | apply Hsel, Hverify]].
  unfold verify_otp.
  destruct (select_latest e t) as [r |] eqn:Hr; [| reflexivity].
  destruct (expires_at r <? utcnow); [reflexivity |].
  destruct (MAX_OTP_ATTEMPTS <=? attempts r); [reflexivity |].
  apply select_latest_in in Hr as [Hin Hr].
  apply unverified_of_spec in Hr. injection Hr as He _.
  assert (Hp : forall x, x ∈ rows t -> (id x =? id r) = true -> email x = e).
  { intros x Hx Hi. apply Z.eqb_eq in Hi.
    assert (x = r) as -> by (apply (NoDup_map_inj id (rows t)); assumption).
    assumption. }
  destruct (String.eqb (otp_code r) otp).
  - pose proof (update_where_others e _ set_verified t Hp (fun _ => eq_refl)) as Hup.
    destruct (update_where _ set_verified t) as [[[] |] t0]; exact Hup.
  - pose proof (update_where_others e _ add_attempt t Hp (fun _ => eq_refl)) as Hup.
    destruct (update_where _ add_attempt t) as [[[] |] t0]; [| exact Hup].
    destruct (0 <? _); exact Hup.
Qed.

End Otp.

End OtpFacts.
Module OtpScenarios.
Import Otp OtpVocabulary OtpInputs OtpFacts.
Local Open Scope Z_scope.

Ltac table_ok :=
  split; [reflexivity |];
  split; [apply (@bool_decide_unpack _ (@NoDup_dec Z _ _)); vm_compute; exact I
         | repeat constructor; vm_compute; reflexivity].

Lemma ben_waits_well_formed : well_formed ben_waits.
Proof. table_ok. Qed.

Lemma ana_waits_well_formed : well_formed ana_waits.
Proof. table_ok. Qed.

Lemma ana_asked_twice_well_formed : well_formed ana_asked_twice.
Proof. table_ok. Qed.

Lemma codes_fit (otp : string) :
  (String.length otp <= 6)%nat -> fits_columns ana otp.
Proof. intros H. split; [vm_compute; lia | exact H]. Qed.

Lemma run_first_request :
  store_otp ttl 1000000 1000000 ana "123456" ben_waits = (Done 2, ana_waits).
Proof. vm_compute. reflexivity. Qed.

Lemma run_second_request :
  store_otp ttl 2000000 2000000 ana "654321" ana_waits = (Done 3, ana_asked_twice).
Proof. vm_compute. reflexivity. Qed.

Lemma run_verification :
  verify_otp 60000000 ana "123456" ana_waits
  = (Done (true, "Email verified successfully!"), ana_verified).
Proof. vm_compute. reflexivity. Qed.

Lemma store_otp_is_refused_exactly_in_both_states_witness :
  store_otp ttl 3000000 3000000 ana "777777" ana_asked_twice
  = (UniqueViolation, ana_asked_twice)
  /\ exists t1 : otp_table,
       store_otp ttl 2000000 2000000 ana "654321" ana_waits
       = (Done (next_id ana_waits), t1)
       /\ select_latest ana t1
          = Some (new_row (next_id ana_waits) ana "654321"
                    (2000000 + ttl * 1000000) 2000000)
       /\ unique_active_otp (rows t1) = true
       /\ has_row ana true t1 = known ana ana_waits.
Proof.
  split.
  - apply (store_otp_is_refused_exactly_in_both_states ttl 3000000 3000000 ana
             "777777" ana_asked_twice);
      [reflexivity | apply codes_fit; simpl; lia | reflexivity].
  - apply (store_otp_is_refused_exactly_in_both_states ttl 2000000 2000000 ana
             "654321" ana_waits);
      [reflexivity | apply codes_fit; simpl; lia | reflexivity].
Defined.

Lemma verify_otp_succeeds_only_with_a_stored_code_witness :
  exists r : otp_row,
    r ∈ rows ana_waits
    /\ email r = ana /\ is_verified r = false /\ otp_code r = "123456"
    /\ 60000000 <= expires_at r /\ attempts r < MAX_OTP_ATTEMPTS
    /\ "Email verified successfully!" = "Email verified successfully!"
    /\ rows ana_verified
       = map (fun x => if id x =? id r then set_verified x else x) (rows ana_waits)
    /\ next_id ana_verified = next_id ana_waits.
Proof.
  apply (verify_otp_succeeds_only_with_a_stored_code 60000000 ana "123456"
           ana_waits "Email verified successfully!" ana_verified).
  exact run_verification.
Defined.

Lemma stored_code_verifies_exactly_for_a_new_address_witness :
  (exists t2 : otp_table,
      verify_otp 60000000 ana "123456" ana_waits = (Done verified, t2)
      /\ has_row ana false t2 = false /\ has_row ana true t2 = true)
  /\ verify_otp 60000000 ana "654321" ana_asked_twice
     = (UniqueViolation, ana_asked_twice).
Proof.
  split.
  - apply (stored_code_verifies_exactly_for_a_new_address ttl 1000000 1000000
             60000000 ana "123456" ben_waits 2 ana_waits);
      [exact ben_waits_well_formed | apply codes_fit; simpl; lia
      | exact run_first_request | vm_compute; discriminate | reflexivity].
  - apply (stored_code_verifies_exactly_for_a_new_address ttl 2000000 2000000
             60000000 ana "654321" ana_waits 3 ana_asked_twice);
      [exact ana_waits_well_formed | apply codes_fit; simpl; lia
      | exact run_second_request | vm_compute; discriminate | reflexivity].
Defined.

Lemma verified_code_cannot_be_used_again_witness :
  verify_otp 70000000 ana "123456" ana_verified = (Done no_code, ana_verified).
Proof.
  apply (verified_code_cannot_be_used_again 60000000 ana "123456" ana_waits
           "Email verified successfully!" ana_verified);
    [reflexivity | exact run_verification].
Defined.

Lemma three_wrong_codes_lock_the_stored_code_witness :
  exists t2 t3 t4 : otp_table,
    verify_otp 10000000 ana "000000" ana_waits
    = (Done (false, "Invalid code. 2 attempt(s) remaining."), t2)
    /\ verify_otp 20000000 ana "000001" t2
       = (Done (false, "Invalid code. 1 attempt(s) remaining."), t3)
    /\ verify_otp 30000000 ana "000002" t3
       = (Done (false, "Invalid code. Maximum attempts reached. Please request a new code."),
          t4)
    /\ forall (n : Z) (c : string),
         n <= 1000000 + ttl * 1000000 -> verify_otp n ana c t4 = (Done locked, t4).
Proof.
  apply (three_wrong_codes_lock_the_stored_code ttl 1000000 1000000
           10000000 20000000 30000000 ana "123456" "000000" "000001" "000002"
           ben_waits 2 ana_waits);
    [reflexivity | apply codes_fit; simpl; lia | exact run_first_request
    | discriminate | discriminate | discriminate
    | vm_compute; discriminate | vm_compute; discriminate | vm_compute; discriminate].
Defined.

Lemma stored_code_expires_witness :
  verify_otp 302000000 ana "123456" ana_waits = (Done expired, ana_waits).
Proof.
  apply (stored_code_expires ttl 1000000 1000000 302000000 ana "123456" "123456"
           ben_waits 2 ana_waits);
    [reflexivity | apply codes_fit; simpl; lia | exact run_first_request
    | vm_compute; reflexivity].
Defined.

Lemma address_in_both_states_is_stuck_witness :
  (forall (utcnow current_timestamp : Z) (otp : string),
      store_otp ttl utcnow current_timestamp ana otp ana_asked_twice
      = (UniqueViolation, ana_asked_twice))
  /\ (forall (utcnow : Z) (c : string),
        exists (reply : db (bool * string)) (t' : otp_table),
          verify_otp utcnow ana c ana_asked_twice = (reply, t')
          /\ (forall msg : string, reply <> Done (true, msg))
          /\ (forall r : otp_row,
                select_latest ana ana_asked_twice = Some r -> utcnow <= expires_at r ->
                attempts r < MAX_OTP_ATTEMPTS -> otp_code r = c ->
                reply = UniqueViolation /\ t' = ana_asked_twice)
          /\ well_formed t' /\ in_both_states ana t' = true).
Proof.
  apply (address_in_both_states_is_stuck ttl ana ana_asked_twice);
    [exact ana_asked_twice_well_formed | reflexivity].
Defined.

Lemma otp_calls_keep_the_table_well_formed_witness :
  (well_formed (snd (store_otp ttl 2000000 2000000 ana "654321" ana_waits))
   /\ map id (rows ana_waits)
      `prefix_of` map id (rows (snd (store_otp ttl 2000000 2000000 ana "654321"
                                       ana_waits))))
  /\ (well_formed (snd (verify_otp 2000000 ana "654321" ana_waits))
      /\ map id (rows (snd (verify_otp 2000000 ana "654321" ana_waits)))
         = map id (rows ana_waits)).
Proof.
  apply (otp_calls_keep_the_table_well_formed ttl 2000000 2000000 ana "654321"
           ana_waits).
  exact ana_waits_well_formed.
Defined.

Lemma otp_calls_leave_other_addresses_alone_witness :
  rows_of_others ana (snd (verify_otp 60000000 ana "123456" ana_waits))
  = rows_of_others ana ana_waits
  /\ forall e' : string, e' <> ana ->
       select_latest e' (snd (verify_otp 60000000 ana "123456" ana_waits))
       = select_latest e' ana_waits.
Proof.
  apply (otp_calls_leave_other_addresses_alone ttl 60000000 60000000 ana "123456"
           ana_waits).
  apply ana_waits_well_formed.
Defined.

End OtpScenarios.

(** * The other distance *)

Module DistanceFacts.
Import GeoMath BusinessAI.
Local Open Scope R_scope.



End DistanceFacts.

(** * The type of an establishment *)

Module BestTypeFacts.
Import Establishments.

Lemma is_in_spec (t : string) (types : list string) :
  is_in t types = true <-> t ∈ types.
Proof.
  unfold is_in. rewrite existsb_exists. split.
  - intros (u & Hin & Hu). apply String.eqb_eq in Hu. subst u.
    apply list_elem_of_In, Hin.
  - intros H. exists t. split; [apply list_elem_of_In, H | apply String.eqb_refl].
Qed.

Lemma get_best_type_unlisted (types priority_list : list string) :
  (forall t, t ∈ priority_list -> t ∉ types) ->
  _get_best_type types priority_list = hd "unknown" types.
Proof.
  induction priority_list as [| t rest IH]; intros H.
  - destruct types; reflexivity.
  - simpl. destruct (is_in t types) eqn:Ht.
    + exfalso. apply (H t); [left | apply is_in_spec, Ht].
    + apply IH. intros u Hu. apply H. right. exact Hu.
Qed.

Lemma get_best_type_listed (types priority_list : list string) (i : nat) (t : string) :
  priority_list !! i = Some t -> t ∈ types ->
  exists j : nat,
    (j <= i)%nat
    /\ priority_list !! j = Some (_get_best_type types priority_list)
    /\ _get_best_type types priority_list ∈ types
    /\ forall (k : nat) (u : string),
         (k < j)%nat -> priority_list !! k = Some u -> u ∉ types.
Proof.
  revert i. induction priority_list as [| p rest IH]; intros i Hi Ht; [discriminate |].
  simpl. destruct (is_in p types) eqn:Hp.
  - exists 0%nat. split; [lia |]. split; [reflexivity |].
    split; [apply is_in_spec, Hp |]. intros k u Hk. lia.
  - destruct i as [| i].
    + injection Hi as ->. apply is_in_spec in Ht. congruence.
    + destruct (IH i Hi Ht) as (j & Hj & Hbest & Hin & Hmin).
      exists (S j). split; [lia |]. split; [exact Hbest |]. split; [exact Hin |].
      intros [| k] u Hk Hu.
      * injection Hu as <-. intros Hc. apply is_in_spec in Hc. congruence.
      * apply (Hmin k u); [lia | exact Hu].
Qed.

(** X29. The best type of an establishment is the first entry of the
    priority list that is among its types, when there is one; otherwise
    its first type, and [unknown] for an establishment without types. It
    is one of the types of the establishment whenever there is a type. *)
Theorem get_best_type_is_the_first_listed_type (types priority_list : list string) :
  (forall (i : nat) (t : string),
      priority_list !! i = Some t -> t ∈ types ->
      exists j : nat,
        (j <= i)%nat
        /\ priority_list !! j = Some (_get_best_type types priority_list)
        /\ forall (k : nat) (u : string),
             (k < j)%nat -> priority_list !! k = Some u -> u ∉ types)
  /\ ((forall t, t ∈ priority_list -> t ∉ types) ->
      _get_best_type types priority_list = hd "unknown" types)
  /\ (types <> [] -> _get_best_type types priority_list ∈ types)
  /\ (types = [] -> _get_best_type types priority_list = "unknown").
Proof.
  split; [| split; [| split]].
  - intros i t Hi Ht.
    destruct (get_best_type_listed types priority_list i t Hi Ht)
      as (j & Hj & Hbest & _ & Hmin).
    exists j. auto.
  - apply get_best_type_unlisted.
  - intros Hne.
    destruct (existsb (fun t => is_in t types) priority_list) eqn:He.
    + apply existsb_exists in He as (t & Hin & Ht).
      apply list_elem_of_In, list_elem_of_lookup in Hin as [i Hi].
      apply is_in_spec in Ht.
      destruct (get_best_type_listed types priority_list i t Hi Ht)
        as (_ & _ & _ & Hin' & _).
      exact Hin'.
    + rewrite get_best_type_unlisted.
      * destruct types as [| t0 ts]; [contradiction | left].
      * intros t Hin Ht.
        assert (existsb (fun t => is_in t types) priority_list = true); [| congruence].
        apply existsb_exists. exists t.
        split; [apply list_elem_of_In, Hin | apply is_in_spec, Ht].
  - intros ->. apply get_best_type_unlisted. intros t _ H. inversion H.
Qed.

Lemma get_best_type_witness :
  _get_best_type ["gym"; "store"; "cafe"] TYPE_PRIORITY = "cafe"
  /\ _get_best_type ["gym"; "spa"] TYPE_PRIORITY ∈ ["gym"; "spa"].
Proof.
  split; [reflexivity |].
  apply (get_best_type_is_the_first_listed_type ["gym"; "spa"] TYPE_PRIORITY).
  discriminate.
Defined.

End BestTypeFacts.

(** * The connection to the database *)

Module DatabaseFacts.
Import Database.

Section Env.

Variable getenv : string -> option string.
Variable py_int : string -> option Z.
Variable connect : nat -> option string.

Local Abbreviation loop := (attempts connect).

(** The error that is kept after [n] failed attempts from attempt [i]
    on. *)
Local Abbreviation kept n i last :=
  (match n with O => last | S n' => connect (i + n')%nat end).

Lemma attempts_failed (n m i : nat) (params : conn_params) (delay : Q)
    (last : option string) (log : list event) :
  (0 <= delay)%Q ->
  (forall j, (j < n)%nat -> connect (i + j)%nat <> None) ->
  loop (n + m)%nat i params delay last log
  = loop m (i + n)%nat params delay (kept n i last)
      (log ++ failed_rounds n i params delay).
Proof.
  intros Hd. revert i last log. induction n as [| n IH]; intros i last log Hfail.
  - simpl. rewrite Nat.add_0_r, app_nil_r. reflexivity.
  - cbn [Nat.add attempts].
    pose proof (Hfail 0%nat ltac:(lia)) as H0. rewrite Nat.add_0_r in H0.
    destruct (connect i) as [e |] eqn:He; [| contradiction].
    destruct (Qlt_le_dec delay 0) as [Hneg | _]; [exfalso; lra |].
    rewrite IH.
    + replace (S i + n)%nat with (i + S n)%nat by lia.
      cbn [failed_rounds]. rewrite <- app_assoc. cbn [app].
      f_equal. destruct n as [| n']; [rewrite Nat.add_0_r; exact (eq_sym He) |].
      f_equal. lia.
    + intros j Hj. replace (S i + j)%nat with (i + S j)%nat by lia.
      apply Hfail. lia.
Qed.

(** X30. With connection parameters at hand, [connect_with_retries]
    tries attempt after attempt and sleeps [delay] after each failure:
    when attempt [k + 1 <= retries] is the first to succeed it returns that
    connection after [k] sleeps; when all [retries] attempts fail it raises
    what the last attempt raised, having slept after that one too; with
    [retries <= 0] it makes no attempt and raises the [TypeError] of
    [raise None]; and with a negative [delay] the first failure ends the
    call with the [ValueError] of [time.sleep]. *)
Theorem connect_with_retries_tries_sleeps_and_gives_up
    (retries : Z) (delay : Q) (log : list event) (params : conn_params) :
  get_conn_params getenv py_int = Return params ->
  (forall k : nat,
      (0 <= delay)%Q -> (k < Z.to_nat retries)%nat ->
      (forall i, (1 <= i <= k)%nat -> connect i <> None) -> connect (S k) = None ->
      connect_with_retries getenv py_int connect retries delay log
      = (Return (S k),
         log ++ failed_rounds k 1 params delay ++ [Connect (S k) params]))
  /\ (forall e : string,
        (0 <= delay)%Q -> (0 < retries)%Z ->
        (forall i, (1 <= i <= Z.to_nat retries)%nat -> connect i <> None) ->
        connect (Z.to_nat retries) = Some e ->
        connect_with_retries getenv py_int connect retries delay log
        = (Raises (ConnectError e),
           log ++ failed_rounds (Z.to_nat retries) 1 params delay))
  /\ ((retries <= 0)%Z ->
      connect_with_retries getenv py_int connect retries delay log
      = (Raises TypeError, log))
  /\ ((delay < 0)%Q -> (0 < retries)%Z -> connect 1%nat <> None ->
      connect_with_retries getenv py_int connect retries delay log
      = (Raises ValueError, log ++ [Connect 1 params])).
Proof.
  intros Hp. unfold connect_with_retries. rewrite Hp.
  split; [| split; [| split]].
  - intros k Hd Hk Hfail Hok.
    replace (Z.to_nat retries) with (k + S (Z.to_nat retries - S k))%nat by lia.
    rewrite attempts_failed; [| exact Hd |].
    + cbn [attempts]. replace (1 + k)%nat with (S k) by lia. rewrite Hok.
      rewrite <- app_assoc. reflexivity.
    + intros j Hj. apply Hfail. lia.
  - intros e Hd Hr Hfail He.
    rewrite <- (Nat.add_0_r (Z.to_nat retries)) at 1.
    rewrite attempts_failed; [| exact Hd |].
    + cbn [attempts].
      destruct (Z.to_nat retries) as [| n] eqn:Hn; [lia |].
      replace (1 + n)%nat with (S n) by lia. rewrite He. reflexivity.
    + intros j Hj. apply Hfail. lia.
  - intros Hr. replace (Z.to_nat retries) with 0%nat by lia. reflexivity.
  - intros Hd Hr Hfail.
    destruct (Z.to_nat retries) as [| n] eqn:Hn; [lia |].
    cbn [attempts]. destruct (connect 1%nat) as [e |]; [| contradiction].
    destruct (Qlt_le_dec delay 0) as [_ | Hle]; [reflexivity | exfalso; lra].
Qed.

End Env.

Import DatabaseInputs.

Lemma url_only_params :
  get_conn_params url_only no_int
  = Return (Dsn "postgres://db.example.org/app?sslmode=require").
Proof. vm_compute. reflexivity. Qed.

Lemma connect_with_retries_witness :
  connect_with_retries url_only no_int third_time 5 2 []
  = (Return 3%nat,
     [] ++ failed_rounds 2 1 (Dsn "postgres://db.example.org/app?sslmode=require") 2
     ++ [Connect 3 (Dsn "postgres://db.example.org/app?sslmode=require")])
  /\ connect_with_retries url_only no_int never 5 2 []
     = (Raises (ConnectError "connection refused"),
        [] ++ failed_rounds (Z.to_nat 5) 1
                (Dsn "postgres://db.example.org/app?sslmode=require") 2).
Proof.
  split.
  - apply (connect_with_retries_tries_sleeps_and_gives_up url_only no_int third_time
             5 2 [] _ url_only_params).
    + vm_compute. discriminate.
    + vm_compute. lia.
    + intros i Hi. assert (i = 1 \/ i = 2)%nat as [-> | ->] by lia; discriminate.
    + reflexivity.
  - apply (connect_with_retries_tries_sleeps_and_gives_up url_only no_int never
             5 2 [] _ url_only_params).
    + vm_compute. discriminate.
    + lia.
    + intros i _. discriminate.
    + reflexivity.
Defined.

End DatabaseFacts.
